(** * OHCI Isochronous Transmit DMA program builder: a shallow embedding

    The definitions below follow [tools/it_dma_program.py] (descriptor
    codec, program builder, ring linker, validator, log analyser) and
    [tools/verify_control_word.py] (control-word decoder).  Python integers
    are unbounded, so they are modelled by [Z]; every mask of the source is
    written out with [Z.land], every shift with [Z.shiftl] / [Z.shiftr].
    Byte strings are lists of byte values (each a [Z] in [0, 256)). *)

From Stdlib Require Import ZArith List Bool Lia String Btauto.
Import ListNotations.
Local Open Scope Z_scope.

(* ------------------------------------------------------------------ *)
(** ** Constants *)

Module ITCmd.
Definition OUTPUT_MORE : Z := 0x0.
Definition OUTPUT_LAST : Z := 0x1.
Definition STORE_VALUE : Z := 0x8.
End ITCmd.

Module ITKey.
Definition STANDARD : Z := 0x0.
Definition IMMEDIATE : Z := 0x2.
Definition STORE : Z := 0x6.
End ITKey.

Module ITIrq.
Definition NONE : Z := 0x0.
Definition ALWAYS : Z := 0x3.
End ITIrq.

Module ITBranch.
Definition NEVER : Z := 0x0.
Definition ALWAYS : Z := 0x3.
End ITBranch.

Module ITWait.
Definition NEVER : Z := 0x0.
End ITWait.

Definition BLOCK_SIZE : Z := 16.

Definition FMT_AM824 : Z := 0x10.
Definition FDF_AM824_48K : Z := 0x02.
Definition FDF_AM824_44K : Z := 0x00.
Definition FDF_AM824_96K : Z := 0x04.
Definition DEFAULT_SID : Z := 0x3F.
Definition DEFAULT_DBS : Z := 8.

(* ------------------------------------------------------------------ *)
(** ** Control field builder *)

(** [make_control]: the 16-bit control field. *)
Definition make_control (cmd : Z) (status_write : bool) (key irq branch wait : Z) : Z :=
  let s := if status_write then 1 else 0 in
  let control :=
    Z.lor (Z.lor (Z.shiftl (Z.land cmd 0xF) 12) (Z.shiftl (Z.land s 0x1) 11))
          (Z.shiftl (Z.land key 0x7) 8) in
  let control :=
    Z.lor control
          (Z.lor (Z.lor (Z.shiftl (Z.land irq 0x3) 4) (Z.shiftl (Z.land branch 0x3) 2))
                 (Z.land wait 0x3)) in
  Z.land control 0xFFFF.

(** The first 32-bit word of a descriptor: [reqCount] in the low half and
    the control field in the high half, as the Immediate encoders write it
    ([(8 & 0xFFFF) | ((control & 0xFFFF) << 16)]) and as [pack_desc16] lays
    it out with its little-endian ["<HH"] pair. *)
Definition control_word (req_count control : Z) : Z :=
  Z.lor (Z.land req_count 0xFFFF) (Z.shiftl (Z.land control 0xFFFF) 16).

Definition pack_ptr_with_z (addr z : Z) : Z :=
  Z.lor (Z.land addr 0xFFFFFFF0) (Z.land z 0xF).

(** The dictionary returned by [decode_control_word]
    (tools/verify_control_word.py), one record field per key. *)
Record Decoded := mkDecoded {
  d_reqCount : Z;
  d_cmd : Z;
  d_key : Z;
  d_ping : Z;
  d_i : Z;
  d_b : Z;
  d_wait : Z;
  d_high : Z
}.

Definition decode_control_word (control : Z) : Decoded :=
  let reqCount := Z.land control 0xFFFF in
  let high := Z.land (Z.shiftr control 16) 0xFFFF in
  {| d_reqCount := reqCount;
     d_cmd := Z.land (Z.shiftr high 12) 0xF;
     d_key := Z.land (Z.shiftr high 8) 0x7;
     d_ping := Z.land (Z.shiftr high 7) 0x1;
     d_i := Z.land (Z.shiftr high 4) 0x3;
     d_b := Z.land (Z.shiftr high 2) 0x3;
     d_wait := Z.land (Z.shiftr high 0) 0x3;
     d_high := high |}.

(** The field combination the encoder takes. *)
Record Fields := mkFields {
  f_cmd : Z;
  f_statusWrite : bool;
  f_key : Z;
  f_interrupt : Z;
  f_branch : Z;
  f_wait : Z;
  f_reqCount : Z
}.

Definition valid_fields (f : Fields) : Prop :=
  0 <= f_cmd f < 16 /\ 0 <= f_key f < 8 /\ 0 <= f_interrupt f < 4 /\
  0 <= f_branch f < 4 /\ 0 <= f_wait f < 4 /\ 0 <= f_reqCount f < 65536.

Definition encode_fields (f : Fields) : Z :=
  control_word (f_reqCount f)
    (make_control (f_cmd f) (f_statusWrite f) (f_key f)
                  (f_interrupt f) (f_branch f) (f_wait f)).

(** The named fields of a decoded word, the raw half-word [high] left out. *)
Definition decoded_fields (d : Decoded) : Z * Z * Z * Z * Z * Z * Z :=
  (d_reqCount d, d_cmd d, d_key d, d_ping d, d_i d, d_b d, d_wait d).

(* ------------------------------------------------------------------ *)
(** ** Errors and [struct.pack] *)

(** The exceptions the modelled code can raise. *)
Inductive error : Type :=
| ValueError_UnsupportedRate (sample_rate : Z)   (* fdf_for_rate *)
| ValueError_UnalignedFragment (frag_size : Z)   (* add_data_packet *)
| ZeroDivisionError                              (* payload_len // 0 *)
| StructError.                                   (* struct.pack out of range *)

Definition result (A : Type) : Type := (error + A)%type.
Definition Ok {A : Type} (a : A) : result A := inr a.
Definition Raise {A : Type} (e : error) : result A := inl e.

Definition bind {A B : Type} (r : result A) (k : A -> result B) : result B :=
  match r with
  | inl e => inl e
  | inr a => k a
  end.

Notation "x <- r ;; k" := (bind r (fun x => k))
  (at level 61, r at next level, right associativity).

Definition bytes := list Z.

(** [n] little-endian bytes of [x]. *)
Fixpoint le_bytes (n : nat) (x : Z) : bytes :=
  match n with
  | O => []
  | S n' => (x mod 256) :: le_bytes n' (x / 256)
  end.

Definition be_bytes (n : nat) (x : Z) : bytes := rev (le_bytes n x).

(** One unsigned field of [struct.pack]: an argument outside the field's
    range raises [struct.error]. *)
Definition pack_le (n : nat) (x : Z) : result bytes :=
  if (0 <=? x) && (x <? 2 ^ (8 * Z.of_nat n)) then Ok (le_bytes n x)
  else Raise StructError.

Definition pack_be (n : nat) (x : Z) : result bytes :=
  if (0 <=? x) && (x <? 2 ^ (8 * Z.of_nat n)) then Ok (be_bytes n x)
  else Raise StructError.

Definition zeros (n : nat) : bytes := repeat 0 n.

(** [pack_desc16]: ["<HHIIHH"]. *)
Definition pack_desc16 (req_count control data_address branch_address_with_z
                        res_count transfer_status : Z) : result bytes :=
  b0 <- pack_le 2 (Z.land req_count 0xFFFF) ;;
  b1 <- pack_le 2 (Z.land control 0xFFFF) ;;
  b2 <- pack_le 4 (Z.land data_address 0xFFFFFFFF) ;;
  b3 <- pack_le 4 (Z.land branch_address_with_z 0xFFFFFFFF) ;;
  b4 <- pack_le 2 (Z.land res_count 0xFFFF) ;;
  b5 <- pack_le 2 (Z.land transfer_status 0xFFFF) ;;
  Ok (b0 ++ b1 ++ b2 ++ b3 ++ b4 ++ b5).

(** ["<IIII"], the packing of the Immediate descriptors. *)
Definition pack_IIII (w0 w1 w2 w3 : Z) : result bytes :=
  b0 <- pack_le 4 w0 ;;
  b1 <- pack_le 4 w1 ;;
  b2 <- pack_le 4 w2 ;;
  b3 <- pack_le 4 w3 ;;
  Ok (b0 ++ b1 ++ b2 ++ b3).

(* ------------------------------------------------------------------ *)
(** ** Header quadlets *)

Definition build_it_header_q0 (speed tag channel sy tcode : Z) : Z :=
  let q0 := 0 in
  let q0 := Z.lor q0 (Z.shiftl (Z.land speed 0x7) 16) in
  let q0 := Z.lor q0 (Z.shiftl (Z.land tag 0x3) 14) in
  let q0 := Z.lor q0 (Z.shiftl (Z.land channel 0x3F) 8) in
  let q0 := Z.lor q0 (Z.shiftl (Z.land tcode 0xF) 4) in
  let q0 := Z.lor q0 (Z.land sy 0xF) in
  Z.land q0 0xFFFFFFFF.

Definition build_it_header_q1 (data_length_bytes : Z) : Z :=
  Z.land (Z.shiftl (Z.land data_length_bytes 0xFFFF) 16) 0xFFFFFFFF.

Definition build_cip_q0 (sid dbs dbc fn qpc sph : Z) : Z :=
  let q0 := 0 in
  let q0 := Z.lor q0 (Z.shiftl (Z.land 0 0x3) 30) in
  let q0 := Z.lor q0 (Z.shiftl (Z.land sid 0x3F) 24) in
  let q0 := Z.lor q0 (Z.shiftl (Z.land dbs 0xFF) 16) in
  let q0 := Z.lor q0 (Z.shiftl (Z.land fn 0x3) 14) in
  let q0 := Z.lor q0 (Z.shiftl (Z.land qpc 0x7) 11) in
  let q0 := Z.lor q0 (Z.shiftl (Z.land sph 0x1) 10) in
  let q0 := Z.lor q0 (Z.shiftl (Z.land 0 0x3) 8) in
  let q0 := Z.lor q0 (Z.land dbc 0xFF) in
  Z.land q0 0xFFFFFFFF.

Definition build_cip_q1 (fmt fdf syt : Z) : Z :=
  let q1 := 0 in
  let q1 := Z.lor q1 (Z.shiftl (Z.land 2 0x3) 30) in
  let q1 := Z.lor q1 (Z.shiftl (Z.land fmt 0x3F) 24) in
  let q1 := Z.lor q1 (Z.shiftl (Z.land fdf 0xFF) 16) in
  let q1 := Z.lor q1 (Z.land syt 0xFFFF) in
  Z.land q1 0xFFFFFFFF.

(** [fdf_map], in the order it is written. *)
Definition fdf_map : list (Z * Z) :=
  [ (32000, 0x03); (44100, FDF_AM824_44K); (48000, FDF_AM824_48K);
    (88200, 0x01); (96000, FDF_AM824_96K); (176400, 0x05); (192000, 0x06) ].

Fixpoint assoc (k : Z) (m : list (Z * Z)) : option Z :=
  match m with
  | [] => None
  | (k', v) :: m' => if k =? k' then Some v else assoc k m'
  end.

Definition fdf_for_rate (sample_rate : Z) : result Z :=
  match assoc sample_rate fdf_map with
  | None => Raise (ValueError_UnsupportedRate sample_rate)
  | Some fdf => Ok fdf
  end.

(* ------------------------------------------------------------------ *)
(** ** Descriptors *)

(** The six descriptor dataclasses.  [size] is an ordinary dataclass field
    (with default 16 or 32), so it is carried by every constructor. *)
Inductive ITDescriptor : Type :=
| StoreValue (size store_value store_address skip_address skip_z : Z) (irq : bool)
| OutputMoreImmediate (size it_q0 it_q1 skip_address skip_z : Z) (irq_on_skip : bool)
| OutputLastImmediate (size it_q0 it_q1 branch_address branch_z : Z)
                      (write_status irq_on_complete : bool)
| OutputMore (size req_count data_address : Z)
| OutputLast (size req_count data_address branch_address branch_z : Z)
             (write_status irq_on_complete : bool)
| OutputLastSkip (size branch_address branch_z : Z) (irq_on_complete : bool).

Definition desc_size (d : ITDescriptor) : Z :=
  match d with
  | StoreValue size _ _ _ _ _ => size
  | OutputMoreImmediate size _ _ _ _ _ => size
  | OutputLastImmediate size _ _ _ _ _ _ => size
  | OutputMore size _ _ => size
  | OutputLast size _ _ _ _ _ _ => size
  | OutputLastSkip size _ _ _ => size
  end.

Definition irq_of (b : bool) : Z := if b then ITIrq.ALWAYS else ITIrq.NONE.

(** The [to_bytes] method of each dataclass. *)
Definition to_bytes (d : ITDescriptor) : result bytes :=
  match d with
  | StoreValue _ store_value store_address skip_address skip_z irq =>
      let control := make_control ITCmd.STORE_VALUE false ITKey.STORE (irq_of irq)
                                  ITBranch.NEVER ITWait.NEVER in
      pack_desc16 (Z.land store_value 0xFFFF) control store_address
                  (pack_ptr_with_z skip_address skip_z) 0 0
  | OutputMoreImmediate _ it_q0 it_q1 skip_address skip_z irq_on_skip =>
      let control := make_control ITCmd.OUTPUT_MORE false ITKey.IMMEDIATE
                                  (irq_of irq_on_skip) ITBranch.NEVER ITWait.NEVER in
      desc <- pack_IIII (Z.lor (Z.land 8 0xFFFF) (Z.shiftl (Z.land control 0xFFFF) 16))
                        (pack_ptr_with_z skip_address skip_z)
                        (Z.land it_q0 0xFFFFFFFF) (Z.land it_q1 0xFFFFFFFF) ;;
      Ok (desc ++ zeros 16)
  | OutputLastImmediate _ it_q0 it_q1 branch_address branch_z write_status irq_on_complete =>
      let control := make_control ITCmd.OUTPUT_LAST write_status ITKey.IMMEDIATE
                                  (irq_of irq_on_complete) ITBranch.ALWAYS ITWait.NEVER in
      desc <- pack_IIII (Z.lor (Z.land 8 0xFFFF) (Z.shiftl (Z.land control 0xFFFF) 16))
                        (pack_ptr_with_z branch_address branch_z)
                        (Z.land it_q0 0xFFFFFFFF) (Z.land it_q1 0xFFFFFFFF) ;;
      Ok (desc ++ zeros 16)
  | OutputMore _ req_count data_address =>
      let control := make_control ITCmd.OUTPUT_MORE false ITKey.STANDARD ITIrq.NONE
                                  ITBranch.NEVER ITWait.NEVER in
      pack_desc16 req_count control data_address 0 0 0
  | OutputLast _ req_count data_address branch_address branch_z write_status irq_on_complete =>
      let control := make_control ITCmd.OUTPUT_LAST write_status ITKey.STANDARD
                                  (irq_of irq_on_complete) ITBranch.ALWAYS ITWait.NEVER in
      pack_desc16 req_count control data_address
                  (pack_ptr_with_z branch_address branch_z) 0 0
  | OutputLastSkip _ branch_address branch_z irq_on_complete =>
      let control := make_control ITCmd.OUTPUT_LAST true ITKey.STANDARD
                                  (irq_of irq_on_complete) ITBranch.ALWAYS ITWait.NEVER in
      pack_desc16 0 control 0 (pack_ptr_with_z branch_address branch_z) 0 0
  end.

Inductive SkipStrategy : Type := NEXT | SELF | SENTINEL.

Record DescriptorBlock := mkBlock {
  descriptors : list ITDescriptor;
  address : Z
}.

Definition sumZ (l : list Z) : Z := fold_right Z.add 0 l.

Definition z_value (b : DescriptorBlock) : Z :=
  let total_bytes := sumZ (map desc_size (descriptors b)) in
  (total_bytes + 15) / 16.

Fixpoint join_bytes (l : list (result bytes)) : result bytes :=
  match l with
  | [] => Ok []
  | r :: l' => b <- r ;; rest <- join_bytes l' ;; Ok (b ++ rest)
  end.

Definition block_to_bytes (b : DescriptorBlock) : result bytes :=
  join_bytes (map to_bytes (descriptors b)).

(* ------------------------------------------------------------------ *)
(** ** Program builder *)

(** The instance fields of [ITProgramBuilder]. *)
Record ITProgramBuilder := mkBuilder {
  base_address : Z;
  channel : Z;
  speed : Z;
  sample_rate : Z;
  skip_strategy : SkipStrategy;
  blocks : list DescriptorBlock;
  dbc : Z;
  payload_base : Z;
  payload_offset : Z;
  sentinel_addr : Z
}.

(** [__init__]. *)
Definition new_builder (base_address channel speed sample_rate : Z)
                       (skip_strategy : SkipStrategy) : ITProgramBuilder :=
  {| base_address := base_address;
     channel := channel;
     speed := speed;
     sample_rate := sample_rate;
     skip_strategy := skip_strategy;
     blocks := [];
     dbc := 0;
     payload_base := base_address + 0x10000;
     payload_offset := 0;
     sentinel_addr := base_address + 0xFF00 |}.

Definition set_dbc (self : ITProgramBuilder) (v : Z) : ITProgramBuilder :=
  {| base_address := base_address self; channel := channel self;
     speed := speed self; sample_rate := sample_rate self;
     skip_strategy := skip_strategy self; blocks := blocks self;
     dbc := v;
     payload_base := payload_base self; payload_offset := payload_offset self;
     sentinel_addr := sentinel_addr self |}.

Definition set_payload_offset (self : ITProgramBuilder) (v : Z) : ITProgramBuilder :=
  {| base_address := base_address self; channel := channel self;
     speed := speed self; sample_rate := sample_rate self;
     skip_strategy := skip_strategy self; blocks := blocks self;
     dbc := dbc self;
     payload_base := payload_base self; payload_offset := v;
     sentinel_addr := sentinel_addr self |}.

Definition set_blocks (self : ITProgramBuilder) (v : list DescriptorBlock)
  : ITProgramBuilder :=
  {| base_address := base_address self; channel := channel self;
     speed := speed self; sample_rate := sample_rate self;
     skip_strategy := skip_strategy self; blocks := v;
     dbc := dbc self;
     payload_base := payload_base self; payload_offset := payload_offset self;
     sentinel_addr := sentinel_addr self |}.

(** [blocks[-1]] of a non-empty list. *)
Definition last_block (l : list DescriptorBlock) : option DescriptorBlock :=
  match rev l with
  | [] => None
  | b :: _ => Some b
  end.

Definition _next_block_address (self : ITProgramBuilder) : Z :=
  match last_block (blocks self) with
  | None => base_address self
  | Some last => address last + z_value last * BLOCK_SIZE
  end.

(** [_alloc_payload]: returns the address and advances the cursor;
    [~15] is [Z.lnot 15]. *)
Definition _alloc_payload (self : ITProgramBuilder) (size : Z) : ITProgramBuilder * Z :=
  let addr := payload_base self + payload_offset self in
  (set_payload_offset self (payload_offset self + Z.land (size + 15) (Z.lnot 15)), addr).

(** The loop [for i in range(fragments - 1)] of [add_data_packet]: [n]
    iterations, each appending one [OutputMore] and advancing
    [current_addr]. *)
Fixpoint fragment_loop (n : nat) (frag_size current_addr : Z)
                       (descs : list ITDescriptor) : list ITDescriptor * Z :=
  match n with
  | O => (descs, current_addr)
  | S n' =>
      let size := frag_size in
      fragment_loop n' frag_size (current_addr + size)
                    (descs ++ [OutputMore 16 size current_addr])
  end.

(** [add_data_packet].  The builder is returned in both outcomes: an
    exception leaves the fields already assigned as they are. *)
Definition add_data_packet (self : ITProgramBuilder) (samples channels fragments : Z)
                           (store_val : option Z) (irq : bool)
  : ITProgramBuilder * result DescriptorBlock :=
  let audio_bytes := samples * channels * 4 in
  let payload_len := 8 + audio_bytes in
  let it_q0 := build_it_header_q0 (speed self) 1 (channel self) 0 0xA in
  let it_q1 := build_it_header_q1 payload_len in
  let cip_q0 := build_cip_q0 DEFAULT_SID channels (dbc self) 0 0 0 in
  match fdf_for_rate (sample_rate self) with
  | inl e => (self, Raise e)
  | inr fdf =>
      let cip_q1 := build_cip_q1 FMT_AM824 fdf 0xFFFF in
      let self := set_dbc self (Z.land (dbc self + samples) 0xFF) in
      let descs :=
        match store_val with
        | Some v => [StoreValue 16 v (payload_base self - 4) 0 0 false]
        | None => []
        end in
      let '(self, payload_addr) := _alloc_payload self payload_len in
      let header := OutputMoreImmediate 32 it_q0 it_q1 0 0 false in
      let descs := descs ++ [header] in
      if fragments =? 0 then (self, Raise ZeroDivisionError)
      else
        let frag_size := payload_len / fragments in
        let rem_size := payload_len mod fragments in
        if negb (frag_size mod 4 =? 0)
        then (self, Raise (ValueError_UnalignedFragment frag_size))
        else
          let '(descs, current_addr) :=
            fragment_loop (Z.to_nat (fragments - 1)) frag_size payload_addr descs in
          let last_size := frag_size + rem_size in
          let descs := descs ++ [OutputLast 16 last_size current_addr 0 0 true irq] in
          let block := {| descriptors := descs;
                          address := _next_block_address self |} in
          (set_blocks self (blocks self ++ [block]), Ok block)
  end.

(** [add_nodata_packet] (the definition in force, the second of the two
    textually identical ones). *)
Definition add_nodata_packet (self : ITProgramBuilder) (channels : Z) (irq : bool)
  : ITProgramBuilder * result DescriptorBlock :=
  let payload_len := 8 in
  let '(self, payload_addr) := _alloc_payload self payload_len in
  let it_q0 := build_it_header_q0 (speed self) 1 (channel self) 0 0xA in
  let it_q1 := build_it_header_q1 payload_len in
  let cip_q0 := build_cip_q0 DEFAULT_SID channels (dbc self) 0 0 0 in
  match fdf_for_rate (sample_rate self) with
  | inl e => (self, Raise e)
  | inr fdf =>
      let cip_q1 := build_cip_q1 FMT_AM824 fdf 0xFFFF in
      let descs :=
        [ OutputMoreImmediate 32 it_q0 it_q1 0 0 false;
          OutputLast 16 payload_len payload_addr 0 0 true irq ] in
      let block := {| descriptors := descs;
                      address := _next_block_address self |} in
      (set_blocks self (blocks self ++ [block]), Ok block)
  end.

(* ------------------------------------------------------------------ *)
(** ** Ring linker *)

(** The body of [for desc in block.descriptors] of [finalize_ring]. *)
Definition link_desc (skip_addr skip_z : Z) (next_block : DescriptorBlock)
                     (desc : ITDescriptor) : ITDescriptor :=
  match desc with
  | StoreValue size v a _ _ irq => StoreValue size v a skip_addr skip_z irq
  | OutputMoreImmediate size q0 q1 _ _ irq =>
      OutputMoreImmediate size q0 q1 skip_addr skip_z irq
  | OutputLast size rc da _ _ ws irq =>
      OutputLast size rc da (address next_block) (z_value next_block) ws irq
  | OutputLastSkip size _ _ irq =>
      OutputLastSkip size (address next_block) (z_value next_block) irq
  | OutputLastImmediate _ _ _ _ _ _ _ => desc
  | OutputMore _ _ _ => desc
  end.

Definition link_block (strategy : SkipStrategy) (sentinel : Z)
                      (block next_block : DescriptorBlock) : DescriptorBlock :=
  let '(skip_addr, skip_z) :=
    match strategy with
    | NEXT => (address next_block, z_value next_block)
    | SELF => (address block, z_value block)
    | SENTINEL => (sentinel, 1)
    end in
  {| descriptors := map (link_desc skip_addr skip_z next_block) (descriptors block);
     address := address block |}.

(** In-place update of element [i]. *)
Fixpoint list_set {A : Type} (l : list A) (i : nat) (x : A) : list A :=
  match l, i with
  | [], _ => []
  | _ :: l', O => x :: l'
  | y :: l', S i' => y :: list_set l' i' x
  end.

(** One iteration of [for i, block in enumerate(self.blocks)]: the
    descriptors of block [i] are mutated in place; [next_block] is read from
    the list as it is at that moment.  Blocks and descriptors are values
    here: the update of block [i] is the assignment of the source as long
    as no descriptor or block object is held at two places of the list,
    which is the case for every list the builder makes
    ([add_data_packet] and [add_nodata_packet] construct their descriptors
    and their block anew at each call).  For a hand-made list that holds
    one object twice the source leaves the last assignment in both
    places. *)
Definition finalize_step (strategy : SkipStrategy) (sentinel : Z)
                         (bs : list DescriptorBlock) (i : nat) : list DescriptorBlock :=
  let count := List.length bs in
  let next_idx := Nat.modulo (i + 1) count in
  match nth_error bs i, nth_error bs next_idx with
  | Some block, Some next_block =>
      list_set bs i (link_block strategy sentinel block next_block)
  | _, _ => bs
  end.

Definition link_blocks (strategy : SkipStrategy) (sentinel : Z)
                       (bs : list DescriptorBlock) : list DescriptorBlock :=
  fold_left (finalize_step strategy sentinel) (seq 0 (List.length bs)) bs.

Definition program_bytes (bs : list DescriptorBlock) : result bytes :=
  join_bytes (map block_to_bytes bs).

(** [finalize_ring] (the definition in force). *)
Definition finalize_ring (self : ITProgramBuilder) : ITProgramBuilder * result bytes :=
  match blocks self with
  | [] => (self, Ok [])
  | _ :: _ =>
      let self := set_blocks self
                    (link_blocks (skip_strategy self) (sentinel_addr self) (blocks self)) in
      (self, program_bytes (blocks self))
  end.

(** A packet intent, and a builder driven by a sequence of them.  A call
    that raises contributes whatever it assigned before raising. *)
Inductive packet : Type :=
| DataPacket (samples channels fragments : Z) (store_val : option Z) (irq : bool)
| NoDataPacket (channels : Z) (irq : bool).

Definition add_packet (self : ITProgramBuilder) (p : packet) : ITProgramBuilder :=
  match p with
  | DataPacket samples channels fragments store_val irq =>
      fst (add_data_packet self samples channels fragments store_val irq)
  | NoDataPacket channels irq => fst (add_nodata_packet self channels irq)
  end.

Definition build (self : ITProgramBuilder) (ps : list packet) : ITProgramBuilder :=
  fold_left add_packet ps self.

(** Reading the ring back: the terminal descriptor of a block, its branch
    fields, and the lookup of a block by its address. *)
Definition terminal (b : DescriptorBlock) : option ITDescriptor :=
  match rev (descriptors b) with
  | [] => None
  | d :: _ => Some d
  end.

Definition branch_fields (d : ITDescriptor) : option (Z * Z) :=
  match d with
  | OutputLast _ _ _ branch_address branch_z _ _ => Some (branch_address, branch_z)
  | OutputLastSkip _ branch_address branch_z _ => Some (branch_address, branch_z)
  | OutputLastImmediate _ _ _ branch_address branch_z _ _ => Some (branch_address, branch_z)
  | _ => None
  end.

Definition terminal_branch (b : DescriptorBlock) : option (Z * Z) :=
  match terminal b with
  | Some d => branch_fields d
  | None => None
  end.

(** The branch pointer as [to_bytes] packs it. *)
Definition terminal_branch_pointer (b : DescriptorBlock) : option Z :=
  match terminal_branch b with
  | Some (a, z) => Some (pack_ptr_with_z a z)
  | None => None
  end.

Fixpoint find_block (addr : Z) (bs : list DescriptorBlock) : option nat :=
  match bs with
  | [] => None
  | b :: bs' =>
      if address b =? addr then Some O
      else match find_block addr bs' with
           | Some i => Some (S i)
           | None => None
           end
  end.

(** The request counts of the payload fragments of a block, in order. *)
Definition fragment_sizes (b : DescriptorBlock) : list Z :=
  flat_map (fun d => match d with
                     | OutputMore _ req_count _ => [req_count]
                     | OutputLast _ req_count _ _ _ _ _ => [req_count]
                     | _ => []
                     end) (descriptors b).

(* ------------------------------------------------------------------ *)
(** ** Validator *)

(** One constructor per message of [validate]. *)
Inductive Finding : Type :=
| StoreValueNotFirst (i : nat)
| TooManyOutputMore (i : nat) (more_count : nat)
| MissingOutputLast (i : nat)
| AddressNotAligned (i : nat) (addr : Z)
| ImmediateSizeMismatch (i : nat) (size : Z).

Definition finding_block (f : Finding) : nat :=
  match f with
  | StoreValueNotFirst i => i
  | TooManyOutputMore i _ => i
  | MissingOutputLast i => i
  | AddressNotAligned i _ => i
  | ImmediateSizeMismatch i _ => i
  end.

Definition is_StoreValue (d : ITDescriptor) : bool :=
  match d with StoreValue _ _ _ _ _ _ => true | _ => false end.

Definition is_more (d : ITDescriptor) : bool :=
  match d with
  | OutputMore _ _ _ => true
  | OutputMoreImmediate _ _ _ _ _ _ => true
  | _ => false
  end.

Definition is_last (d : ITDescriptor) : bool :=
  match d with
  | OutputLast _ _ _ _ _ _ _ => true
  | OutputLastSkip _ _ _ _ => true
  | _ => false
  end.

Definition is_immediate (d : ITDescriptor) : bool :=
  match d with
  | OutputMoreImmediate _ _ _ _ _ _ => true
  | OutputLastImmediate _ _ _ _ _ _ _ => true
  | _ => false
  end.

(** Checks 1 to 4, common to both definitions of [validate]. *)
Definition validate_checks (i : nat) (block : DescriptorBlock) : list Finding :=
  let has_store := existsb is_StoreValue (descriptors block) in
  let c1 := if has_store && negb (match descriptors block with
                                  | d :: _ => is_StoreValue d
                                  | [] => false
                                  end)
            then [StoreValueNotFirst i] else [] in
  let more_count := List.length (filter is_more (descriptors block)) in
  let c2 := if Nat.ltb 8 more_count then [TooManyOutputMore i more_count] else [] in
  let has_last := existsb is_last (descriptors block) in
  let c3 := if negb has_last then [MissingOutputLast i] else [] in
  let c4 := if negb (address block mod 16 =? 0)
            then [AddressNotAligned i (address block)] else [] in
  c1 ++ c2 ++ c3 ++ c4.

(** Check 5, present in the first definition only. *)
Definition validate_immediate (i : nat) (block : DescriptorBlock) : list Finding :=
  flat_map (fun d => if is_immediate d && negb (desc_size d =? 32)
                     then [ImmediateSizeMismatch i (desc_size d)] else [])
           (descriptors block).

Fixpoint validate_from (check : nat -> DescriptorBlock -> list Finding)
                       (i : nat) (bs : list DescriptorBlock) : list Finding :=
  match bs with
  | [] => []
  | block :: bs' => check i block ++ validate_from check (S i) bs'
  end.

(** The first [def validate] of the class body (checks 1 to 5).  The class
    body defines [validate] a second time further down, so this one is
    never bound to the name. *)
Definition validate_shadowed (self : ITProgramBuilder) : list Finding :=
  validate_from (fun i block => validate_checks i block ++ validate_immediate i block)
                O (blocks self).

(** The second [def validate], the one [ITProgramBuilder.validate] names
    (checks 1 to 4). *)
Definition validate (self : ITProgramBuilder) : list Finding :=
  validate_from validate_checks O (blocks self).

(* ------------------------------------------------------------------ *)
(** ** Log analyser: selection of the critical event *)

(** An element of [events]: [(ev_code, cmd_ptr, is_dead, line)]. *)
Record Event := mkEvent {
  ev_code : option Z;
  ev_cmd_ptr : option Z;
  ev_dead : bool;
  ev_line : string
}.

Definition benign_codes : list Z := [0x00; 0x02; 0x11].

Definition is_error_code (code : option Z) : bool :=
  match code with
  | None => false
  | Some c => negb (existsb (Z.eqb c) benign_codes)
  end.

(** The loop [for ev in events: ... break]. *)
Fixpoint find_critical (events : list Event) : option Event :=
  match events with
  | [] => None
  | ev :: rest =>
      if ev_dead ev || is_error_code (ev_code ev) then Some ev
      else find_critical rest
  end.

(** [target_ev] of [analyze_it_log]; [None] stands for the early return on
    an empty event list.  A 4-tuple is always truthy, so
    [critical_ev if critical_ev else events[-1]] tests for [None] only. *)
Definition target_ev (events : list Event) : option Event :=
  match events with
  | [] => None
  | ev0 :: _ =>
      match find_critical events with
      | Some ev => Some ev
      | None => Some (last events ev0)
      end
  end.

(** An event qualifies as critical. *)
Definition qualifies (ev : Event) : Prop :=
  ev_dead ev = true \/
  exists c, ev_code ev = Some c /\ c <> 0x00 /\ c <> 0x02 /\ c <> 0x11.

(* ------------------------------------------------------------------ *)
(** ** Exhaustive check of the control field *)

(** The 16-bit half of the round trip, checked on every combination of the
    six control fields. *)
Definition zrange (n : nat) : list Z := map Z.of_nat (seq 0 n).

Definition control_roundtrip_at (cmd : Z) (s : bool) (key irq branch wait : Z) : bool :=
  let high := make_control cmd s key irq branch wait in
  (Z.land (Z.shiftr high 12) 0xF =? cmd) &&
  (Z.land (Z.shiftr high 8) 0x7 =? key) &&
  (Z.land (Z.shiftr high 7) 0x1 =? 0) &&
  (Z.land (Z.shiftr high 4) 0x3 =? irq) &&
  (Z.land (Z.shiftr high 2) 0x3 =? branch) &&
  (Z.land (Z.shiftr high 0) 0x3 =? wait) &&
  Bool.eqb (Z.testbit high 11) s &&
  negb (Z.testbit high 6).

Definition control_roundtrip_all : bool :=
  forallb (fun cmd =>
  forallb (fun s =>
  forallb (fun key =>
  forallb (fun irq =>
  forallb (fun branch =>
  forallb (fun wait => control_roundtrip_at cmd s key irq branch wait)
    (zrange 4)) (zrange 4)) (zrange 4)) (zrange 8)) [false; true]) (zrange 16).

(* ------------------------------------------------------------------ *)
(** ** Scenario: four DATA packets on a fresh builder *)

(** Four [add_data_packet(samples=8, channels=2, fragments=1)] calls on a
    builder at base [0x80000000] with the NEXT strategy and a 48 kHz rate. *)
Definition four_data_blocks (channel speed : Z) (i0 i1 i2 i3 : bool) : ITProgramBuilder :=
  build (new_builder 0x80000000 channel speed 48000 NEXT)
        [ DataPacket 8 2 1 None i0; DataPacket 8 2 1 None i1;
          DataPacket 8 2 1 None i2; DataPacket 8 2 1 None i3 ].

Definition nth_block (self : ITProgramBuilder) (i : nat) : option DescriptorBlock :=
  nth_error (blocks self) i.

(* ------------------------------------------------------------------ *)
(** ** Reading an encoded descriptor *)

(** [bs[off : off + len]]. *)
Definition slice (bs : bytes) (off len : nat) : bytes := firstn len (skipn off bs).

(** The control field an Immediate-keyed descriptor encodes, the pointer
    it packs and its two quadlets. *)
Definition imm_control (d : ITDescriptor) : Z :=
  match d with
  | OutputMoreImmediate _ _ _ _ _ irq_on_skip =>
      make_control ITCmd.OUTPUT_MORE false ITKey.IMMEDIATE (irq_of irq_on_skip)
                   ITBranch.NEVER ITWait.NEVER
  | OutputLastImmediate _ _ _ _ _ write_status irq_on_complete =>
      make_control ITCmd.OUTPUT_LAST write_status ITKey.IMMEDIATE
                   (irq_of irq_on_complete) ITBranch.ALWAYS ITWait.NEVER
  | _ => 0
  end.

Definition imm_pointer (d : ITDescriptor) : Z :=
  match d with
  | OutputMoreImmediate _ _ _ skip_address skip_z _ => pack_ptr_with_z skip_address skip_z
  | OutputLastImmediate _ _ _ branch_address branch_z _ _ =>
      pack_ptr_with_z branch_address branch_z
  | _ => 0
  end.

Definition imm_quadlets (d : ITDescriptor) : Z * Z :=
  match d with
  | OutputMoreImmediate _ it_q0 it_q1 _ _ _ => (it_q0, it_q1)
  | OutputLastImmediate _ it_q0 it_q1 _ _ _ _ => (it_q0, it_q1)
  | _ => (0, 0)
  end.

(** The request count and the addresses a descriptor is given. *)
Definition given_req_count (d : ITDescriptor) : option Z :=
  match d with
  | OutputMore _ req_count _ => Some req_count
  | OutputLast _ req_count _ _ _ _ _ => Some req_count
  | StoreValue _ store_value _ _ _ _ => Some store_value
  | _ => None
  end.

Definition encoded_length (d : ITDescriptor) : nat :=
  if is_immediate d then 32%nat else 16%nat.

(* ------------------------------------------------------------------ *)
(** ** Outcomes of one [add_data_packet] call *)

(** The outcome of [add_data_packet], by cases on where it stops. *)
Inductive data_outcome (self : ITProgramBuilder) (samples channels fragments : Z)
          (store_val : option Z) (irq : bool)
  : ITProgramBuilder * result DescriptorBlock -> Prop :=
| outcome_rate :
    fdf_for_rate (sample_rate self) = Raise (ValueError_UnsupportedRate (sample_rate self)) ->
    data_outcome self samples channels fragments store_val irq
      (self, Raise (ValueError_UnsupportedRate (sample_rate self)))
| outcome_zero fdf self' :
    fdf_for_rate (sample_rate self) = Ok fdf ->
    fragments = 0 ->
    blocks self' = blocks self ->
    dbc self' = Z.land (dbc self + samples) 0xFF ->
    payload_offset self' =
      payload_offset self + Z.land (8 + samples * channels * 4 + 15) (Z.lnot 15) ->
    data_outcome self samples channels fragments store_val irq
      (self', Raise ZeroDivisionError)
| outcome_unaligned fdf self' :
    fdf_for_rate (sample_rate self) = Ok fdf ->
    fragments <> 0 ->
    ((8 + samples * channels * 4) / fragments) mod 4 <> 0 ->
    blocks self' = blocks self ->
    dbc self' = Z.land (dbc self + samples) 0xFF ->
    payload_offset self' =
      payload_offset self + Z.land (8 + samples * channels * 4 + 15) (Z.lnot 15) ->
    data_outcome self samples channels fragments store_val irq
      (self', Raise (ValueError_UnalignedFragment ((8 + samples * channels * 4) / fragments)))
| outcome_block fdf self' block :
    fdf_for_rate (sample_rate self) = Ok fdf ->
    fragments <> 0 ->
    ((8 + samples * channels * 4) / fragments) mod 4 = 0 ->
    blocks self' = blocks self ++ [block] ->
    address block = _next_block_address self ->
    dbc self' = Z.land (dbc self + samples) 0xFF ->
    payload_offset self' =
      payload_offset self + Z.land (8 + samples * channels * 4 + 15) (Z.lnot 15) ->
    fragment_sizes block =
      repeat ((8 + samples * channels * 4) / fragments) (Z.to_nat (fragments - 1)) ++
      [(8 + samples * channels * 4) / fragments + (8 + samples * channels * 4) mod fragments] ->
    data_outcome self samples channels fragments store_val irq (self', Ok block).

(* ------------------------------------------------------------------ *)
(** ** Example builders *)

(** A builder for a rate that [fdf_map] does not list. *)
Definition builder_22050 : ITProgramBuilder := new_builder 0x80000000 0 2 22050 NEXT.

(** The default builder of the command line. *)
Definition builder_48000 : ITProgramBuilder := new_builder 0x80000000 0 2 48000 NEXT.

(** A builder holding one hand-made block whose Immediate descriptor was
    constructed with [size=16]. *)
Definition builder_bad_immediate : ITProgramBuilder :=
  set_blocks builder_48000
    [ {| descriptors := [ OutputMoreImmediate 16 0 0 0 0 false;
                          OutputLast 16 8 0 0 0 true false ];
         address := 0x80000000 |} ].

(** Two scanned events: an acknowledged one, then a timeout on a dead
    context. *)
Definition sample_events : list Event :=
  [ mkEvent (Some 0x11) None false "evt=0x11";
    mkEvent (Some 0x0A) (Some 0x80000030) true "evt=0x0A cmdPtr=0x80000030 dead=1";
    mkEvent (Some 0x02) None false "evt=0x02" ].

(* ------------------------------------------------------------------ *)
(** ** Shape of a built program *)

(** Blocks laid out back to back from address [a]:
    [address_{i+1} = address_i + z_value_i * 16]. *)
Fixpoint chained (a : Z) (bs : list DescriptorBlock) : Prop :=
  match bs with
  | [] => True
  | b :: bs' => address b = a /\ chained (a + z_value b * BLOCK_SIZE) bs'
  end.

(** The last descriptor of the block is of the OUTPUT_LAST family that
    [finalize_ring] links. *)
Definition terminal_is_last (b : DescriptorBlock) : Prop :=
  exists d, terminal b = Some d /\ is_last d = true.

(** What the builder maintains about its block list. *)
Definition ring_ready (a : Z) (bs : list DescriptorBlock) : Prop :=
  Forall terminal_is_last bs /\ Forall (fun b => 0 < z_value b) bs /\ chained a bs.

(** The state of the block list after [finalize_ring] has processed the
    indices below [k]: blocks from [k] on are untouched, blocks below [k]
    are linked to a successor of the right address and Z, and no address or
    Z has changed. *)
Definition linked_upto (s : SkipStrategy) (sent : Z) (bs : list DescriptorBlock)
                       (k : nat) (cur : list DescriptorBlock) : Prop :=
  map address cur = map address bs /\
  map z_value cur = map z_value bs /\
  (forall j b, (k <= j)%nat -> nth_error bs j = Some b -> nth_error cur j = Some b) /\
  (forall j b, (j < k)%nat -> nth_error bs j = Some b ->
     exists nb, nth_error bs (Nat.modulo (j + 1) (List.length bs)) = Some nb /\
                nth_error cur j = Some (link_block s sent b nb)).

(* ------------------------------------------------------------------ *)
(** ** The control-word builder of [verify_control_word.py] *)

(** [build_control_word(reqCount, cmd, key, i, b, ping)]. *)
Definition build_control_word (reqCount cmd key i b : Z) (ping : bool) : Z :=
  let kCmdShift := 12 in
  let kKeyShift := 8 in
  let kPingShift := 7 in
  let kIntShift := 4 in
  let kBranchShift := 2 in
  let kControlHighShift := 16 in
  let cmd_masked := Z.land cmd 0xF in
  let key_masked := Z.land key 0x7 in
  let i_masked := Z.land i 0x3 in
  let b_masked := Z.land b 0x3 in
  let high :=
    Z.lor (Z.lor (Z.lor (Z.lor (Z.shiftl cmd_masked kCmdShift)
                               (Z.shiftl key_masked kKeyShift))
                        (Z.shiftl i_masked kIntShift))
                 (Z.shiftl b_masked kBranchShift))
          (if ping then Z.shiftl 1 kPingShift else 0) in
  Z.lor (Z.shiftl (Z.land high 0xFFFF) kControlHighShift) (Z.land reqCount 0xFFFF).

(** Every combination of the five fields of [build_control_word], decoded
    again. *)
Definition build_roundtrip_at (cmd key i b : Z) (ping : bool) : bool :=
  let d := decode_control_word (build_control_word 0 cmd key i b ping) in
  (d_cmd d =? cmd) && (d_key d =? key) && (d_i d =? i) && (d_b d =? b) &&
  (d_ping d =? (if ping then 1 else 0)) && (d_wait d =? 0) &&
  (d_high d =? Z.shiftr (build_control_word 0 cmd key i b ping) 16).

Definition build_roundtrip_all : bool :=
  forallb (fun cmd =>
  forallb (fun key =>
  forallb (fun i =>
  forallb (fun b =>
  forallb (fun ping => build_roundtrip_at cmd key i b ping)
    [false; true]) (zrange 4)) (zrange 4)) (zrange 8)) (zrange 16).

(* ------------------------------------------------------------------ *)
(** ** Byte strings read back, and the two quadlet packers *)

(** The unsigned integer a little-endian byte string stands for. *)
Fixpoint from_le (bs : bytes) : Z :=
  match bs with
  | [] => 0
  | b :: bs' => b + 256 * from_le bs'
  end.

Definition from_be (bs : bytes) : Z := from_le (rev bs).

(** [pack_it_immediate16]: ["<II"] and eight zero bytes. *)
Definition pack_it_immediate16 (it_q0 it_q1 : Z) : result bytes :=
  b0 <- pack_le 4 (Z.land it_q0 0xFFFFFFFF) ;;
  b1 <- pack_le 4 (Z.land it_q1 0xFFFFFFFF) ;;
  Ok ((b0 ++ b1) ++ zeros 8).

(** [pack_cip_payload]: [">II"], then the audio bytes when there are any. *)
Definition pack_cip_payload (cip_q0 cip_q1 : Z) (audio_bytes : bytes) : result bytes :=
  b0 <- pack_be 4 (Z.land cip_q0 0xFFFFFFFF) ;;
  b1 <- pack_be 4 (Z.land cip_q1 0xFFFFFFFF) ;;
  let payload := b0 ++ b1 in
  match audio_bytes with
  | [] => Ok payload
  | _ :: _ => Ok (payload ++ audio_bytes)
  end.

(* ------------------------------------------------------------------ *)
(** ** Log analyser: deep diagnosis *)

(** The [desc_name] chain of [analyze_it_log]. *)
Definition desc_name (desc_cmd desc_key : Z) : string :=
  if (desc_cmd =? 0) && (desc_key =? 0) then "OUTPUT_MORE"%string
  else if (desc_cmd =? 0) && (desc_key =? 2) then "OUTPUT_MORE-Immediate"%string
  else if (desc_cmd =? 1) && (desc_key =? 0) then "OUTPUT_LAST"%string
  else if (desc_cmd =? 1) && (desc_key =? 2) then "OUTPUT_LAST-Immediate"%string
  else if (desc_cmd =? 8) && (desc_key =? 6) then "STORE_VALUE"%string
  else "UNKNOWN"%string.

(** One constructor per line the deep diagnosis can append to [out]. *)
Inductive DiagLine : Type :=
| CmdPtrBeforeBase (cmd_ptr base_address : Z)
| IllegalAlignment (offset : Z)
| FailureAtIndex (idx : Z)
| SecondHalfNote (prev_idx : Z)
| DescriptorContent (d_val d_dat d_br : Z)
| TypeLine (name : string) (req_count : Z)
| FaultUninitialized
| BranchZ0Stopped
| StandardOutputMore
| FaultNullBranch
| SkipAddressNote
| BranchLooksValid
| DumpNotFound
| CannotDiagnose.

(** The [descriptors] dictionary, index to [(ctl, dat, br)]. *)
Definition DescDict := list (Z * (Z * Z * Z)).

Fixpoint dict_get (descriptors : DescDict) (idx : Z) : option (Z * Z * Z) :=
  match descriptors with
  | [] => None
  | (k, v) :: rest => if k =? idx then Some v else dict_get rest idx
  end.

(** Truth value of an optional integer: [None] and [0] are false. *)
Definition truthy (o : option Z) : bool :=
  match o with
  | Some v => negb (v =? 0)
  | None => false
  end.

(** The lines appended for a descriptor found in the dump
    ([if desc:] branch). *)
Definition describe_desc (d_val d_dat d_br : Z) : list DiagLine :=
  let req_count := Z.land d_val 0xFFFF in
  let control := Z.land (Z.shiftr d_val 16) 0xFFFF in
  let br_z := Z.land d_br 0xF in
  let br_addr := Z.land d_br 0xFFFFFFF0 in
  let desc_cmd := Z.land (Z.shiftr control 12) 0xF in
  let desc_key := Z.land (Z.shiftr control 8) 0x7 in
  [ DescriptorContent d_val d_dat d_br;
    TypeLine (desc_name desc_cmd desc_key) req_count ] ++
  (if d_val =? 0xDEDEDEDE then [FaultUninitialized]
   else if br_z =? 0 then
     (if desc_cmd =? 1 then [BranchZ0Stopped] else [])
   else if br_addr =? 0 then
     (if (desc_cmd =? 0) && (desc_key =? 0) then [StandardOutputMore]
      else FaultNullBranch ::
           (if (desc_cmd =? 0) && (desc_key =? 2) then [SkipAddressNote] else []))
   else [BranchLooksValid]).

(** The part of [analyze_it_log] after the ["Deep Diagnosis:"] heading. *)
Definition deep_diagnosis (cmd_ptr base_address : option Z) (descriptors : DescDict)
  : list DiagLine :=
  if truthy cmd_ptr && truthy base_address then
    match cmd_ptr, base_address with
    | Some cmd_ptr, Some base_address =>
        let cmd_ptr_addr := Z.land cmd_ptr 0xFFFFFFF0 in
        let offset := cmd_ptr_addr - base_address in
        if offset <? 0 then [CmdPtrBeforeBase cmd_ptr base_address]
        else if negb (offset mod 16 =? 0) then [IllegalAlignment offset]
        else
          let idx := offset / 16 in
          let desc := dict_get descriptors idx in
          [FailureAtIndex idx] ++
          (match dict_get descriptors (idx - 1) with
           | Some (p_ctl, _, _) =>
               let p_key := Z.land (Z.shiftr p_ctl 8) 0x7 in
               if p_key =? 2 then [SecondHalfNote (idx - 1)] else []
           | None => []
           end) ++
          (match desc with
           | Some (d_val, d_dat, d_br) => describe_desc d_val d_dat d_br
           | None => [DumpNotFound]
           end)
    | _, _ => [CannotDiagnose]
    end
  else [CannotDiagnose].

(** The name the analyser should give each descriptor class. *)
Definition class_name (d : ITDescriptor) : string :=
  match d with
  | StoreValue _ _ _ _ _ _ => "STORE_VALUE"%string
  | OutputMoreImmediate _ _ _ _ _ _ => "OUTPUT_MORE-Immediate"%string
  | OutputLastImmediate _ _ _ _ _ _ _ => "OUTPUT_LAST-Immediate"%string
  | OutputMore _ _ _ => "OUTPUT_MORE"%string
  | OutputLast _ _ _ _ _ _ _ => "OUTPUT_LAST"%string
  | OutputLastSkip _ _ _ _ => "OUTPUT_LAST"%string
  end.

(** The request count a descriptor writes into its first word. *)
Definition encoded_req_count (d : ITDescriptor) : Z :=
  match d with
  | StoreValue _ store_value _ _ _ _ => store_value mod 65536
  | OutputMoreImmediate _ _ _ _ _ _ => 8
  | OutputLastImmediate _ _ _ _ _ _ _ => 8
  | OutputMore _ req_count _ => req_count mod 65536
  | OutputLast _ req_count _ _ _ _ _ => req_count mod 65536
  | OutputLastSkip _ _ _ _ => 0
  end.

(** The first 32-bit word of an encoded descriptor, as a dump logs it. *)
Definition first_word (bs : bytes) : Z := from_le (slice bs 0 4).

(** A dump in which index 1 holds the first word of an encoded
    OUTPUT_MORE-Immediate descriptor and index 2 an uninitialised pattern. *)
Definition sample_dump : DescDict :=
  [ (1, (0x02000008, 0, 0x80000033)); (2, (0xDEDEDEDE, 0xDEDEDEDE, 0xDEDEDEDE)) ].

(* ------------------------------------------------------------------ *)
(** ** Reading a built program *)

(** The payload extents [(data_address, req_count)] a block points at, in
    descriptor order. *)
Definition data_extents (b : DescriptorBlock) : list (Z * Z) :=
  flat_map (fun d => match d with
                     | OutputMore _ req_count data_address => [(data_address, req_count)]
                     | OutputLast _ req_count data_address _ _ _ _ =>
                         [(data_address, req_count)]
                     | _ => []
                     end) (descriptors b).

(** The extents lie back to back from [a] to [e]. *)
Fixpoint tiles (a : Z) (l : list (Z * Z)) (e : Z) : Prop :=
  match l with
  | [] => a = e
  | (start, size) :: l' => start = a /\ tiles (a + size) l' e
  end.

(** The IT header quadlets of a block: those of its first
    OUTPUT_MORE-Immediate descriptor. *)
Fixpoint header_quadlets (ds : list ITDescriptor) : option (Z * Z) :=
  match ds with
  | [] => None
  | OutputMoreImmediate _ it_q0 it_q1 _ _ _ :: _ => Some (it_q0, it_q1)
  | _ :: ds' => header_quadlets ds'
  end.

(** The skip fields of the descriptors that have them. *)
Definition skip_fields (d : ITDescriptor) : option (Z * Z) :=
  match d with
  | StoreValue _ _ _ skip_address skip_z _ => Some (skip_address, skip_z)
  | OutputMoreImmediate _ _ _ skip_address skip_z _ => Some (skip_address, skip_z)
  | _ => None
  end.

(** The skip target [finalize_ring] chooses for a block. *)
Definition skip_target (strategy : SkipStrategy) (sentinel : Z)
                       (block next_block : DescriptorBlock) : Z * Z :=
  match strategy with
  | NEXT => (address next_block, z_value next_block)
  | SELF => (address block, z_value block)
  | SENTINEL => (sentinel, 1)
  end.

(** A descriptor with the fields [finalize_ring] assigns cleared. *)
Definition erase_links (d : ITDescriptor) : ITDescriptor :=
  match d with
  | StoreValue size v a _ _ irq => StoreValue size v a 0 0 irq
  | OutputMoreImmediate size q0 q1 _ _ irq => OutputMoreImmediate size q0 q1 0 0 irq
  | OutputLast size rc da _ _ ws irq => OutputLast size rc da 0 0 ws irq
  | OutputLastSkip size _ _ irq => OutputLastSkip size 0 0 irq
  | OutputLastImmediate _ _ _ _ _ _ _ => d
  | OutputMore _ _ _ => d
  end.

(** The [size] field says how many bytes [to_bytes] returns. *)
Definition honest_size (d : ITDescriptor) : Prop :=
  desc_size d = Z.of_nat (encoded_length d).

(** The descriptors [add_data_packet] puts in a block, the loop written as
    a [map] over the fragment indices. *)
Definition data_descriptors (store_val : option Z) (store_address it_q0 it_q1 : Z)
           (fragments frag_size rem_size payload_addr : Z) (irq : bool)
  : list ITDescriptor :=
  (match store_val with
   | Some v => [StoreValue 16 v store_address 0 0 false]
   | None => []
   end ++ [OutputMoreImmediate 32 it_q0 it_q1 0 0 false]) ++
  map (fun k => OutputMore 16 frag_size (payload_addr + Z.of_nat k * frag_size))
      (seq 0 (Z.to_nat (fragments - 1))) ++
  [OutputLast 16 (frag_size + rem_size)
              (payload_addr + Z.of_nat (Z.to_nat (fragments - 1)) * frag_size)
              0 0 true irq].

(** The data packets of a packet list all stay within [n] fragments. *)
Definition fragments_within (n : Z) (p : packet) : Prop :=
  match p with
  | DataPacket _ _ fragments _ _ => fragments <= n
  | NoDataPacket _ _ => True
  end.

(** What [finalize_ring] leaves alone in a block: its address and its
    descriptors up to their link fields. *)
Definition unlinked_view (b : DescriptorBlock) : Z * list ITDescriptor :=
  (address b, map erase_links (descriptors b)).

(** The conditions of checks 1, 2, 3 and 5 of [validate] on one block. *)
Definition passes_shape_checks (b : DescriptorBlock) : Prop :=
  (existsb is_StoreValue (descriptors b) &&
   negb (match descriptors b with d :: _ => is_StoreValue d | [] => false end)) = false /\
  Nat.ltb 8 (List.length (filter is_more (descriptors b))) = false /\
  existsb is_last (descriptors b) = true /\
  Forall (fun d => is_immediate d = true -> desc_size d = 32) (descriptors b).

(** Total number of bytes the descriptors of a block list encode to. *)
Definition encoded_bytes (bs : list DescriptorBlock) : nat :=
  list_sum (map (fun b => list_sum (map encoded_length (descriptors b))) bs).

(** What checks 1 to 4 of [validate] read of a block. *)
Definition check_inputs (b : DescriptorBlock) : bool * nat * bool * Z :=
  (existsb is_StoreValue (descriptors b) &&
   negb (match descriptors b with d :: _ => is_StoreValue d | [] => false end),
   List.length (filter is_more (descriptors b)),
   existsb is_last (descriptors b),
   address b).

(** The branch word of a terminal descriptor as it is serialised: the
    little-endian 32-bit word that [to_bytes] puts at byte offset 8 of an
    OUTPUT_LAST ([branch_address_with_z] of [pack_desc16]) and at byte
    offset 4 of an OUTPUT_LAST-Immediate. *)
Definition emitted_branch (d : ITDescriptor) : option Z :=
  match d, to_bytes d with
  | OutputLast _ _ _ _ _ _ _, inr bs => Some (from_le (slice bs 8 4))
  | OutputLastSkip _ _ _ _, inr bs => Some (from_le (slice bs 8 4))
  | OutputLastImmediate _ _ _ _ _ _ _, inr bs => Some (from_le (slice bs 4 4))
  | _, _ => None
  end.

(** One branch taken by a controller that reads the serialised program:
    the branch word of block [i] names an address in bits 31:4 and the Z of
    the block to fetch in bits 3:0; the branch lands on block [j] when
    block [j] lies at that address and has that Z. *)
Definition follow (bs : list DescriptorBlock) (i : nat) : option nat :=
  match nth_error bs i with
  | Some b =>
      match terminal b with
      | Some d =>
          match emitted_branch d with
          | Some w =>
              match find_block (Z.land w 0xFFFFFFF0) bs with
              | Some j =>
                  match nth_error bs j with
                  | Some nb => if z_value nb =? Z.land w 0xF then Some j else None
                  | None => None
                  end
              | None => None
              end
          | None => None
          end
      | None => None
      end
  | None => None
  end.

(** The indices visited by [n] branches taken from block [i], [i] first. *)
Fixpoint walk (bs : list DescriptorBlock) (n : nat) (i : nat) : option (list nat) :=
  match n with
  | O => Some [i]
  | S n' =>
      match follow bs i with
      | Some j =>
          match walk bs n' j with
          | Some l => Some (i :: l)
          | None => None
          end
      | None => None
      end
  end.

(** The branch word a block ends with, as serialised. *)
Definition terminal_word (b : DescriptorBlock) : option Z :=
  match terminal b with
  | Some d => emitted_branch d
  | None => None
  end.

(** Two finalized two-block programs: one on a base address that is not a
    multiple of 16, one whose blocks have 18 fragments each (Z = 20). *)
Definition misaligned_ring : list DescriptorBlock :=
  blocks (fst (finalize_ring
                 (build (new_builder 0x80000008 0 2 48000 NEXT)
                        [DataPacket 8 2 1 None false; DataPacket 8 2 1 None false]))).

Definition wide_ring : list DescriptorBlock :=
  blocks (fst (finalize_ring
                 (build (new_builder 0x80000000 0 2 48000 NEXT)
                        [DataPacket 8 2 18 None false; DataPacket 8 2 18 None false]))).

(* ================================================================== *)
(** * Properties *)

(* ------------------------------------------------------------------ *)
(** ** Bit-level helpers *)

Lemma land_ones_small (n x : Z) :
  0 <= n -> 0 <= x < 2 ^ n -> Z.land x (Z.ones n) = x.
Proof.
  intros Hn Hx. rewrite Z.land_ones by assumption. now apply Z.mod_small.
Qed.

Lemma land_ones_range (n x : Z) :
  0 <= n -> 0 <= Z.land x (Z.ones n) < 2 ^ n.
Proof.
  intros Hn. rewrite Z.land_ones by assumption.
  apply Z.mod_pos_bound. now apply Z.pow_pos_nonneg.
Qed.

Lemma testbit_small_high (n x i : Z) :
  0 <= n -> 0 <= x < 2 ^ n -> n <= i -> Z.testbit x i = false.
Proof.
  intros Hn Hx Hi.
  rewrite <- (Z.mod_small x (2 ^ n)) by assumption.
  apply Z.mod_pow2_bits_high. lia.
Qed.

(** The low half of a descriptor's first word is the request count. *)
Lemma control_word_low (rc c : Z) :
  0 <= rc < 65536 -> Z.land (control_word rc c) 0xFFFF = rc.
Proof.
  intros Hrc. unfold control_word.
  change 0xFFFF with (Z.ones 16).
  rewrite (land_ones_small 16 rc) by (change (2 ^ 16) with 65536; lia).
  apply Z.bits_inj'. intros i Hi.
  rewrite Z.land_spec, Z.lor_spec, Z.shiftl_spec by assumption.
  destruct (Z_lt_le_dec i 16) as [Hlt | Hge].
  - rewrite (Z.testbit_neg_r _ (i - 16)) by lia.
    rewrite Z.ones_spec_low by lia.
    now rewrite orb_false_r, andb_true_r.
  - rewrite Z.ones_spec_high by lia.
    rewrite andb_false_r. symmetry.
    apply (testbit_small_high 16); [lia | change (2 ^ 16) with 65536; lia | assumption].
Qed.

(** The high half is the control field. *)
Lemma control_word_high (rc c : Z) :
  0 <= c < 65536 -> Z.land (Z.shiftr (control_word rc c) 16) 0xFFFF = c.
Proof.
  intros Hc. unfold control_word.
  change 0xFFFF with (Z.ones 16).
  rewrite (land_ones_small 16 c) by (change (2 ^ 16) with 65536; lia).
  apply Z.bits_inj'. intros i Hi.
  rewrite Z.land_spec, Z.shiftr_spec, Z.lor_spec, Z.shiftl_spec by lia.
  replace (i + 16 - 16) with i by lia.
  rewrite Z.land_spec.
  rewrite (Z.ones_spec_high 16 (i + 16)) by lia.
  rewrite andb_false_r, orb_false_l.
  destruct (Z_lt_le_dec i 16) as [Hlt | Hge].
  - rewrite Z.ones_spec_low by lia. now rewrite andb_true_r.
  - rewrite Z.ones_spec_high by lia. rewrite andb_false_r. symmetry.
    apply (testbit_small_high 16); [lia | change (2 ^ 16) with 65536; lia | assumption].
Qed.

Lemma make_control_range cmd s key irq branch wait :
  0 <= make_control cmd s key irq branch wait < 65536.
Proof.
  unfold make_control. change 0xFFFF with (Z.ones 16).
  change 65536 with (2 ^ 16). apply land_ones_range. lia.
Qed.

Lemma in_range (n : nat) (x : Z) :
  0 <= x < Z.of_nat n -> In x (map Z.of_nat (seq 0 n)).
Proof.
  intros Hx. rewrite <- (Z2Nat.id x) by lia.
  apply in_map, in_seq. lia.
Qed.

Lemma control_roundtrip_all_true : control_roundtrip_all = true.
Proof. vm_compute. reflexivity. Qed.

Lemma control_roundtrip cmd s key irq branch wait :
  0 <= cmd < 16 -> 0 <= key < 8 -> 0 <= irq < 4 -> 0 <= branch < 4 -> 0 <= wait < 4 ->
  control_roundtrip_at cmd s key irq branch wait = true.
Proof.
  intros Hc Hk Hi Hb Hw.
  pose proof control_roundtrip_all_true as H. unfold control_roundtrip_all in H.
  rewrite forallb_forall in H. specialize (H cmd (in_range 16 cmd Hc)).
  rewrite forallb_forall in H.
  assert (Hs : In s [false; true]) by (destruct s; simpl; auto).
  specialize (H s Hs).
  rewrite forallb_forall in H. specialize (H key (in_range 8 key Hk)).
  rewrite forallb_forall in H. specialize (H irq (in_range 4 irq Hi)).
  rewrite forallb_forall in H. specialize (H branch (in_range 4 branch Hb)).
  rewrite forallb_forall in H. exact (H wait (in_range 4 wait Hw)).
Qed.

(* ------------------------------------------------------------------ *)
(** ** C1: control-word round trip *)

(** C1, as amended.  For every valid field combination, decoding the
    encoded 32-bit word returns the original cmd, key, interrupt, branch,
    wait and reqCount, and a zero ping bit; bits 7 and 6 of the high half
    are zero.  The decoder has no status-write field: that bit is found
    only as bit 11 of the raw high half it returns. *)
Theorem decode_encode_fields (f : Fields) (Hv : valid_fields f) :
  let d := decode_control_word (encode_fields f) in
  d_cmd d = f_cmd f /\ d_key d = f_key f /\ d_i d = f_interrupt f /\
  d_b d = f_branch f /\ d_wait d = f_wait f /\ d_reqCount d = f_reqCount f /\
  d_ping d = 0 /\ Z.testbit (d_high d) 6 = false /\
  Z.testbit (d_high d) 11 = f_statusWrite f /\
  d_high d = make_control (f_cmd f) (f_statusWrite f) (f_key f)
                          (f_interrupt f) (f_branch f) (f_wait f).
Proof.
  destruct f as [cmd s key irq br w rc].
  destruct Hv as (Hc & Hk & Hi & Hb & Hw & Hrc).
  cbn [f_cmd f_statusWrite f_key f_interrupt f_branch f_wait f_reqCount] in *.
  unfold encode_fields, decode_control_word.
  cbn [d_cmd d_key d_i d_b d_wait d_reqCount d_ping d_high
       f_cmd f_statusWrite f_key f_interrupt f_branch f_wait f_reqCount].
  rewrite control_word_high by apply make_control_range.
  rewrite control_word_low by assumption.
  pose proof (control_roundtrip cmd s key irq br w Hc Hk Hi Hb Hw) as H.
  unfold control_roundtrip_at in H.
  repeat (apply andb_prop in H; destruct H as [H ?]).
  repeat match goal with
         | E : (_ =? _) = true |- _ => apply Z.eqb_eq in E
         | E : Bool.eqb _ _ = true |- _ => apply eqb_prop in E
         | E : negb _ = true |- _ => apply negb_true_iff in E
         end.
  repeat split; assumption.
Qed.

(** The round trip at cmd=1, statusWrite set, key=2, interrupt=3, branch=3,
    reqCount=12. *)
Lemma decode_encode_fields_witness :
  let f := mkFields 1 true 2 3 3 0 12 in
  valid_fields f /\
  decoded_fields (decode_control_word (encode_fields f)) = (12, 1, 2, 0, 3, 3, 0) /\
  Z.testbit (d_high (decode_control_word (encode_fields f))) 11 = true.
Proof.
  assert (Hv : valid_fields (mkFields 1 true 2 3 3 0 12))
    by (unfold valid_fields; simpl; lia).
  pose proof (decode_encode_fields _ Hv) as H.
  split; [exact Hv |]. split; [reflexivity |].
  destruct H as (_ & _ & _ & _ & _ & _ & _ & _ & H & _). exact H.
Defined.

(** C1 as stated fails on the status-write field: two valid field
    combinations that differ in it decode to the same named fields, so no
    reading of those fields returns the original combination. *)
Lemma decode_loses_statusWrite :
  ~ (exists recover : Z * Z * Z * Z * Z * Z * Z -> Fields,
       forall f, valid_fields f ->
         recover (decoded_fields (decode_control_word (encode_fields f))) = f).
Proof.
  intros [recover H].
  assert (H0 : valid_fields (mkFields 1 false 2 3 3 0 12))
    by (unfold valid_fields; simpl; lia).
  assert (H1 : valid_fields (mkFields 1 true 2 3 3 0 12))
    by (unfold valid_fields; simpl; lia).
  pose proof (H _ H0) as E0. pose proof (H _ H1) as E1.
  vm_compute in E0, E1. rewrite E0 in E1. discriminate E1.
Qed.

(* ------------------------------------------------------------------ *)
(** ** C2: the four-block scenario *)

(** C2.  Four DATA blocks (8 samples, 2 channels, 1 fragment, NEXT, base
    0x80000000): every block is a 32-byte OutputMoreImmediate followed by a
    16-byte OutputLast and has Z = 3, the addresses are 0x80000000,
    0x80000030, 0x80000060, 0x80000090, and after [finalize_ring] the
    terminal branch pointer of block 3 is 0x80000003. *)
Theorem four_data_blocks_layout (channel speed : Z) (i0 i1 i2 i3 : bool) :
  let built := four_data_blocks channel speed i0 i1 i2 i3 in
  let final := fst (finalize_ring built) in
  map (fun b => map desc_size (descriptors b)) (blocks built) =
    [[32; 16]; [32; 16]; [32; 16]; [32; 16]] /\
  map z_value (blocks built) = [3; 3; 3; 3] /\
  map address (blocks built) = [0x80000000; 0x80000030; 0x80000060; 0x80000090] /\
  map z_value (blocks final) = [3; 3; 3; 3] /\
  map address (blocks final) = [0x80000000; 0x80000030; 0x80000060; 0x80000090] /\
  match nth_block final 3 with
  | Some b => terminal_branch_pointer b = Some 0x80000003
  | None => False
  end.
Proof.
  destruct i0, i1, i2, i3; cbv -[build_it_header_q0]; repeat split; reflexivity.
Qed.

(* ------------------------------------------------------------------ *)
(** ** Ranges of the packed words *)

Lemma land_mask_range (n x m : Z) :
  0 <= n -> 0 <= m < 2 ^ n -> 0 <= Z.land x m < 2 ^ n.
Proof.
  intros Hn Hm.
  rewrite <- (land_ones_small n m Hn Hm), Z.land_assoc.
  now apply land_ones_range.
Qed.

Lemma lor_range (n a b : Z) :
  0 <= n -> 0 <= a < 2 ^ n -> 0 <= b < 2 ^ n -> 0 <= Z.lor a b < 2 ^ n.
Proof.
  intros Hn Ha Hb.
  rewrite <- (land_ones_small n a Hn Ha), <- (land_ones_small n b Hn Hb).
  rewrite <- Z.land_lor_distr_l. now apply land_ones_range.
Qed.

Lemma shiftl16_range (c : Z) :
  0 <= c < 2 ^ 16 -> 0 <= Z.shiftl c 16 < 2 ^ 32.
Proof.
  intros Hc. rewrite Z.shiftl_mul_pow2 by lia.
  change (2 ^ 32) with (2 ^ 16 * 2 ^ 16). nia.
Qed.

Lemma first_word_range (rc control : Z) :
  0 <= Z.lor (Z.land rc 0xFFFF) (Z.shiftl (Z.land control 0xFFFF) 16) < 2 ^ 32.
Proof.
  apply lor_range; [lia | | ].
  - apply land_mask_range; [lia | change (2 ^ 32) with 4294967296; lia].
  - apply shiftl16_range. apply land_mask_range; [lia | change (2 ^ 16) with 65536; lia].
Qed.

Lemma pack_ptr_with_z_range (addr z : Z) :
  0 <= pack_ptr_with_z addr z < 2 ^ 32.
Proof.
  unfold pack_ptr_with_z.
  apply lor_range; [lia | | ];
    (apply land_mask_range; [lia | change (2 ^ 32) with 4294967296; lia]).
Qed.

Lemma pack_le_ok (n : nat) (x : Z) :
  0 <= x < 2 ^ (8 * Z.of_nat n) -> pack_le n x = Ok (le_bytes n x).
Proof.
  intros [H0 H1]. unfold pack_le.
  apply Z.leb_le in H0. apply Z.ltb_lt in H1. now rewrite H0, H1.
Qed.

Lemma pack_le_mask16 (x : Z) :
  pack_le 2 (Z.land x 0xFFFF) = Ok (le_bytes 2 (Z.land x 0xFFFF)).
Proof.
  apply pack_le_ok. change (2 ^ (8 * Z.of_nat 2)) with (2 ^ 16).
  apply land_mask_range; [lia | change (2 ^ 16) with 65536; lia].
Qed.

Lemma pack_le_mask32 (x : Z) :
  pack_le 4 (Z.land x 0xFFFFFFFF) = Ok (le_bytes 4 (Z.land x 0xFFFFFFFF)).
Proof.
  apply pack_le_ok. change (2 ^ (8 * Z.of_nat 4)) with (2 ^ 32).
  apply land_mask_range; [lia | change (2 ^ 32) with 4294967296; lia].
Qed.

Lemma pack_le_pointer (addr z : Z) :
  pack_le 4 (pack_ptr_with_z addr z) = Ok (le_bytes 4 (pack_ptr_with_z addr z)).
Proof.
  apply pack_le_ok. change (2 ^ (8 * Z.of_nat 4)) with (2 ^ 32).
  apply pack_ptr_with_z_range.
Qed.

Lemma pack_le_first_word (rc control : Z) :
  pack_le 4 (Z.lor (Z.land rc 0xFFFF) (Z.shiftl (Z.land control 0xFFFF) 16)) =
  Ok (le_bytes 4 (Z.lor (Z.land rc 0xFFFF) (Z.shiftl (Z.land control 0xFFFF) 16))).
Proof.
  apply pack_le_ok. change (2 ^ (8 * Z.of_nat 4)) with (2 ^ 32).
  apply first_word_range.
Qed.

(** [pack_desc16] always returns its 16 bytes. *)
Lemma pack_desc16_ok (rc c da br rs ts : Z) :
  pack_desc16 rc c da br rs ts =
  Ok (le_bytes 2 (Z.land rc 0xFFFF) ++ le_bytes 2 (Z.land c 0xFFFF) ++
      le_bytes 4 (Z.land da 0xFFFFFFFF) ++ le_bytes 4 (Z.land br 0xFFFFFFFF) ++
      le_bytes 2 (Z.land rs 0xFFFF) ++ le_bytes 2 (Z.land ts 0xFFFF)).
Proof.
  unfold pack_desc16.
  rewrite !pack_le_mask16, !pack_le_mask32. reflexivity.
Qed.

Lemma pack_IIII_ok (w0 w1 w2 w3 : Z) :
  pack_le 4 w0 = Ok (le_bytes 4 w0) -> pack_le 4 w1 = Ok (le_bytes 4 w1) ->
  pack_le 4 w2 = Ok (le_bytes 4 w2) -> pack_le 4 w3 = Ok (le_bytes 4 w3) ->
  pack_IIII w0 w1 w2 w3 =
  Ok (le_bytes 4 w0 ++ le_bytes 4 w1 ++ le_bytes 4 w2 ++ le_bytes 4 w3).
Proof.
  intros H0 H1 H2 H3. unfold pack_IIII. rewrite H0, H1, H2, H3. reflexivity.
Qed.

(* ------------------------------------------------------------------ *)
(** ** C3: layout of the Immediate-keyed descriptors *)

(** C3, as amended.  Every Immediate-keyed descriptor encodes to 32 bytes:
    the control word and the packed pointer in bytes 0..7, the two
    quadlets in little-endian byte order in bytes 8..11 and 12..15, and 16
    zero bytes after them. *)
Theorem immediate_layout (d : ITDescriptor) (Himm : is_immediate d = true) :
  exists bs,
    to_bytes d = Ok bs /\ List.length bs = 32%nat /\
    slice bs 0 4 = le_bytes 4 (control_word 8 (imm_control d)) /\
    slice bs 4 4 = le_bytes 4 (imm_pointer d) /\
    slice bs 8 4 = le_bytes 4 (Z.land (fst (imm_quadlets d)) 0xFFFFFFFF) /\
    slice bs 12 4 = le_bytes 4 (Z.land (snd (imm_quadlets d)) 0xFFFFFFFF) /\
    slice bs 16 16 = zeros 16.
Proof.
  destruct d as [ | sz q0 q1 sa sz' irq | sz q0 q1 ba bz ws irq | | | ];
    try discriminate Himm;
    cbn [to_bytes imm_control imm_pointer imm_quadlets fst snd];
    (rewrite pack_IIII_ok;
     [ | apply pack_le_first_word | apply pack_le_pointer
       | apply pack_le_mask32 | apply pack_le_mask32 ]);
    cbn [bind Ok]; eexists; (split; [reflexivity |]);
    unfold control_word; repeat split; reflexivity.
Qed.

(** The layout at quadlets 0x01020304 and 0x05060708. *)
Lemma immediate_layout_witness :
  exists bs,
    to_bytes (OutputMoreImmediate 32 0x01020304 0x05060708 0 0 false) = Ok bs /\
    slice bs 8 8 = [4; 3; 2; 1; 8; 7; 6; 5] /\ slice bs 16 16 = zeros 16.
Proof.
  destruct (immediate_layout (OutputMoreImmediate 32 0x01020304 0x05060708 0 0 false)
                             eq_refl)
    as (bs & Hb & _ & _ & _ & _ & _ & Hz).
  exists bs. split; [exact Hb |]. split; [| exact Hz].
  vm_compute in Hb. injection Hb as <-. reflexivity.
Defined.

(** C3 as stated fails: past the first 16 bytes the encoding holds no
    big-endian copy of the quadlets. *)
Lemma immediate_no_trailing_big_endian :
  ~ (exists bs,
       to_bytes (OutputMoreImmediate 32 0x01020304 0x05060708 0 0 false) = Ok bs /\
       exists off, (16 <= off)%nat /\
         slice bs off 8 = be_bytes 4 0x01020304 ++ be_bytes 4 0x05060708).
Proof.
  intros (bs & Hb & off & Hoff & Hs).
  vm_compute in Hb. injection Hb as <-.
  do 16 (destruct off as [| off]; [lia |]).
  do 17 (destruct off as [| off]; [vm_compute in Hs; discriminate Hs |]).
  vm_compute in Hs. destruct off; discriminate Hs.
Qed.

(* ------------------------------------------------------------------ *)
(** ** C4: encoding is total *)

Lemma land_ffff_mod (x : Z) : Z.land x 0xFFFF = x mod 65536.
Proof. change 0xFFFF with (Z.ones 16). now rewrite Z.land_ones by lia. Qed.

Lemma mask_high_nibbles_low_bits (i : Z) :
  0 <= i < 4 -> Z.testbit 0xFFFFFFF0 i = false.
Proof.
  intros Hi.
  assert (i = 0 \/ i = 1 \/ i = 2 \/ i = 3) as [-> | [-> | [-> | ->]]] by lia;
    reflexivity.
Qed.

(** The low four address bits never reach the packed pointer. *)
Lemma pack_ptr_with_z_aligns (addr z : Z) :
  pack_ptr_with_z addr z = pack_ptr_with_z (addr - addr mod 16) z.
Proof.
  unfold pack_ptr_with_z. f_equal.
  apply Z.bits_inj'. intros i Hi. rewrite !Z.land_spec.
  destruct (Z_lt_le_dec i 4) as [Hlt | Hge].
  - rewrite mask_high_nibbles_low_bits by lia. now rewrite !andb_false_r.
  - f_equal.
    replace (addr - addr mod 16) with (addr / 2 ^ 4 * 2 ^ 4)
      by (change (2 ^ 4) with 16; pose proof (Z.div_mod addr 16); lia).
    rewrite Z.mul_pow2_bits by lia.
    rewrite Z.div_pow2_bits by lia.
    f_equal. lia.
Qed.

Lemma lor_shiftl16_add (lo hi : Z) :
  0 <= lo < 65536 -> 0 <= hi < 65536 ->
  Z.lor lo (Z.shiftl hi 16) = lo + 65536 * hi.
Proof.
  intros Hlo Hhi.
  assert (Hdisj : Z.land lo (Z.shiftl hi 16) = 0).
  { apply Z.bits_inj'. intros i Hi.
    rewrite Z.land_spec, Z.shiftl_spec, Z.bits_0 by assumption.
    destruct (Z_lt_le_dec i 16) as [Hlt | Hge].
    - rewrite (Z.testbit_neg_r hi) by lia. apply andb_false_r.
    - rewrite (testbit_small_high 16 lo i) by (change (2 ^ 16) with 65536; lia).
      reflexivity. }
  rewrite <- Z.lxor_lor by assumption.
  rewrite <- Z.add_nocarry_lxor by assumption.
  rewrite Z.shiftl_mul_pow2 by lia. change (2 ^ 16) with 65536. lia.
Qed.

Lemma le_bytes_halves (lo hi : Z) :
  0 <= lo < 65536 -> 0 <= hi < 65536 ->
  le_bytes 2 lo ++ le_bytes 2 hi = le_bytes 4 (lo + 65536 * hi).
Proof.
  intros Hlo Hhi. cbn [le_bytes app].
  replace (lo + 65536 * hi) with (lo + 256 * hi * 256) by lia.
  rewrite Z.mod_add, Z.div_add by lia.
  replace (lo / 256 + 256 * hi) with (lo / 256 + hi * 256) by lia.
  rewrite Z.mod_add, Z.div_add by lia.
  assert (Hz : lo / 256 / 256 = 0)
    by (rewrite Z.div_div by lia; apply Z.div_small; lia).
  rewrite Hz, Z.add_0_l. reflexivity.
Qed.

(** The first four bytes [pack_desc16] emits are the little-endian bytes of
    the descriptor's first word. *)
Lemma pack_desc16_first_word (rc c da br rs ts : Z) :
  exists bs, pack_desc16 rc c da br rs ts = Ok bs /\
             slice bs 0 4 = le_bytes 4 (control_word rc c).
Proof.
  rewrite pack_desc16_ok. eexists. split; [reflexivity |].
  unfold control_word.
  assert (Hrc : 0 <= Z.land rc 0xFFFF < 65536)
    by (rewrite land_ffff_mod; apply Z.mod_pos_bound; lia).
  assert (Hc : 0 <= Z.land c 0xFFFF < 65536)
    by (rewrite land_ffff_mod; apply Z.mod_pos_bound; lia).
  rewrite lor_shiftl16_add by assumption.
  rewrite <- le_bytes_halves by assumption.
  reflexivity.
Qed.

(** C4, as amended.  Encoding never fails: every descriptor encodes to 16
    bytes (32 for the Immediate-keyed ones); a request count is reduced
    modulo 2^16 into the first two bytes, and the low four bits of an
    address are dropped by the pointer packing rather than rejected. *)
Theorem to_bytes_total (d : ITDescriptor) :
  (exists bs,
     to_bytes d = Ok bs /\ List.length bs = encoded_length d /\
     match given_req_count d with
     | Some rc => slice bs 0 2 = le_bytes 2 (rc mod 65536)
     | None => True
     end) /\
  (forall addr z : Z, pack_ptr_with_z addr z = pack_ptr_with_z (addr - addr mod 16) z).
Proof.
  split; [| exact pack_ptr_with_z_aligns].
  destruct d as [sz v sa ka kz irq | sz q0 q1 sa sz' irq | sz q0 q1 ba bz ws irq
                | sz rc da | sz rc da ba bz ws irq | sz ba bz irq];
    cbn [to_bytes given_req_count encoded_length is_immediate].
  - rewrite pack_desc16_ok. eexists. split; [reflexivity |].
    split; [reflexivity |].
    rewrite !land_ffff_mod, Z.mod_mod by lia. reflexivity.
  - rewrite pack_IIII_ok by
      first [apply pack_le_first_word | apply pack_le_pointer | apply pack_le_mask32].
    eexists. split; [reflexivity |]. split; [reflexivity | exact I].
  - rewrite pack_IIII_ok by
      first [apply pack_le_first_word | apply pack_le_pointer | apply pack_le_mask32].
    eexists. split; [reflexivity |]. split; [reflexivity | exact I].
  - rewrite pack_desc16_ok. eexists. split; [reflexivity |].
    split; [reflexivity |]. rewrite land_ffff_mod. reflexivity.
  - rewrite pack_desc16_ok. eexists. split; [reflexivity |].
    split; [reflexivity |]. rewrite land_ffff_mod. reflexivity.
  - rewrite pack_desc16_ok. eexists. split; [reflexivity |].
    split; [reflexivity | exact I].
Qed.

(** C4 as stated fails: a request count of 0x10000 and addresses that are
    not multiples of 16 are encoded, the count as 0 and the branch address
    rounded down. *)
Lemma to_bytes_accepts_overflow_and_misalignment :
  let d := OutputLast 16 0x10000 0x80000001 0x80000031 3 true false in
  given_req_count d = Some 0x10000 /\ 0xFFFF < 0x10000 /\
  0x80000001 mod 16 <> 0 /\ 0x80000031 mod 16 <> 0 /\
  to_bytes d = Ok [0x00; 0x00; 0x0C; 0x18; 0x01; 0x00; 0x00; 0x80;
                   0x33; 0x00; 0x00; 0x80; 0x00; 0x00; 0x00; 0x00].
Proof.
  cbv zeta. repeat split; try reflexivity; vm_compute; discriminate.
Qed.

(* ------------------------------------------------------------------ *)
(** ** The builder: what one call does *)

Lemma fragment_loop_sizes (n : nat) (fs addr : Z) (descs : list ITDescriptor) :
  fragment_sizes (mkBlock (fst (fragment_loop n fs addr descs)) 0) =
  fragment_sizes (mkBlock descs 0) ++ repeat fs n.
Proof.
  revert addr descs. induction n as [| n IH]; intros addr descs.
  - simpl. now rewrite app_nil_r.
  - cbn [fragment_loop]. rewrite IH.
    unfold fragment_sizes. cbn [descriptors].
    rewrite flat_map_app. cbn [flat_map]. rewrite <- app_assoc. reflexivity.
Qed.

Lemma sumZ_app (l1 l2 : list Z) : sumZ (l1 ++ l2) = sumZ l1 + sumZ l2.
Proof.
  induction l1 as [| x l1 IH]; simpl; [reflexivity | rewrite IH; lia].
Qed.

Lemma sumZ_repeat (x : Z) (n : nat) : sumZ (repeat x n) = Z.of_nat n * x.
Proof.
  induction n as [| n IH]; [reflexivity |].
  cbn [repeat sumZ fold_right]. fold (sumZ (repeat x n)). rewrite IH. lia.
Qed.

Lemma fdf_for_rate_cases (rate : Z) :
  fdf_for_rate rate = Raise (ValueError_UnsupportedRate rate) \/
  exists fdf, fdf_for_rate rate = Ok fdf.
Proof.
  unfold fdf_for_rate. destruct (assoc rate fdf_map) as [fdf |].
  - right. now exists fdf.
  - now left.
Qed.

Lemma add_data_packet_outcome self samples channels fragments store_val irq :
  data_outcome self samples channels fragments store_val irq
    (add_data_packet self samples channels fragments store_val irq).
Proof.
  unfold add_data_packet.
  destruct (fdf_for_rate_cases (sample_rate self)) as [Hr | [fdf Hr]].
  - rewrite Hr. cbn [Raise]. now apply outcome_rate.
  - rewrite Hr. cbn [Ok _alloc_payload].
    destruct (fragments =? 0) eqn:Hz.
    + apply Z.eqb_eq in Hz. now apply (outcome_zero _ _ _ _ _ _ fdf).
    + apply Z.eqb_neq in Hz.
      destruct ((8 + samples * channels * 4) / fragments mod 4 =? 0) eqn:Ha;
        cbn [negb].
      * apply Z.eqb_eq in Ha.
        destruct (fragment_loop _ _ _ _) as [descs current_addr] eqn:Hloop.
        apply (outcome_block _ _ _ _ _ _ fdf); try assumption; try reflexivity.
        unfold fragment_sizes at 1. cbn [descriptors].
        rewrite flat_map_app. cbn [flat_map]. rewrite app_nil_r.
        f_equal.
        pose proof (fragment_loop_sizes (Z.to_nat (fragments - 1))
                      ((8 + samples * channels * 4) / fragments)
                      (payload_base self + payload_offset self)
                      (match store_val with
                       | Some v => [StoreValue 16 v (payload_base self - 4) 0 0 false]
                       | None => []
                       end ++
                       [OutputMoreImmediate 32
                          (build_it_header_q0 (speed self) 1 (channel self) 0 0xA)
                          (build_it_header_q1 (8 + samples * channels * 4)) 0 0 false]))
          as Hs.
        cbn [set_dbc set_payload_offset payload_base payload_offset speed channel] in Hloop.
        rewrite Hloop in Hs. cbn [fst] in Hs.
        unfold fragment_sizes in Hs. cbn [descriptors] in Hs.
        rewrite Hs. rewrite flat_map_app.
        destruct store_val; reflexivity.
      * apply Z.eqb_neq in Ha. now apply (outcome_unaligned _ _ _ _ _ _ fdf).
Qed.

(* ------------------------------------------------------------------ *)
(** ** C5: fragmentation conservation *)

Lemma Forall_repeat {A : Type} (P : A -> Prop) (x : A) (n : nat) :
  P x -> Forall P (repeat x n).
Proof. intros Hx. induction n; simpl; constructor; assumption. Qed.

(** C5.  For a fragment count [fragments >= 0], every [add_data_packet]
    call that returns a block splits the payload of
    [8 + samples*channels*4] bytes into exactly [fragments] pieces: the
    first [fragments - 1] are [payloadLen // fragments] bytes each, the
    last one takes the remainder on top, the sizes add up to the payload
    length and each is a multiple of 4.  For any non-zero fragment count
    on a supported sample rate, when [payloadLen // fragments] is not a
    multiple of 4 the call raises the unaligned-fragment error and appends
    nothing.  The bound [fragments >= 0] is needed: the source accepts a
    negative count and then returns a single piece of negative size. *)
Theorem fragmentation_conservation :
  (forall self samples channels fragments store_val irq self' block,
      0 <= fragments ->
      add_data_packet self samples channels fragments store_val irq = (self', Ok block) ->
      let payload_len := 8 + samples * channels * 4 in
      let sizes := fragment_sizes block in
      sizes = repeat (payload_len / fragments) (Z.to_nat (fragments - 1)) ++
              [payload_len / fragments + payload_len mod fragments] /\
      Z.of_nat (List.length sizes) = fragments /\
      sumZ sizes = payload_len /\
      Forall (fun s => s mod 4 = 0) sizes /\
      0 <= payload_len mod fragments < fragments) /\
  (forall self samples channels fragments store_val irq fdf,
      fdf_for_rate (sample_rate self) = Ok fdf ->
      fragments <> 0 ->
      ((8 + samples * channels * 4) / fragments) mod 4 <> 0 ->
      snd (add_data_packet self samples channels fragments store_val irq) =
        Raise (ValueError_UnalignedFragment ((8 + samples * channels * 4) / fragments)) /\
      blocks (fst (add_data_packet self samples channels fragments store_val irq)) =
        blocks self).
Proof.
  split.
  - intros self samples channels fragments store_val irq self' block Hf Hret.
    pose proof (add_data_packet_outcome self samples channels fragments store_val irq) as H.
    rewrite Hret in H. inversion H as [ | | | fdf s' b Hr Hnz Hal Hb Ha Hd Hp Hs]; subst.
    cbv zeta. set (pl := 8 + samples * channels * 4) in *.
    assert (Hpos : 0 < fragments) by lia.
    pose proof (Z.div_mod pl fragments Hnz) as Hdm.
    pose proof (Z.mod_pos_bound pl fragments Hpos) as Hrem.
    rewrite Hs. split; [reflexivity |].
    split; [rewrite length_app, repeat_length; cbn [List.length]; lia |].
    split.
    + rewrite sumZ_app, sumZ_repeat. cbn [sumZ fold_right].
      rewrite Z2Nat.id by lia. nia.
    + split; [| exact Hrem].
      apply Forall_app. split.
      * now apply Forall_repeat.
      * constructor; [| constructor].
        apply Z.mod_divide in Hal; [| lia]. destruct Hal as [k Hk].
        apply Z.mod_divide; [lia |].
        exists (2 + samples * channels - fragments * k + k).
        fold pl in Hk. rewrite Hk in *.
        set (r := pl mod fragments) in *. clearbody r.
        unfold pl in Hdm. clearbody pl. lia.
  - intros self samples channels fragments store_val irq fdf Hr Hf Hal.
    pose proof (add_data_packet_outcome self samples channels fragments store_val irq) as H.
    destruct (add_data_packet self samples channels fragments store_val irq) as [s' r].
    cbn [fst snd].
    inversion H as [Hr' | ? ? ? Hz | fdf' ? ? ? ? Hb | ? ? ? ? ? Hal' ]; subst.
    + rewrite Hr in Hr'. discriminate Hr'.
    + lia.
    + split; [reflexivity | assumption].
    + contradiction.
Qed.

(** Three fragments of a 72-byte payload. *)
Lemma fragmentation_conservation_witness :
  let self := new_builder 0x80000000 0 2 48000 NEXT in
  exists self' block,
    add_data_packet self 8 2 3 None false = (self', Ok block) /\
    fragment_sizes block = [24; 24; 24] /\
    sumZ (fragment_sizes block) = 8 + 8 * 2 * 4.
Proof.
  cbv zeta.
  destruct (add_data_packet (new_builder 0x80000000 0 2 48000 NEXT) 8 2 3 None false)
    as [self' [e | block]] eqn:Hret; [vm_compute in Hret; discriminate Hret |].
  exists self', block. split; [reflexivity |].
  destruct (proj1 fragmentation_conservation _ 8 2 3 None false self' block
                  ltac:(lia) Hret) as (Hs & _ & Hsum & _).
  split; [exact Hs | exact Hsum].
Defined.

(** With [fragments = -1] and a 72-byte payload the call returns a block:
    [72 // -1 = -72] is a multiple of 4, [range(-2)] is empty, and the one
    OUTPUT_LAST asks for -72 bytes. *)
Lemma fragmentation_negative_fragments :
  exists self' block,
    add_data_packet builder_48000 8 2 (-1) None false = (self', Ok block) /\
    fragment_sizes block = [-72] /\
    sumZ (fragment_sizes block) <> 8 + 8 * 2 * 4 /\
    Z.of_nat (List.length (fragment_sizes block)) <> -1.
Proof.
  destruct (add_data_packet builder_48000 8 2 (-1) None false)
    as [self' [e | block]] eqn:Hret; vm_compute in Hret; [discriminate Hret |].
  injection Hret as Hs Hb. subst self' block.
  do 2 eexists. split; [reflexivity |]. vm_compute.
  repeat split; discriminate.
Qed.

(* ------------------------------------------------------------------ *)
(** ** C7: the data-block counter *)

Lemma land_ff_mod (x : Z) : Z.land x 0xFF = x mod 256.
Proof. change 0xFF with (Z.ones 8). now rewrite Z.land_ones by lia. Qed.

Lemma add_nodata_packet_dbc self channels irq :
  dbc (fst (add_nodata_packet self channels irq)) = dbc self.
Proof.
  unfold add_nodata_packet. cbn [_alloc_payload].
  destruct (fdf_for_rate _); reflexivity.
Qed.

(** C7, as amended.  On a builder whose sample rate [fdf_for_rate] accepts
    (so in particular whenever the call returns a block), the counter after
    [add_data_packet] is the counter before plus the sample count, modulo
    256, whether the call returns or raises later on; [add_nodata_packet]
    leaves the counter as it is. *)
Theorem dbc_advances self samples channels fragments store_val irq nd_channels nd_irq
        (Hrate : exists fdf, fdf_for_rate (sample_rate self) = Ok fdf) :
  dbc (fst (add_data_packet self samples channels fragments store_val irq)) =
    (dbc self + samples) mod 256 /\
  dbc (fst (add_nodata_packet self nd_channels nd_irq)) = dbc self.
Proof.
  split; [| apply add_nodata_packet_dbc].
  destruct Hrate as [fdf Hr].
  pose proof (add_data_packet_outcome self samples channels fragments store_val irq) as H.
  destruct (add_data_packet self samples channels fragments store_val irq) as [s' r].
  cbn [fst].
  inversion H as [Hr' | ? ? ? ? ? Hd | ? ? ? ? ? ? Hd | ? ? ? ? ? ? ? ? Hd]; subst;
    try (rewrite Hd; apply land_ff_mod).
  rewrite Hr in Hr'. discriminate Hr'.
Qed.

(** The counter after one packet on the default builder. *)
Lemma dbc_advances_witness :
  dbc (fst (add_data_packet builder_48000 8 2 1 None false)) = 8 /\
  dbc (fst (add_nodata_packet builder_48000 8 false)) = 0.
Proof.
  exact (dbc_advances builder_48000 8 2 1 None false 8 false
                      (ex_intro _ FDF_AM824_48K eq_refl)).
Defined.

(** C7 as stated fails on a builder with an unsupported rate: the call
    raises while building the CIP header, before the counter is assigned. *)
Lemma dbc_untouched_on_unsupported_rate :
  add_data_packet builder_22050 8 2 1 None false =
    (builder_22050, Raise (ValueError_UnsupportedRate 22050)) /\
  dbc (fst (add_data_packet builder_22050 8 2 1 None false)) = 0 /\
  (dbc builder_22050 + 8) mod 256 = 8.
Proof. repeat split. Qed.

(* ------------------------------------------------------------------ *)
(** ** C10: state left behind by a failed call *)

(** C10.  When [add_data_packet] raises the unaligned-fragment error, the
    block list is unchanged, while the counter has been advanced by the
    sample count (modulo 256) and the payload cursor by the payload length
    rounded up to a multiple of 16. *)
Theorem unaligned_failure_state self samples channels fragments store_val irq self' fs
        (Hfail : add_data_packet self samples channels fragments store_val irq =
                 (self', Raise (ValueError_UnalignedFragment fs))) :
  blocks self' = blocks self /\
  dbc self' = Z.land (dbc self + samples) 0xFF /\
  payload_offset self' =
    payload_offset self + Z.land (8 + samples * channels * 4 + 15) (Z.lnot 15).
Proof.
  pose proof (add_data_packet_outcome self samples channels fragments store_val irq) as H.
  rewrite Hfail in H.
  inversion H as [ | | fdf s' Hr Hnz Hal Hb Hd Hp | ]; subst.
  repeat split; assumption.
Qed.

(** A 12-byte payload in 5 fragments: the call raises, the counter and
    the cursor have moved. *)
Lemma unaligned_failure_state_witness :
  let self' := fst (add_data_packet builder_48000 1 1 5 None false) in
  blocks self' = [] /\ dbc self' = 1 /\ payload_offset self' = 16.
Proof.
  exact (unaligned_failure_state builder_48000 1 1 5 None false
           (fst (add_data_packet builder_48000 1 1 5 None false)) 2 eq_refl).
Defined.

(* ------------------------------------------------------------------ *)
(** ** C8: the validator and the size of Immediate descriptors *)

Lemma validate_from_in check (bs : list DescriptorBlock) (k i : nat) block f :
  nth_error bs i = Some block -> In f (check (k + i)%nat block) ->
  In f (validate_from check k bs).
Proof.
  revert k i. induction bs as [| b bs IH]; intros k i Hn Hf.
  - destruct i; discriminate Hn.
  - cbn [validate_from]. apply in_or_app. destruct i as [| i].
    + injection Hn as ->. left. now rewrite Nat.add_0_r in Hf.
    + right. apply (IH (S k) i Hn).
      now replace (S k + i)%nat with (k + S i)%nat by lia.
Qed.

(** The first definition of [validate] does report an Immediate-keyed
    descriptor whose size is not 32, under the index of its block. *)
Lemma validate_shadowed_reports self i block d :
  nth_error (blocks self) i = Some block ->
  In d (descriptors block) -> is_immediate d = true -> desc_size d <> 32 ->
  In (ImmediateSizeMismatch i (desc_size d)) (validate_shadowed self).
Proof.
  intros Hn Hd Himm Hsz. unfold validate_shadowed.
  apply (validate_from_in _ _ 0 i block); [assumption |].
  cbn [Nat.add]. apply in_or_app. right.
  unfold validate_immediate. apply in_flat_map. exists d. split; [assumption |].
  rewrite Himm. apply Z.eqb_neq in Hsz. rewrite Hsz. now left.
Qed.

Lemma validate_checks_no_size i block f :
  In f (validate_checks i block) -> forall j sz, f <> ImmediateSizeMismatch j sz.
Proof.
  unfold validate_checks. intros Hf j sz ->.
  repeat (apply in_app_or in Hf; destruct Hf as [Hf | Hf]);
    match type of Hf with
    | In _ (if ?c then _ else _) => destruct c
    end; simpl in Hf; intuition discriminate.
Qed.

Lemma validate_from_checks_no_size (bs : list DescriptorBlock) k f :
  In f (validate_from validate_checks k bs) ->
  forall j sz, f <> ImmediateSizeMismatch j sz.
Proof.
  revert k. induction bs as [| b bs IH]; intros k Hf; [destruct Hf |].
  cbn [validate_from] in Hf. apply in_app_or in Hf. destruct Hf as [Hf | Hf].
  - now apply (validate_checks_no_size k b).
  - now apply (IH (S k)).
Qed.

(** C8, on the code.  [validate] as the class binds it returns a list for
    every builder and never a size finding; on the builder holding an
    Immediate descriptor of size 16 it returns no finding at all, where the
    shadowed first definition returns the size finding for block 0. *)
Theorem validate_misses_immediate_size :
  (forall self f, In f (validate self) -> forall j sz, f <> ImmediateSizeMismatch j sz) /\
  validate builder_bad_immediate = [] /\
  validate_shadowed builder_bad_immediate = [ImmediateSizeMismatch 0 16].
Proof.
  split; [| split; reflexivity].
  intros self f Hf. now apply (validate_from_checks_no_size (blocks self) 0).
Qed.

(* ------------------------------------------------------------------ *)
(** ** C9: selection of the critical event *)

Lemma qualifies_iff (ev : Event) :
  ev_dead ev || is_error_code (ev_code ev) = true <-> qualifies ev.
Proof.
  unfold qualifies, is_error_code, benign_codes.
  destruct (ev_dead ev); cbn [orb].
  - split; [now left | reflexivity].
  - destruct (ev_code ev) as [c |].
    + cbn [existsb]. rewrite orb_false_r, negb_true_iff, !orb_false_iff, !Z.eqb_neq.
      split.
      * intros (H0 & H2 & H11). right. exists c. auto.
      * intros [Hd | (c' & Hc & H0 & H2 & H11)]; [discriminate Hd |].
        injection Hc as <-. auto.
    + split; [discriminate |].
      intros [Hd | (c & Hc & _)]; discriminate.
Qed.

Lemma find_critical_some (events : list Event) (ev : Event) :
  find_critical events = Some ev ->
  exists pre post, events = pre ++ ev :: post /\
                   Forall (fun e => ~ qualifies e) pre /\ qualifies ev.
Proof.
  induction events as [| e rest IH]; [discriminate |].
  cbn [find_critical]. destruct (ev_dead e || is_error_code (ev_code e)) eqn:Hq.
  - intros [= <-]. exists [], rest. repeat split; [constructor |].
    now apply qualifies_iff.
  - intros Hf. destruct (IH Hf) as (pre & post & -> & Hpre & Hev).
    exists (e :: pre), post. repeat split; [| assumption].
    constructor; [| assumption].
    intros Hc. apply qualifies_iff in Hc. rewrite Hc in Hq. discriminate Hq.
Qed.

Lemma find_critical_none (events : list Event) :
  find_critical events = None -> Forall (fun e => ~ qualifies e) events.
Proof.
  induction events as [| e rest IH]; [constructor |].
  cbn [find_critical]. destruct (ev_dead e || is_error_code (ev_code e)) eqn:Hq;
    [discriminate |].
  intros Hf. constructor; [| now apply IH].
  intros Hc. apply qualifies_iff in Hc. rewrite Hc in Hq. discriminate Hq.
Qed.

(** C9.  On a non-empty event sequence the analyser's target is the first
    event that is dead or carries a code outside {0x00, 0x02, 0x11}; when no
    event is, the target is the last event of the sequence. *)
Theorem critical_event_selection (events : list Event) (Hne : events <> []) :
  exists ev,
    target_ev events = Some ev /\
    ((exists pre post, events = pre ++ ev :: post /\
                       Forall (fun e => ~ qualifies e) pre /\ qualifies ev) \/
     (Forall (fun e => ~ qualifies e) events /\
      exists pre, events = pre ++ [ev])).
Proof.
  destruct events as [| ev0 rest]; [contradiction |].
  unfold target_ev. destruct (find_critical (ev0 :: rest)) as [ev |] eqn:Hf.
  - exists ev. split; [reflexivity |]. left. now apply find_critical_some.
  - exists (last (ev0 :: rest) ev0). split; [reflexivity |]. right.
    split; [now apply find_critical_none |].
    exists (removelast (ev0 :: rest)). apply app_removelast_last. discriminate.
Qed.

(** The timeout event is selected among the sample events. *)
Lemma critical_event_selection_witness :
  exists ev, target_ev sample_events = Some ev /\ ev_code ev = Some 0x0A.
Proof.
  destruct (critical_event_selection sample_events ltac:(discriminate))
    as (ev & Ht & _).
  exists ev. split; [exact Ht |].
  vm_compute in Ht. injection Ht as <-. reflexivity.
Defined.

(* ------------------------------------------------------------------ *)
(** ** In-place update of a list *)

Lemma list_set_length {A : Type} (l : list A) (i : nat) (x : A) :
  List.length (list_set l i x) = List.length l.
Proof.
  revert i. induction l as [| y l IH]; intros [| i]; simpl; auto.
Qed.

Lemma nth_error_list_set_eq {A : Type} (l : list A) (i : nat) (x : A) :
  (i < List.length l)%nat -> nth_error (list_set l i x) i = Some x.
Proof.
  revert i. induction l as [| y l IH]; intros [| i] Hi; simpl in *; try lia.
  - reflexivity.
  - apply IH. lia.
Qed.

Lemma nth_error_list_set_neq {A : Type} (l : list A) (i j : nat) (x : A) :
  i <> j -> nth_error (list_set l i x) j = nth_error l j.
Proof.
  revert i j. induction l as [| y l IH]; intros [| i] [| j] Hij; simpl;
    try reflexivity; try congruence.
  apply IH. congruence.
Qed.

Lemma list_set_same {A : Type} (l : list A) (i : nat) (x : A) :
  nth_error l i = Some x -> list_set l i x = l.
Proof.
  revert i. induction l as [| y l IH]; intros [| i] Hn; simpl in *;
    try discriminate; try congruence.
  f_equal. now apply IH.
Qed.

Lemma map_list_set {A B : Type} (f : A -> B) (l : list A) (i : nat) (x : A) :
  map f (list_set l i x) = list_set (map f l) i (f x).
Proof.
  revert i. induction l as [| y l IH]; intros [| i]; simpl; try reflexivity.
  f_equal. apply IH.
Qed.

(* ------------------------------------------------------------------ *)
(** ** Linking one block *)

Lemma desc_size_link_desc sa sz nb d : desc_size (link_desc sa sz nb d) = desc_size d.
Proof. destruct d; reflexivity. Qed.

Lemma link_block_address s sent b nb : address (link_block s sent b nb) = address b.
Proof. unfold link_block. destruct s; reflexivity. Qed.

Lemma link_block_z_value s sent b nb : z_value (link_block s sent b nb) = z_value b.
Proof.
  unfold link_block, z_value. destruct s; cbn [descriptors];
    rewrite map_map; do 3 f_equal; apply map_ext; intros d;
    apply desc_size_link_desc.
Qed.

(** [link_block] reads the successor's address and Z only. *)
Lemma link_block_shape s sent b nb nb' :
  address nb = address nb' -> z_value nb = z_value nb' ->
  link_block s sent b nb = link_block s sent b nb'.
Proof.
  intros Ha Hz. unfold link_block.
  destruct s; rewrite ?Ha, ?Hz; f_equal; apply map_ext; intros d;
    destruct d; cbn [link_desc]; rewrite ?Ha, ?Hz; reflexivity.
Qed.

Lemma terminal_link_block s sent b nb :
  terminal_is_last b ->
  terminal_branch (link_block s sent b nb) = Some (address nb, z_value nb).
Proof.
  intros (d & Ht & Hl). unfold terminal_branch, terminal in *.
  assert (Hrev : forall sa sz,
             rev (map (link_desc sa sz nb) (descriptors b)) =
             map (link_desc sa sz nb) (rev (descriptors b)))
    by (intros; symmetry; apply map_rev).
  unfold link_block. destruct s; cbn [descriptors]; rewrite Hrev;
    destruct (rev (descriptors b)) as [| d0 l]; try discriminate Ht;
    injection Ht as ->; destruct d; try discriminate Hl; reflexivity.
Qed.

(* ------------------------------------------------------------------ *)
(** ** The linking loop *)

Section Linking.

Variable s : SkipStrategy.
Variable sent : Z.
Variable bs : list DescriptorBlock.

Lemma nth_error_same_map {A : Type} (f : DescriptorBlock -> A)
      (cur : list DescriptorBlock) (j : nat) (c b : DescriptorBlock) :
  map f cur = map f bs -> nth_error cur j = Some c -> nth_error bs j = Some b ->
  f c = f b.
Proof.
  intros Hm Hc Hb.
  apply (map_nth_error f) in Hc. apply (map_nth_error f) in Hb.
  rewrite Hm in Hc. congruence.
Qed.

Lemma linked_upto_0 : linked_upto s sent bs 0 bs.
Proof.
  unfold linked_upto. repeat split; auto. intros j b Hj. lia.
Qed.

Lemma linked_upto_step (k : nat) (cur : list DescriptorBlock) :
  (k < List.length bs)%nat ->
  linked_upto s sent bs k cur ->
  linked_upto s sent bs (S k) (finalize_step s sent cur k).
Proof.
  intros Hk (Ha & Hz & Hkeep & Hdone).
  assert (Hlen : List.length cur = List.length bs)
    by (rewrite <- (length_map address cur), Ha; apply length_map).
  destruct (nth_error bs k) as [bk |] eqn:Hbk;
    [| apply nth_error_None in Hbk; lia].
  pose proof (Hkeep k bk (Nat.le_refl k) Hbk) as Hck.
  assert (Hnext : (Nat.modulo (k + 1) (List.length bs) < List.length bs)%nat)
    by (apply Nat.mod_upper_bound; lia).
  destruct (nth_error bs (Nat.modulo (k + 1) (List.length bs))) as [nb0 |] eqn:Hnb0;
    [| apply nth_error_None in Hnb0; lia].
  destruct (nth_error cur (Nat.modulo (k + 1) (List.length bs))) as [nb |] eqn:Hnb;
    [| apply nth_error_None in Hnb; lia].
  unfold finalize_step. rewrite Hlen, Hck, Hnb.
  rewrite (link_block_shape s sent bk nb nb0)
    by (eapply nth_error_same_map; eassumption).
  unfold linked_upto. repeat split.
  - rewrite map_list_set, link_block_address, Ha.
    apply list_set_same. now apply map_nth_error.
  - rewrite map_list_set, link_block_z_value, Hz.
    apply list_set_same. now apply map_nth_error.
  - intros j b Hj Hb. rewrite nth_error_list_set_neq by lia. apply Hkeep; [lia | assumption].
  - intros j b Hj Hb. destruct (Nat.eq_dec j k) as [-> | Hne].
    + rewrite Hbk in Hb. injection Hb as <-.
      exists nb0. split; [assumption |].
      apply nth_error_list_set_eq. lia.
    + rewrite nth_error_list_set_neq by congruence.
      apply Hdone; [lia | assumption].
Qed.

Lemma linked_upto_fold (k : nat) :
  (k <= List.length bs)%nat ->
  linked_upto s sent bs k (fold_left (finalize_step s sent) (seq 0 k) bs).
Proof.
  induction k as [| k IH]; intros Hk.
  - apply linked_upto_0.
  - rewrite seq_S, fold_left_app. cbn [fold_left Nat.add].
    apply linked_upto_step; [lia | apply IH; lia].
Qed.

Lemma link_blocks_linked :
  linked_upto s sent bs (List.length bs) (link_blocks s sent bs).
Proof. apply linked_upto_fold. lia. Qed.

End Linking.

(* ------------------------------------------------------------------ *)
(** ** What the builder maintains *)

Lemma last_block_snoc (bs : list DescriptorBlock) (b : DescriptorBlock) :
  last_block (bs ++ [b]) = Some b.
Proof. unfold last_block. now rewrite rev_unit. Qed.

Lemma last_block_cons (b0 : DescriptorBlock) (bs : list DescriptorBlock) :
  last_block (b0 :: bs) =
  match last_block bs with
  | Some l => Some l
  | None => Some b0
  end.
Proof.
  unfold last_block. cbn [rev].
  destruct (rev bs) as [| l r]; reflexivity.
Qed.

(** The address [_next_block_address] computes from a block list. *)
Lemma chained_snoc (a : Z) (bs : list DescriptorBlock) (b : DescriptorBlock) :
  chained a bs ->
  address b = match last_block bs with
              | None => a
              | Some l => address l + z_value l * BLOCK_SIZE
              end ->
  chained a (bs ++ [b]).
Proof.
  revert a. induction bs as [| b0 bs IH]; intros a Hc Hb.
  - cbn in *. auto.
  - destruct Hc as [Ha Hc]. cbn [app chained]. split; [assumption |].
    apply IH; [assumption |].
    rewrite last_block_cons in Hb.
    destruct (last_block bs) as [l |]; [assumption | now rewrite <- Ha].
Qed.

Lemma terminal_snoc (l : list ITDescriptor) (d : ITDescriptor) (a : Z) :
  terminal (mkBlock (l ++ [d]) a) = Some d.
Proof. unfold terminal. cbn [descriptors]. now rewrite rev_unit. Qed.

Lemma sumZ_sizes_snoc (l : list ITDescriptor) (d : ITDescriptor) :
  sumZ (map desc_size (l ++ [d])) = sumZ (map desc_size l) + desc_size d.
Proof. rewrite map_app, sumZ_app. cbn. lia. Qed.

Lemma fragment_loop_sizes_nonneg (n : nat) (fs addr : Z) (descs : list ITDescriptor) :
  0 <= sumZ (map desc_size descs) ->
  0 <= sumZ (map desc_size (fst (fragment_loop n fs addr descs))).
Proof.
  revert addr descs. induction n as [| n IH]; intros addr descs H; [exact H |].
  cbn [fragment_loop]. apply IH. rewrite sumZ_sizes_snoc. cbn [desc_size]. lia.
Qed.

Lemma z_value_pos_of_sum (l : list ITDescriptor) (a : Z) :
  16 <= sumZ (map desc_size l) -> 0 < z_value (mkBlock l a).
Proof.
  intros H. unfold z_value. cbn [descriptors].
  apply Z.div_str_pos. lia.
Qed.

(** A block returned by [add_data_packet] ends in an OUTPUT_LAST and has a
    positive Z. *)
Lemma add_data_packet_block self samples channels fragments store_val irq self' block :
  add_data_packet self samples channels fragments store_val irq = (self', Ok block) ->
  base_address self' = base_address self /\ skip_strategy self' = skip_strategy self /\
  sentinel_addr self' = sentinel_addr self /\
  blocks self' = blocks self ++ [block] /\
  address block = _next_block_address self /\
  terminal_is_last block /\ 0 < z_value block.
Proof.
  unfold add_data_packet.
  destruct (fdf_for_rate (sample_rate self)) as [e | fdf]; [discriminate |].
  cbn [_alloc_payload].
  destruct (fragments =? 0); [discriminate |].
  destruct (negb _); [discriminate |].
  destruct (fragment_loop _ _ _ _) as [descs current_addr] eqn:Hloop.
  intros [= <- <-]. repeat split.
  - unfold terminal_is_last. rewrite terminal_snoc. eexists. split; reflexivity.
  - apply z_value_pos_of_sum. rewrite sumZ_sizes_snoc. cbn [desc_size].
    assert (0 <= sumZ (map desc_size descs)); [| lia].
    replace descs with (fst (fragment_loop (Z.to_nat (fragments - 1))
      ((8 + samples * channels * 4) / fragments)
      (payload_base self + payload_offset self)
      (match store_val with
       | Some v => [StoreValue 16 v (payload_base self - 4) 0 0 false]
       | None => []
       end ++
       [OutputMoreImmediate 32
          (build_it_header_q0 (speed self) 1 (channel self) 0 0xA)
          (build_it_header_q1 (8 + samples * channels * 4)) 0 0 false])))
      by (cbn [set_dbc set_payload_offset payload_base payload_offset speed channel]
            in Hloop; now rewrite Hloop).
    apply fragment_loop_sizes_nonneg. destruct store_val; cbn; lia.
Qed.

Lemma add_data_packet_error self samples channels fragments store_val irq self' e :
  add_data_packet self samples channels fragments store_val irq = (self', Raise e) ->
  base_address self' = base_address self /\ skip_strategy self' = skip_strategy self /\
  sentinel_addr self' = sentinel_addr self /\ blocks self' = blocks self.
Proof.
  unfold add_data_packet.
  destruct (fdf_for_rate (sample_rate self)) as [e' | fdf];
    [intros [= <- _]; auto |].
  cbn [_alloc_payload].
  destruct (fragments =? 0); [intros [= <- _]; auto |].
  destruct (negb _); [intros [= <- _]; auto |].
  destruct (fragment_loop _ _ _ _). discriminate.
Qed.

Lemma add_nodata_packet_block self channels irq self' block :
  add_nodata_packet self channels irq = (self', Ok block) ->
  base_address self' = base_address self /\ skip_strategy self' = skip_strategy self /\
  sentinel_addr self' = sentinel_addr self /\
  blocks self' = blocks self ++ [block] /\
  address block = _next_block_address self /\
  terminal_is_last block /\ 0 < z_value block.
Proof.
  unfold add_nodata_packet. cbn [_alloc_payload].
  destruct (fdf_for_rate _) as [e | fdf]; [discriminate |].
  intros [= <- <-]. repeat split.
  unfold terminal_is_last. eexists. split; reflexivity.
Qed.

Lemma add_nodata_packet_error self channels irq self' e :
  add_nodata_packet self channels irq = (self', Raise e) ->
  base_address self' = base_address self /\ skip_strategy self' = skip_strategy self /\
  sentinel_addr self' = sentinel_addr self /\ blocks self' = blocks self.
Proof.
  unfold add_nodata_packet. cbn [_alloc_payload].
  destruct (fdf_for_rate _) as [e' | fdf]; [| discriminate].
  intros [= <- _]. auto.
Qed.

Lemma ring_ready_snoc (a : Z) (bs : list DescriptorBlock) (b : DescriptorBlock) :
  ring_ready a bs ->
  address b = match last_block bs with
              | None => a
              | Some l => address l + z_value l * BLOCK_SIZE
              end ->
  terminal_is_last b -> 0 < z_value b ->
  ring_ready a (bs ++ [b]).
Proof.
  intros (Ht & Hz & Hc) Ha Hb Hzb. unfold ring_ready. repeat split.
  - apply Forall_app. split; [assumption | now constructor].
  - apply Forall_app. split; [assumption | now constructor].
  - now apply chained_snoc.
Qed.

(** One packet keeps the builder's parameters and the shape of its ring. *)
Lemma add_packet_ring_ready (self : ITProgramBuilder) (p : packet) :
  ring_ready (base_address self) (blocks self) ->
  base_address (add_packet self p) = base_address self /\
  skip_strategy (add_packet self p) = skip_strategy self /\
  sentinel_addr (add_packet self p) = sentinel_addr self /\
  ring_ready (base_address (add_packet self p)) (blocks (add_packet self p)).
Proof.
  intros Hr. destruct p as [samples channels fragments store_val irq | channels irq];
    cbn [add_packet].
  - destruct (add_data_packet self samples channels fragments store_val irq)
      as [self' [e | block]] eqn:Hcall; cbn [fst].
    + destruct (add_data_packet_error _ _ _ _ _ _ _ _ Hcall) as (Hb & Hs & Hn & Hbl).
      do 3 (split; [assumption |]). now rewrite Hb, Hbl.
    + destruct (add_data_packet_block _ _ _ _ _ _ _ _ Hcall)
        as (Hb & Hs & Hn & Hbl & Ha & Ht & Hz).
      do 3 (split; [assumption |]). rewrite Hb, Hbl.
      now apply ring_ready_snoc.
  - destruct (add_nodata_packet self channels irq) as [self' [e | block]] eqn:Hcall;
      cbn [fst].
    + destruct (add_nodata_packet_error _ _ _ _ _ Hcall) as (Hb & Hs & Hn & Hbl).
      do 3 (split; [assumption |]). now rewrite Hb, Hbl.
    + destruct (add_nodata_packet_block _ _ _ _ _ Hcall)
        as (Hb & Hs & Hn & Hbl & Ha & Ht & Hz).
      do 3 (split; [assumption |]). rewrite Hb, Hbl.
      now apply ring_ready_snoc.
Qed.

Lemma build_ring_ready (ps : list packet) (self : ITProgramBuilder) :
  ring_ready (base_address self) (blocks self) ->
  skip_strategy (build self ps) = skip_strategy self /\
  ring_ready (base_address (build self ps)) (blocks (build self ps)).
Proof.
  revert self. induction ps as [| p ps IH]; intros self Hr; [split; [reflexivity | exact Hr] |].
  cbn [build fold_left]. fold (build (add_packet self p) ps).
  destruct (add_packet_ring_ready self p Hr) as (Hb & Hs & Hn & Hr').
  destruct (IH _ Hr') as [Hs' Hr'']. split; [congruence | assumption].
Qed.

(* ------------------------------------------------------------------ *)
(** ** Looking a block up by its address *)

Lemma chained_lower (a : Z) (bs : list DescriptorBlock) :
  chained a bs -> Forall (fun b => 0 < z_value b) bs ->
  forall b, In b bs -> a <= address b.
Proof.
  revert a. induction bs as [| b0 bs IH]; intros a Hc Hz b Hin; [destruct Hin |].
  destruct Hc as [Ha Hc]. inversion Hz as [| ? ? Hz0 Hz']; subst.
  destruct Hin as [-> | Hin]; [lia |].
  specialize (IH _ Hc Hz' b Hin). unfold BLOCK_SIZE in IH. lia.
Qed.

Lemma find_block_chained (a : Z) (bs : list DescriptorBlock) (j : nat) (b : DescriptorBlock) :
  chained a bs -> Forall (fun b => 0 < z_value b) bs ->
  nth_error bs j = Some b -> find_block (address b) bs = Some j.
Proof.
  revert a j. induction bs as [| b0 bs IH]; intros a j Hc Hz Hn;
    [destruct j; discriminate Hn |].
  destruct Hc as [Ha Hc]. inversion Hz as [| ? ? Hz0 Hz']; subst.
  cbn [find_block]. destruct j as [| j].
  - injection Hn as ->. now rewrite Z.eqb_refl.
  - cbn [nth_error] in Hn.
    pose proof (chained_lower _ _ Hc Hz' b (nth_error_In _ _ Hn)) as Hlow.
    unfold BLOCK_SIZE in Hlow.
    destruct (address b0 =? address b) eqn:He; [apply Z.eqb_eq in He; lia |].
    now rewrite (IH _ j Hc Hz' Hn).
Qed.

Lemma find_block_same_addresses (a : Z) (cur bs : list DescriptorBlock) :
  map address cur = map address bs -> find_block a cur = find_block a bs.
Proof.
  revert bs. induction cur as [| c cur IH]; intros [| b bs] Hm; try discriminate Hm;
    [reflexivity |].
  injection Hm as Hc Hm. cbn [find_block]. now rewrite Hc, (IH bs Hm).
Qed.

(* ------------------------------------------------------------------ *)
(** ** Walking a linked ring *)

Lemma walk_ring (bs : list DescriptorBlock) (N : nat) :
  (forall i, (i < N)%nat -> follow bs i = Some (Nat.modulo (i + 1) N)) ->
  forall m i, (i < N)%nat ->
    walk bs m i = Some (map (fun k => Nat.modulo (i + k) N) (seq 0 (S m))).
Proof.
  intros Hf. induction m as [| m IH]; intros i Hi.
  - cbn. now rewrite Nat.add_0_r, Nat.mod_small.
  - cbn [walk]. rewrite (Hf i Hi).
    assert (Hj : (Nat.modulo (i + 1) N < N)%nat) by (apply Nat.mod_upper_bound; lia).
    rewrite (IH _ Hj).
    f_equal. change (seq 0 (S (S m))) with (0%nat :: seq 1 (S m)).
    cbn [map]. rewrite Nat.add_0_r, (Nat.mod_small i N Hi). f_equal.
    rewrite <- seq_shift, map_map. apply map_ext. intros k.
    rewrite Nat.Div0.add_mod_idemp_l. f_equal. lia.
Qed.

Lemma map_mod_seq (N : nat) :
  map (fun k => Nat.modulo (0 + k) N) (seq 0 (S N)) = seq 0 N ++ [0%nat].
Proof.
  rewrite seq_S, map_app. cbn [map Nat.add]. rewrite Nat.Div0.mod_same. f_equal.
  rewrite <- (map_id (seq 0 N)) at 2. apply map_ext_in.
  intros k Hk. apply in_seq in Hk. apply Nat.mod_small. lia.
Qed.

(** Linking a ring-ready block list gives every terminal descriptor the
    address and Z of the successor block as branch fields. *)
Lemma link_blocks_closes (s : SkipStrategy) (sent a : Z) (bs : list DescriptorBlock) :
  ring_ready a bs -> (1 <= List.length bs)%nat ->
  let N := List.length bs in
  let final := link_blocks s sent bs in
  List.length final = N /\
  (forall i, (i < N)%nat ->
     exists b nb, nth_error final i = Some b /\
                  nth_error final (Nat.modulo (i + 1) N) = Some nb /\
                  terminal_branch b = Some (address nb, z_value nb) /\
                  terminal_branch_pointer b =
                    Some (pack_ptr_with_z (address nb) (z_value nb))).
Proof.
  intros (Ht & Hz & Hc) HN N final.
  destruct (link_blocks_linked s sent bs) as (Ha & Hzv & _ & Hdone).
  fold final in Ha, Hzv, Hdone. fold N in Hdone.
  assert (Hlen : List.length final = N)
    by (rewrite <- (length_map address final), Ha; apply length_map).
  assert (Hlink : forall i, (i < N)%nat ->
            exists b nb, nth_error bs i = Some b /\
                         nth_error bs (Nat.modulo (i + 1) N) = Some nb /\
                         terminal_is_last b /\
                         nth_error final i = Some (link_block s sent b nb)).
  { intros i Hi.
    destruct (nth_error bs i) as [b |] eqn:Hb; [| apply nth_error_None in Hb; lia].
    destruct (Hdone i b Hi Hb) as (nb & Hnb & Hfi).
    exists b, nb. repeat split; try assumption.
    rewrite Forall_forall in Ht. apply Ht. eapply nth_error_In; eassumption. }
  split; [assumption |].
  - intros i Hi. destruct (Hlink i Hi) as (b & nb & Hb & Hnb & Htl & Hfi).
    assert (Hj : (Nat.modulo (i + 1) N < N)%nat) by (apply Nat.mod_upper_bound; lia).
    destruct (nth_error final (Nat.modulo (i + 1) N)) as [nb' |] eqn:Hnb';
      [| apply nth_error_None in Hnb'; lia].
    exists (link_block s sent b nb), nb'. split; [assumption |]. split; [reflexivity |].
    unfold terminal_branch_pointer.
    rewrite (terminal_link_block s sent b nb Htl).
    rewrite (nth_error_same_map bs address final _ nb' nb Ha Hnb' Hnb).
    rewrite (nth_error_same_map bs z_value final _ nb' nb Hzv Hnb' Hnb).
    split; reflexivity.
Qed.

(* ================================================================== *)
(** * Further properties of the codec *)

Ltac mask_ones :=
  change 0x3 with (Z.ones 2) in *;
  change 0x7 with (Z.ones 3) in *;
  change 0xF with (Z.ones 4) in *;
  change 0x3F with (Z.ones 6) in *;
  change 0xFF with (Z.ones 8) in *;
  change 0xFFFF with (Z.ones 16) in *;
  change 0xFFFFFFFF with (Z.ones 32) in *.

Ltac bit_specs :=
  repeat first
    [ rewrite Z.land_spec
    | rewrite Z.lor_spec
    | rewrite Z.shiftr_spec by lia
    | rewrite Z.shiftl_spec by lia
    | rewrite Z.testbit_ones by lia
    | rewrite Z.bits_0 ].

(** A goal [Z.land a (Z.ones wz) = b], bit by bit: the low bits one index
    at a time, the others through the mask. *)
Ltac field_bits w wz :=
  apply Z.bits_inj'; intros ?i ?Hi;
  match goal with
  | Hi : 0 <= ?i |- _ =>
      destruct (Z_lt_le_dec i (Z.of_nat w)) as [Hlt | Hge];
      [ let Hin := fresh "Hin" in
        pose proof (in_range w i (conj Hi Hlt)) as Hin; cbn in Hin;
        repeat (destruct Hin as [<- | Hin]; [bit_specs; cbn; btauto |]);
        destruct Hin
      | cbn in Hge; rewrite !(Z.land_spec _ (Z.ones wz));
        rewrite !(Z.ones_spec_high wz) by lia;
        rewrite ?andb_false_r, ?Z.bits_0;
        try reflexivity ]
  end.

(** X1.  [pack_ptr_with_z] is a 32-bit word whose low nibble is [z]
    modulo 16 and whose upper 28 bits are those of the address; the low
    nibble of the address and the bits of [z] above the fourth are lost. *)
Theorem pack_ptr_with_z_parts (addr z : Z) :
  0 <= pack_ptr_with_z addr z < 2 ^ 32 /\
  Z.land (pack_ptr_with_z addr z) 0xF = z mod 16 /\
  Z.land (pack_ptr_with_z addr z) 0xFFFFFFF0 = Z.land addr 0xFFFFFFF0 /\
  pack_ptr_with_z addr z = Z.land addr 0xFFFFFFF0 + z mod 16.
Proof.
  assert (Hz : Z.land z 0xF = z mod 16)
    by (change 0xF with (Z.ones 4); rewrite Z.land_ones by lia; reflexivity).
  assert (Hdisj : Z.land (Z.land addr 0xFFFFFFF0) (Z.land z 0xF) = 0).
  { rewrite (Z.land_comm z), Z.land_assoc, <- (Z.land_assoc addr).
    change (Z.land 0xFFFFFFF0 0xF) with 0. now rewrite Z.land_0_r, Z.land_0_l. }
  split; [apply pack_ptr_with_z_range |].
  unfold pack_ptr_with_z. repeat split.
  - rewrite Z.land_lor_distr_l, <- !Z.land_assoc.
    change (Z.land 0xFFFFFFF0 0xF) with 0. change (Z.land 0xF 0xF) with 0xF.
    now rewrite Z.land_0_r, Z.lor_0_l.
  - rewrite Z.land_lor_distr_l, <- !Z.land_assoc.
    change (Z.land 0xFFFFFFF0 0xFFFFFFF0) with 0xFFFFFFF0.
    change (Z.land 0xF 0xFFFFFFF0) with 0.
    now rewrite Z.land_0_r, Z.lor_0_r.
  - rewrite <- Hz, <- Z.lxor_lor, <- Z.add_nocarry_lxor by assumption. reflexivity.
Qed.

(** X2.  [make_control] truncates every argument to the width of its field:
    whatever integers it is given, the result fits in 16 bits, each field
    read back is the argument modulo its width, and bits 7:6 are zero. *)
Theorem make_control_masks (cmd : Z) (s : bool) (key irq branch wait : Z) :
  let h := make_control cmd s key irq branch wait in
  0 <= h < 65536 /\
  Z.land (Z.shiftr h 12) 0xF = Z.land cmd 0xF /\
  Z.land (Z.shiftr h 11) 0x1 = (if s then 1 else 0) /\
  Z.land (Z.shiftr h 8) 0x7 = Z.land key 0x7 /\
  Z.land (Z.shiftr h 6) 0x3 = 0 /\
  Z.land (Z.shiftr h 4) 0x3 = Z.land irq 0x3 /\
  Z.land (Z.shiftr h 2) 0x3 = Z.land branch 0x3 /\
  Z.land h 0x3 = Z.land wait 0x3.
Proof.
  cbv zeta. split; [apply make_control_range |].
  unfold make_control.
  destruct s; cbv iota;
    change (Z.land 1 0x1) with 1; change (Z.land 0 0x1) with 0;
    change 0x1 with (Z.ones 1); mask_ones.
  all: split; [field_bits 4%nat 4 |].
  all: split; [field_bits 1%nat 1 |].
  all: split; [field_bits 3%nat 3 |].
  all: split; [field_bits 2%nat 2 |].
  all: split; [field_bits 2%nat 2 |].
  all: split; [field_bits 2%nat 2 | field_bits 2%nat 2].
Qed.

Lemma build_roundtrip_all_true : build_roundtrip_all = true.
Proof. vm_compute. reflexivity. Qed.

Lemma build_roundtrip cmd key i b ping :
  0 <= cmd < 16 -> 0 <= key < 8 -> 0 <= i < 4 -> 0 <= b < 4 ->
  build_roundtrip_at cmd key i b ping = true.
Proof.
  intros Hc Hk Hi Hb.
  pose proof build_roundtrip_all_true as H. unfold build_roundtrip_all in H.
  rewrite forallb_forall in H. specialize (H cmd (in_range 16 cmd Hc)).
  rewrite forallb_forall in H. specialize (H key (in_range 8 key Hk)).
  rewrite forallb_forall in H. specialize (H i (in_range 4 i Hi)).
  rewrite forallb_forall in H. specialize (H b (in_range 4 b Hb)).
  rewrite forallb_forall in H. apply H. destruct ping; simpl; auto.
Qed.

(** [build_control_word] puts the masked request count under a high half
    that does not depend on it. *)
Lemma build_control_word_split rc cmd key i b ping :
  build_control_word rc cmd key i b ping =
  control_word rc (Z.shiftr (build_control_word 0 cmd key i b ping) 16).
Proof.
  unfold build_control_word, control_word. cbv zeta.
  set (high := Z.lor _ (if ping then _ else _)).
  change (Z.land 0 0xFFFF) with 0. rewrite Z.lor_0_r.
  rewrite Z.shiftr_shiftl_l by lia. change (16 - 16) with 0. rewrite Z.shiftl_0_r.
  rewrite <- Z.land_assoc. change (Z.land 0xFFFF 0xFFFF) with 0xFFFF.
  apply Z.lor_comm.
Qed.

Lemma build_control_word_high_range cmd key i b ping :
  0 <= Z.shiftr (build_control_word 0 cmd key i b ping) 16 < 65536.
Proof.
  unfold build_control_word. cbv zeta.
  change (Z.land 0 0xFFFF) with 0. rewrite Z.lor_0_r.
  rewrite Z.shiftr_shiftl_l by lia. change (16 - 16) with 0. rewrite Z.shiftl_0_r.
  change 0xFFFF with (Z.ones 16). change 65536 with (2 ^ 16).
  apply land_ones_range. lia.
Qed.

(** X3.  [decode_control_word] inverts [build_control_word]: for a 4-bit
    cmd, 3-bit key, 2-bit i and b, a 16-bit reqCount and either ping flag,
    decoding the built word returns those fields, the ping bit, and a zero
    wait field. *)
Theorem decode_build_control_word (rc cmd key i b : Z) (ping : bool)
        (Hrc : 0 <= rc < 65536) (Hc : 0 <= cmd < 16) (Hk : 0 <= key < 8)
        (Hi : 0 <= i < 4) (Hb : 0 <= b < 4) :
  let d := decode_control_word (build_control_word rc cmd key i b ping) in
  d_reqCount d = rc /\ d_cmd d = cmd /\ d_key d = key /\ d_i d = i /\ d_b d = b /\
  d_ping d = (if ping then 1 else 0) /\ d_wait d = 0.
Proof.
  cbv zeta.
  pose proof (build_roundtrip cmd key i b ping Hc Hk Hi Hb) as H.
  unfold build_roundtrip_at in H.
  repeat (apply andb_prop in H; destruct H as [H ?]).
  repeat match goal with
         | E : (_ =? _) = true |- _ => apply Z.eqb_eq in E
         end.
  pose proof (build_control_word_high_range cmd key i b ping) as Hrange.
  assert (Hhigh : Z.land (Z.shiftr (build_control_word rc cmd key i b ping) 16) 0xFFFF =
                  Z.land (Z.shiftr (build_control_word 0 cmd key i b ping) 16) 0xFFFF).
  { rewrite (build_control_word_split rc).
    rewrite control_word_high by exact Hrange.
    symmetry. change 0xFFFF with (Z.ones 16).
    apply land_ones_small; [lia | exact Hrange]. }
  split.
  { rewrite build_control_word_split. unfold decode_control_word. cbn [d_reqCount].
    now apply control_word_low. }
  unfold decode_control_word in *.
  cbn [d_cmd d_key d_i d_b d_ping d_wait d_high] in *.
  rewrite Hhigh. repeat split; assumption.
Qed.

(** The reference word of [test_apple_reference]. *)
Lemma decode_build_control_word_witness :
  build_control_word 12 1 2 3 3 false = 0x123C000C /\
  decoded_fields (decode_control_word (build_control_word 12 1 2 3 3 false)) =
    (12, 1, 2, 0, 3, 3, 0).
Proof.
  split; [reflexivity |].
  pose proof (decode_build_control_word 12 1 2 3 3 false
                ltac:(lia) ltac:(lia) ltac:(lia) ltac:(lia) ltac:(lia)) as H.
  cbv zeta in H. destruct H as (H1 & H2 & H3 & H4 & H5 & H6 & H7).
  unfold decoded_fields. rewrite H1, H2, H3, H4, H5, H6, H7. reflexivity.
Defined.

(** X4.  The two encoders agree: without ping, [build_control_word] is the
    descriptor's first word with the control field [make_control] builds
    for the same cmd, key, interrupt and branch (status-write clear, wait
    zero), for all integer arguments. *)
Theorem build_control_word_make_control (rc cmd key i b : Z) :
  build_control_word rc cmd key i b false =
  control_word rc (make_control cmd false key i b ITWait.NEVER).
Proof.
  unfold build_control_word, control_word, make_control, ITWait.NEVER. cbv zeta.
  change (Z.shiftl (Z.land 0 0x1) 11) with 0.
  change (Z.land 0 0x3) with 0.
  rewrite !Z.lor_0_r.
  rewrite <- (Z.land_assoc _ 0xFFFF 0xFFFF).
  change (Z.land 0xFFFF 0xFFFF) with 0xFFFF.
  rewrite Z.lor_comm. do 3 f_equal.
  now rewrite !Z.lor_assoc.
Qed.

(** The fields of the IT header quadlets, read back. *)
Lemma build_it_header_fields (speed tag channel sy tcode data_length_bytes : Z) :
  let q0 := build_it_header_q0 speed tag channel sy tcode in
  let q1 := build_it_header_q1 data_length_bytes in
  Z.land (Z.shiftr q0 16) 0x7 = Z.land speed 0x7 /\
  Z.land (Z.shiftr q0 14) 0x3 = Z.land tag 0x3 /\
  Z.land (Z.shiftr q0 8) 0x3F = Z.land channel 0x3F /\
  Z.land (Z.shiftr q0 4) 0xF = Z.land tcode 0xF /\
  Z.land q0 0xF = Z.land sy 0xF /\
  Z.land (Z.shiftr q1 16) 0xFFFF = data_length_bytes mod 65536 /\
  Z.land q1 0xFFFF = 0 /\
  0 <= q0 < 2 ^ 32 /\ 0 <= q1 < 2 ^ 32.
Proof.
  cbv zeta.
  assert (Hr : forall x, 0 <= Z.land x 0xFFFFFFFF < 2 ^ 32)
    by (intros x; apply land_mask_range; [lia | change (2 ^ 32) with 4294967296; lia]).
  rewrite <- (land_ffff_mod data_length_bytes).
  unfold build_it_header_q0, build_it_header_q1.
  repeat split; try apply Hr; mask_ones.
  - field_bits 3%nat 3.
  - field_bits 2%nat 2.
  - field_bits 6%nat 6.
  - field_bits 4%nat 4.
  - field_bits 4%nat 4.
  - field_bits 16%nat 16.
  - field_bits 16%nat 16.
Qed.

(** X5.  The IT header quadlets hold their fields where
    [build_it_header_q0] and [build_it_header_q1] shift them: speed in bits
    18:16, tag in 15:14, channel in 13:8, tcode in 7:4, sy in 3:0, the data
    length in the upper half of the second quadlet; each field is the
    argument truncated to its width, and both quadlets fit in 32 bits. *)
Theorem it_header_fields (speed tag channel sy tcode data_length_bytes : Z) :
  let q0 := build_it_header_q0 speed tag channel sy tcode in
  let q1 := build_it_header_q1 data_length_bytes in
  Z.land (Z.shiftr q0 16) 0x7 = Z.land speed 0x7 /\
  Z.land (Z.shiftr q0 14) 0x3 = Z.land tag 0x3 /\
  Z.land (Z.shiftr q0 8) 0x3F = Z.land channel 0x3F /\
  Z.land (Z.shiftr q0 4) 0xF = Z.land tcode 0xF /\
  Z.land q0 0xF = Z.land sy 0xF /\
  Z.land (Z.shiftr q1 16) 0xFFFF = data_length_bytes mod 65536 /\
  Z.land q1 0xFFFF = 0 /\
  0 <= q0 < 2 ^ 32 /\ 0 <= q1 < 2 ^ 32.
Proof. exact (build_it_header_fields speed tag channel sy tcode data_length_bytes). Qed.

(** X6.  The CIP quadlets hold their fields where [build_cip_q0] and
    [build_cip_q1] shift them: the first quadlet starts with bits 00 and
    carries SID, DBS, FN, QPC, SPH, two reserved zero bits and DBC in its
    low byte; the second starts with bits 10 and carries FMT, FDF and SYT. *)
Theorem cip_header_fields (sid dbs dbc fn qpc sph fmt fdf syt : Z) :
  let q0 := build_cip_q0 sid dbs dbc fn qpc sph in
  let q1 := build_cip_q1 fmt fdf syt in
  Z.land (Z.shiftr q0 30) 0x3 = 0 /\
  Z.land (Z.shiftr q0 24) 0x3F = Z.land sid 0x3F /\
  Z.land (Z.shiftr q0 16) 0xFF = Z.land dbs 0xFF /\
  Z.land (Z.shiftr q0 14) 0x3 = Z.land fn 0x3 /\
  Z.land (Z.shiftr q0 11) 0x7 = Z.land qpc 0x7 /\
  Z.land (Z.shiftr q0 10) 0x1 = Z.land sph 0x1 /\
  Z.land (Z.shiftr q0 8) 0x3 = 0 /\
  Z.land q0 0xFF = Z.land dbc 0xFF /\
  Z.land (Z.shiftr q1 30) 0x3 = 2 /\
  Z.land (Z.shiftr q1 24) 0x3F = Z.land fmt 0x3F /\
  Z.land (Z.shiftr q1 16) 0xFF = Z.land fdf 0xFF /\
  Z.land q1 0xFFFF = Z.land syt 0xFFFF.
Proof.
  cbv zeta. unfold build_cip_q0, build_cip_q1.
  change 0x1 with (Z.ones 1).
  change (Z.shiftl (Z.land 0 0x3) 30) with 0.
  change (Z.shiftl (Z.land 0 0x3) 8) with 0.
  change (Z.shiftl (Z.land 2 0x3) 30) with 2147483648.
  rewrite !Z.lor_0_l, !Z.lor_0_r. mask_ones.
  split; [field_bits 2%nat 2 |]. split; [field_bits 6%nat 6 |].
  split; [field_bits 8%nat 8 |]. split; [field_bits 2%nat 2 |].
  split; [field_bits 3%nat 3 |]. split; [field_bits 1%nat 1 |].
  split; [field_bits 2%nat 2 |]. split; [field_bits 8%nat 8 |].
  split.
  { field_bits 2%nat 2. symmetry.
    apply (testbit_small_high 2); [lia | change (2 ^ 2) with 4; lia | lia]. }
  split; [field_bits 6%nat 6 |].
  split; [field_bits 8%nat 8 | field_bits 16%nat 16].
Qed.

(* ------------------------------------------------------------------ *)
(** ** Reading packed bytes back *)

Lemma from_le_le_bytes (n : nat) (x : Z) :
  from_le (le_bytes n x) = x mod 2 ^ (8 * Z.of_nat n).
Proof.
  revert x. induction n as [| n IH]; intros x.
  - cbn. now rewrite Z.mod_1_r.
  - cbn [le_bytes from_le]. rewrite IH.
    replace (2 ^ (8 * Z.of_nat (S n))) with (256 * 2 ^ (8 * Z.of_nat n)).
    + rewrite Z.rem_mul_r by (try apply Z.pow_pos_nonneg; lia). reflexivity.
    + replace (8 * Z.of_nat (S n)) with (8 + 8 * Z.of_nat n) by lia.
      rewrite Z.pow_add_r by lia. reflexivity.
Qed.

Lemma from_be_be_bytes (n : nat) (x : Z) :
  from_be (be_bytes n x) = x mod 2 ^ (8 * Z.of_nat n).
Proof.
  unfold from_be, be_bytes. rewrite rev_involutive. apply from_le_le_bytes.
Qed.

Lemma land_ffffffff_mod (x : Z) : Z.land x 0xFFFFFFFF = x mod 2 ^ 32.
Proof. change 0xFFFFFFFF with (Z.ones 32). now rewrite Z.land_ones by lia. Qed.

Lemma pack_be_mask32 (x : Z) :
  pack_be 4 (Z.land x 0xFFFFFFFF) = Ok (be_bytes 4 (Z.land x 0xFFFFFFFF)).
Proof.
  unfold pack_be.
  assert (H : 0 <= Z.land x 0xFFFFFFFF < 2 ^ (8 * Z.of_nat 4)).
  { change (2 ^ (8 * Z.of_nat 4)) with (2 ^ 32).
    apply land_mask_range; [lia | change (2 ^ 32) with 4294967296; lia]. }
  destruct H as [H0 H1]. apply Z.leb_le in H0. apply Z.ltb_lt in H1.
  now rewrite H0, H1.
Qed.

Lemma le_bytes_4_slices (x : Z) (rest : bytes) :
  firstn 4 (le_bytes 4 x ++ rest) = le_bytes 4 x /\
  skipn 4 (le_bytes 4 x ++ rest) = rest.
Proof. split; reflexivity. Qed.

Lemma be_bytes_4_slices (x : Z) (rest : bytes) :
  firstn 4 (be_bytes 4 x ++ rest) = be_bytes 4 x /\
  skipn 4 (be_bytes 4 x ++ rest) = rest.
Proof. split; reflexivity. Qed.

(** X7.  [pack_cip_payload] always returns [8 + len(audio)] bytes: the two
    CIP quadlets, each reduced modulo 2^32, most significant byte first,
    followed by the audio bytes unchanged. *)
Theorem pack_cip_payload_layout (cip_q0 cip_q1 : Z) (audio_bytes : bytes) :
  exists bs,
    pack_cip_payload cip_q0 cip_q1 audio_bytes = Ok bs /\
    List.length bs = (8 + List.length audio_bytes)%nat /\
    from_be (slice bs 0 4) = cip_q0 mod 2 ^ 32 /\
    from_be (slice bs 4 4) = cip_q1 mod 2 ^ 32 /\
    skipn 8 bs = audio_bytes.
Proof.
  exists (be_bytes 4 (Z.land cip_q0 0xFFFFFFFF) ++
          be_bytes 4 (Z.land cip_q1 0xFFFFFFFF) ++ audio_bytes).
  split.
  { unfold pack_cip_payload. rewrite !pack_be_mask32. cbn [bind Ok].
    destruct audio_bytes; [now rewrite app_nil_r | now rewrite <- app_assoc]. }
  assert (Hmod : forall x, (x mod 2 ^ 32) mod 2 ^ (8 * Z.of_nat 4) = x mod 2 ^ 32)
    by (intros x; change (2 ^ (8 * Z.of_nat 4)) with (2 ^ 32); apply Z.mod_mod; lia).
  split; [reflexivity |]. unfold slice.
  split; [| split].
  - change (skipn 0 ?l) with l.
    rewrite (proj1 (be_bytes_4_slices _ _)), from_be_be_bytes, land_ffffffff_mod.
    apply Hmod.
  - rewrite (proj2 (be_bytes_4_slices _ _)).
    rewrite (proj1 (be_bytes_4_slices _ _)), from_be_be_bytes, land_ffffffff_mod.
    apply Hmod.
  - reflexivity.
Qed.

(** X8.  [pack_it_immediate16] always returns 16 bytes: the two quadlets,
    each reduced modulo 2^32, least significant byte first, and eight zero
    bytes. *)
Theorem pack_it_immediate16_layout (it_q0 it_q1 : Z) :
  exists bs,
    pack_it_immediate16 it_q0 it_q1 = Ok bs /\
    List.length bs = 16%nat /\
    from_le (slice bs 0 4) = it_q0 mod 2 ^ 32 /\
    from_le (slice bs 4 4) = it_q1 mod 2 ^ 32 /\
    slice bs 8 8 = zeros 8.
Proof.
  exists ((le_bytes 4 (Z.land it_q0 0xFFFFFFFF) ++
           le_bytes 4 (Z.land it_q1 0xFFFFFFFF)) ++ zeros 8).
  split.
  { unfold pack_it_immediate16. rewrite !pack_le_mask32. reflexivity. }
  assert (Hmod : forall x, (x mod 2 ^ 32) mod 2 ^ (8 * Z.of_nat 4) = x mod 2 ^ 32)
    by (intros x; change (2 ^ (8 * Z.of_nat 4)) with (2 ^ 32); apply Z.mod_mod; lia).
  split; [reflexivity |]. unfold slice. rewrite <- app_assoc.
  split; [| split].
  - change (skipn 0 ?l) with l.
    rewrite (proj1 (le_bytes_4_slices _ _)), from_le_le_bytes, land_ffffffff_mod.
    apply Hmod.
  - rewrite (proj2 (le_bytes_4_slices _ _)).
    rewrite (proj1 (le_bytes_4_slices _ _)), from_le_le_bytes, land_ffffffff_mod.
    apply Hmod.
  - reflexivity.
Qed.

(* ================================================================== *)
(** * Further properties of the log analyser *)

Lemma truthy_false (o : option Z) :
  truthy o = false <-> o = None \/ o = Some 0.
Proof.
  destruct o as [v |]; cbn.
  - rewrite negb_false_iff, Z.eqb_eq. split.
    + intros ->. now right.
    + intros [H | H]; [discriminate | now injection H].
  - split; auto.
Qed.

(** X9.  The deep diagnosis is skipped exactly when the command pointer or
    the base address is missing or zero: a pointer or base equal to 0 counts
    as absent. *)
Theorem deep_diagnosis_skipped (cmd_ptr base_address : option Z) (descriptors : DescDict) :
  deep_diagnosis cmd_ptr base_address descriptors = [CannotDiagnose] <->
  (cmd_ptr = None \/ cmd_ptr = Some 0 \/ base_address = None \/ base_address = Some 0).
Proof.
  unfold deep_diagnosis. split.
  - intros H.
    destruct (truthy cmd_ptr) eqn:Hc; [| apply truthy_false in Hc; tauto].
    destruct (truthy base_address) eqn:Hb; [| apply truthy_false in Hb; tauto].
    cbn [andb] in H.
    destruct cmd_ptr as [cp |]; [| discriminate Hc].
    destruct base_address as [ba |]; [| discriminate Hb].
    cbv zeta in H.
    destruct (_ <? 0); [discriminate H |].
    destruct (negb _); discriminate H.
  - intros H.
    assert (Hf : truthy cmd_ptr && truthy base_address = false).
    { apply andb_false_iff.
      destruct H as [H | [H | [H | H]]]; subst; cbn; auto;
        right; reflexivity. }
    now rewrite Hf.
Qed.

Lemma land_fffffff0_mod16 (x : Z) : Z.land x 0xFFFFFFF0 mod 16 = 0.
Proof.
  change 16 with (2 ^ 4). rewrite <- Z.land_ones by lia.
  rewrite <- Z.land_assoc. change (Z.land 0xFFFFFFF0 (Z.ones 4)) with 0.
  apply Z.land_0_r.
Qed.

(** X10.  With a non-zero pointer and base, and the pointer's address not
    below the base: when the base is a multiple of 16 the diagnosis names
    the descriptor index [(pointer & 0xFFFFFFF0 - base) / 16], which is
    exact, and raises no alignment warning; when the base is not a multiple
    of 16 the only line is the alignment warning.  The alignment test
    depends on the base alone, the pointer's low four bits being masked
    first. *)
Theorem deep_diagnosis_index (cmd_ptr base_address : Z) (descriptors : DescDict)
        (Hc : cmd_ptr <> 0) (Hb : base_address <> 0)
        (Hle : base_address <= Z.land cmd_ptr 0xFFFFFFF0) :
  let offset := Z.land cmd_ptr 0xFFFFFFF0 - base_address in
  (base_address mod 16 = 0 ->
   exists rest,
     deep_diagnosis (Some cmd_ptr) (Some base_address) descriptors =
       FailureAtIndex (offset / 16) :: rest /\
     base_address + 16 * (offset / 16) = Z.land cmd_ptr 0xFFFFFFF0 /\
     forall off, ~ In (IllegalAlignment off) rest) /\
  (base_address mod 16 <> 0 ->
   deep_diagnosis (Some cmd_ptr) (Some base_address) descriptors =
     [IllegalAlignment offset]).
Proof.
  cbv zeta. unfold deep_diagnosis. cbn [truthy].
  apply Z.eqb_neq in Hc, Hb. rewrite Hc, Hb. cbn [negb andb].
  pose proof (land_fffffff0_mod16 cmd_ptr) as Hm.
  set (a := Z.land cmd_ptr 0xFFFFFFF0) in *.
  assert (Hoff : (a - base_address <? 0) = false) by (apply Z.ltb_ge; lia).
  rewrite Hoff.
  assert (Hmod : (a - base_address) mod 16 = 0 <-> base_address mod 16 = 0).
  { apply Z.mod_divide in Hm; [| lia]. destruct Hm as [k0 Hk0].
    rewrite !Z.mod_divide by lia. split; intros [k Hk].
    - exists (k0 - k). lia.
    - exists (k0 - k). lia. }
  split.
  - intros Hal. apply Hmod in Hal. pose proof Hal as Hal'.
    apply Z.eqb_eq in Hal'. rewrite Hal'. cbn [negb].
    eexists. split; [reflexivity |]. split.
    + pose proof (Z.div_mod (a - base_address) 16 ltac:(lia)). lia.
    + intros off Hin. apply in_app_or in Hin. destruct Hin as [Hin | Hin].
      * destruct (dict_get descriptors _) as [[[p_ctl ?] ?] |]; [| destruct Hin].
        destruct (_ =? 2); [| destruct Hin].
        destruct Hin as [Hin | []]; discriminate Hin.
      * destruct (dict_get descriptors _) as [[[d_val d_dat] d_br] |].
        -- unfold describe_desc in Hin. cbv zeta in Hin.
           apply in_app_or in Hin. destruct Hin as [Hin | Hin].
           ++ destruct Hin as [Hin | [Hin | []]]; discriminate Hin.
           ++ repeat match type of Hin with
                     | In _ (if ?c then _ else _) => destruct c
                     | In _ (_ :: _) => destruct Hin as [Hin | Hin]; [discriminate Hin |]
                     | In _ [] => destruct Hin
                     end.
        -- destruct Hin as [Hin | []]; discriminate Hin.
  - intros Hal.
    assert (Hne : ((a - base_address) mod 16 =? 0) = false)
      by (apply Z.eqb_neq; intros H; apply Hmod in H; contradiction).
    rewrite Hne. reflexivity.
Qed.

(** The pointer 0x80000033 against the base 0x80000000 and the sample dump. *)
Lemma deep_diagnosis_index_witness :
  exists rest,
    deep_diagnosis (Some 0x80000033) (Some 0x80000000) sample_dump =
      FailureAtIndex 3 :: rest.
Proof.
  destruct (proj1 (deep_diagnosis_index 0x80000033 0x80000000 sample_dump
                     ltac:(discriminate) ltac:(discriminate) ltac:(discriminate))
                  eq_refl) as (rest & Hd & _ & _).
  exists rest. exact Hd.
Defined.

Lemma control_word_decode (rc c : Z) :
  Z.land (control_word rc c) 0xFFFF = rc mod 65536 /\
  Z.land (Z.shiftr (control_word rc c) 16) 0xFFFF = c mod 65536.
Proof.
  assert (Hsame : control_word rc c = control_word (rc mod 65536) (c mod 65536)).
  { unfold control_word. rewrite !land_ffff_mod, !Z.mod_mod by lia. reflexivity. }
  rewrite Hsame. split.
  - apply control_word_low. apply Z.mod_pos_bound. lia.
  - apply control_word_high. apply Z.mod_pos_bound. lia.
Qed.

Lemma control_word_u32 (rc c : Z) : control_word rc c mod 2 ^ 32 = control_word rc c.
Proof. apply Z.mod_small. apply first_word_range. Qed.

Lemma describe_desc_control_word (rc c d_dat d_br : Z) :
  0 <= c < 65536 ->
  exists rest,
    describe_desc (control_word rc c) d_dat d_br =
    DescriptorContent (control_word rc c) d_dat d_br ::
    TypeLine (desc_name (Z.land (Z.shiftr c 12) 0xF) (Z.land (Z.shiftr c 8) 0x7))
             (rc mod 65536) :: rest.
Proof.
  intros Hc. unfold describe_desc. cbv zeta.
  destruct (control_word_decode rc c) as [Hlo Hhi].
  rewrite Hlo, Hhi, (Z.mod_small c) by assumption.
  eexists. reflexivity.
Qed.

(** The first word of the four packings. *)
Lemma first_word_pack_desc16 rc c da br rs ts :
  exists bs, pack_desc16 rc c da br rs ts = Ok bs /\ first_word bs = control_word rc c.
Proof.
  destruct (pack_desc16_first_word rc c da br rs ts) as (bs & Hb & Hs).
  exists bs. split; [assumption |].
  unfold first_word. rewrite Hs, from_le_le_bytes.
  change (2 ^ (8 * Z.of_nat 4)) with (2 ^ 32). apply control_word_u32.
Qed.

Lemma first_word_immediate (c ptr q0 q1 : Z) :
  first_word ((le_bytes 4 (control_word 8 c) ++ le_bytes 4 ptr ++
               le_bytes 4 q0 ++ le_bytes 4 q1) ++ zeros 16) = control_word 8 c.
Proof.
  unfold first_word, slice. rewrite <- app_assoc.
  change (skipn 0 ?l) with l.
  rewrite (proj1 (le_bytes_4_slices _ _)), from_le_le_bytes.
  change (2 ^ (8 * Z.of_nat 4)) with (2 ^ 32). apply control_word_u32.
Qed.

Lemma to_bytes_first_word (d : ITDescriptor) :
  exists bs c,
    to_bytes d = Ok bs /\ 0 <= c < 65536 /\
    first_word bs = control_word (encoded_req_count d) c /\
    desc_name (Z.land (Z.shiftr c 12) 0xF) (Z.land (Z.shiftr c 8) 0x7) = class_name d.
Proof.
  destruct d as [sz v sa ka kz irq | sz q0 q1 sa sz' irq | sz q0 q1 ba bz ws irq
                | sz rc da | sz rc da ba bz ws irq | sz ba bz irq];
    cbn [to_bytes encoded_req_count class_name].
  - set (c := make_control ITCmd.STORE_VALUE false ITKey.STORE (irq_of irq)
                           ITBranch.NEVER ITWait.NEVER).
    destruct (first_word_pack_desc16 (Z.land v 0xFFFF) c sa (pack_ptr_with_z ka kz) 0 0)
      as (bs & Hb & Hw).
    exists bs, c. split; [exact Hb |]. split; [apply make_control_range |].
    split; [| subst c; destruct irq; reflexivity].
    rewrite Hw. unfold control_word. now rewrite !land_ffff_mod, !Z.mod_mod by lia.
  - set (c := make_control ITCmd.OUTPUT_MORE false ITKey.IMMEDIATE (irq_of irq)
                           ITBranch.NEVER ITWait.NEVER).
    rewrite pack_IIII_ok by
      first [apply pack_le_first_word | apply pack_le_pointer | apply pack_le_mask32].
    cbn [bind Ok]. eexists. exists c. split; [reflexivity |].
    split; [apply make_control_range |]. split; [| subst c; destruct irq; reflexivity].
    apply first_word_immediate.
  - set (c := make_control ITCmd.OUTPUT_LAST ws ITKey.IMMEDIATE (irq_of irq)
                           ITBranch.ALWAYS ITWait.NEVER).
    rewrite pack_IIII_ok by
      first [apply pack_le_first_word | apply pack_le_pointer | apply pack_le_mask32].
    cbn [bind Ok]. eexists. exists c. split; [reflexivity |].
    split; [apply make_control_range |].
    split; [| subst c; destruct ws, irq; reflexivity].
    apply first_word_immediate.
  - set (c := make_control ITCmd.OUTPUT_MORE false ITKey.STANDARD ITIrq.NONE
                           ITBranch.NEVER ITWait.NEVER).
    destruct (first_word_pack_desc16 rc c da 0 0 0) as (bs & Hb & Hw).
    exists bs, c. split; [exact Hb |]. split; [apply make_control_range |].
    split; [| reflexivity].
    rewrite Hw. unfold control_word. now rewrite !land_ffff_mod, !Z.mod_mod by lia.
  - set (c := make_control ITCmd.OUTPUT_LAST ws ITKey.STANDARD (irq_of irq)
                           ITBranch.ALWAYS ITWait.NEVER).
    destruct (first_word_pack_desc16 rc c da (pack_ptr_with_z ba bz) 0 0)
      as (bs & Hb & Hw).
    exists bs, c. split; [exact Hb |]. split; [apply make_control_range |].
    split; [| subst c; destruct ws, irq; reflexivity].
    rewrite Hw. unfold control_word. now rewrite !land_ffff_mod, !Z.mod_mod by lia.
  - set (c := make_control ITCmd.OUTPUT_LAST true ITKey.STANDARD (irq_of irq)
                           ITBranch.ALWAYS ITWait.NEVER).
    destruct (first_word_pack_desc16 0 c 0 (pack_ptr_with_z ba bz) 0 0)
      as (bs & Hb & Hw).
    exists bs, c. split; [exact Hb |]. split; [apply make_control_range |].
    split; [exact Hw | subst c; destruct irq; reflexivity].
Qed.

(** X11.  What the encoder writes the analyser reads back: given the first
    word of any encoded descriptor, the analyser's type line names the
    descriptor's class (OUTPUT_MORE, OUTPUT_MORE-Immediate, OUTPUT_LAST,
    OUTPUT_LAST-Immediate or STORE_VALUE, never UNKNOWN) and reports the
    request count the encoder wrote. *)
Theorem analyser_names_encoded_descriptor (d : ITDescriptor) (d_dat d_br : Z) :
  exists bs rest,
    to_bytes d = Ok bs /\
    describe_desc (first_word bs) d_dat d_br =
      DescriptorContent (first_word bs) d_dat d_br ::
      TypeLine (class_name d) (encoded_req_count d) :: rest /\
    class_name d <> "UNKNOWN"%string.
Proof.
  destruct (to_bytes_first_word d) as (bs & c & Hb & Hc & Hw & Hn).
  destruct (describe_desc_control_word (encoded_req_count d) c d_dat d_br Hc)
    as (rest & Hd).
  exists bs, rest. split; [exact Hb |]. split.
  - rewrite Hw, Hd, Hn. do 2 f_equal. f_equal.
    destruct d; cbn [encoded_req_count]; try reflexivity; apply Z.mod_mod; lia.
  - destruct d; discriminate.
Qed.

Lemma describe_desc_no_note d_val d_dat d_br k :
  ~ In (SecondHalfNote k) (describe_desc d_val d_dat d_br).
Proof.
  unfold describe_desc. cbv zeta. intros Hin.
  apply in_app_or in Hin. destruct Hin as [Hin | Hin].
  - destruct Hin as [Hin | [Hin | []]]; discriminate Hin.
  - repeat match type of Hin with
           | In _ (if ?c then _ else _) => destruct c
           | In _ (_ :: _) => destruct Hin as [Hin | Hin]; [discriminate Hin |]
           | In _ [] => destruct Hin
           end.
Qed.

(** X12.  The second-half note is decided by bits 10:8 of the preceding
    descriptor's logged word, which belong to its request count: when the
    dump holds, for the preceding index, the first word of an encoded
    Immediate-keyed descriptor (request count 8), the note is not
    emitted. *)
Theorem no_second_half_note_for_encoded_immediate
        (d : ITDescriptor) (bs : bytes) (cmd_ptr base_address p_dat p_br : Z)
        (descriptors : DescDict)
        (Himm : is_immediate d = true) (Hbs : to_bytes d = Ok bs)
        (Hprev : dict_get descriptors
                          ((Z.land cmd_ptr 0xFFFFFFF0 - base_address) / 16 - 1) =
                 Some (first_word bs, p_dat, p_br)) :
  Z.land (Z.shiftr (first_word bs) 8) 0x7 = 0 /\
  forall k, ~ In (SecondHalfNote k)
                 (deep_diagnosis (Some cmd_ptr) (Some base_address) descriptors).
Proof.
  assert (Hkey : Z.land (Z.shiftr (first_word bs) 8) 0x7 = 0).
  { destruct (to_bytes_first_word d) as (bs' & c & Hb & Hc & Hw & _).
    rewrite Hbs in Hb. injection Hb as <-. rewrite Hw.
    destruct d; try discriminate Himm; cbn [encoded_req_count];
      unfold control_word; change (Z.land 8 0xFFFF) with 8; mask_ones;
      field_bits 3%nat 3. }
  split; [exact Hkey |].
  intros k Hin. unfold deep_diagnosis in Hin.
  destruct (truthy (Some cmd_ptr) && truthy (Some base_address));
    [| destruct Hin as [Hin | []]; discriminate Hin].
  cbv zeta in Hin.
  set (offset := Z.land cmd_ptr 0xFFFFFFF0 - base_address) in *.
  destruct (offset <? 0); [destruct Hin as [Hin | []]; discriminate Hin |].
  destruct (negb (offset mod 16 =? 0));
    [destruct Hin as [Hin | []]; discriminate Hin |].
  cbn [app] in Hin.
  destruct Hin as [Hin | Hin]; [discriminate Hin |].
  apply in_app_or in Hin. destruct Hin as [Hin | Hin].
  - rewrite Hprev, Hkey in Hin. destruct Hin.
  - destruct (dict_get descriptors (offset / 16)) as [[[d_val d_dat] d_br] |].
    + now apply describe_desc_no_note in Hin.
    + destruct Hin as [Hin | []]; discriminate Hin.
Qed.

(** Index 2 of the sample dump follows an encoded OUTPUT_MORE-Immediate. *)
Lemma no_second_half_note_witness :
  ~ In (SecondHalfNote 1)
       (deep_diagnosis (Some 0x80000023) (Some 0x80000000) sample_dump).
Proof.
  exact (proj2 (no_second_half_note_for_encoded_immediate
                  (OutputMoreImmediate 32 0 0 0x80000030 3 false)
                  [0x08; 0x00; 0x00; 0x02; 0x33; 0x00; 0x00; 0x80;
                   0; 0; 0; 0; 0; 0; 0; 0; 0; 0; 0; 0; 0; 0; 0; 0;
                   0; 0; 0; 0; 0; 0; 0; 0]
                  0x80000023 0x80000000 0 0x80000033 sample_dump
                  eq_refl eq_refl eq_refl) 1).
Defined.

(* ================================================================== *)
(** * Further properties of the builder *)

Lemma fragment_loop_closed (n : nat) (fs addr : Z) (descs : list ITDescriptor) :
  fragment_loop n fs addr descs =
  (descs ++ map (fun k => OutputMore 16 fs (addr + Z.of_nat k * fs)) (seq 0 n),
   addr + Z.of_nat n * fs).
Proof.
  revert addr descs. induction n as [| n IH]; intros addr descs.
  - cbn. rewrite app_nil_r. f_equal. lia.
  - cbn [fragment_loop]. rewrite IH. f_equal; [| lia].
    rewrite <- app_assoc. f_equal. cbn [seq map app]. f_equal.
    + f_equal. lia.
    + rewrite <- seq_shift, map_map. apply map_ext. intros k. f_equal. lia.
Qed.

(** A returned data block, in closed form. *)
Lemma add_data_packet_descriptors self samples channels fragments store_val irq self' block :
  add_data_packet self samples channels fragments store_val irq = (self', Ok block) ->
  let payload_len := 8 + samples * channels * 4 in
  fragments <> 0 /\ (payload_len / fragments) mod 4 = 0 /\
  descriptors block =
    data_descriptors store_val (payload_base self - 4)
      (build_it_header_q0 (speed self) 1 (channel self) 0 0xA)
      (build_it_header_q1 payload_len)
      fragments (payload_len / fragments) (payload_len mod fragments)
      (payload_base self + payload_offset self) irq /\
  payload_offset self' = payload_offset self + Z.land (payload_len + 15) (Z.lnot 15).
Proof.
  cbv zeta. unfold add_data_packet.
  destruct (fdf_for_rate (sample_rate self)) as [e | fdf]; [discriminate |].
  cbn [_alloc_payload].
  destruct (fragments =? 0) eqn:Hz; [discriminate |]. apply Z.eqb_neq in Hz.
  destruct (_ mod 4 =? 0) eqn:Ha; cbn [negb]; [| discriminate]. apply Z.eqb_eq in Ha.
  rewrite fragment_loop_closed.
  cbn [set_dbc set_payload_offset payload_base payload_offset speed channel blocks].
  intros [= <- <-]. cbn [descriptors].
  split; [assumption |]. split; [assumption |]. split; [| reflexivity].
  unfold data_descriptors. now rewrite <- app_assoc.
Qed.

Lemma alloc_round_up (x : Z) :
  Z.land (x + 15) (Z.lnot 15) = 16 * ((x + 15) / 16).
Proof.
  rewrite <- Z.ldiff_land. change 15 with (Z.ones 4) at 2.
  rewrite Z.ldiff_ones_r by lia.
  rewrite Z.shiftl_mul_pow2, Z.shiftr_div_pow2 by lia.
  change (2 ^ 4) with 16. lia.
Qed.

Lemma sumZ_sizes_data_descriptors store_val sa q0 q1 fragments fs rs pa irq :
  1 <= fragments ->
  sumZ (map desc_size (data_descriptors store_val sa q0 q1 fragments fs rs pa irq)) =
  16 * (fragments + 2 + match store_val with Some _ => 1 | None => 0 end).
Proof.
  intros Hf. unfold data_descriptors.
  rewrite !map_app, !sumZ_app, map_map. cbn [desc_size].
  assert (Hmid : forall l : list nat, sumZ (map (fun _ => 16) l) = 16 * Z.of_nat (List.length l)).
  { induction l as [| k l IH]; [reflexivity |].
    cbn [map sumZ fold_right List.length]. fold (sumZ (map (fun _ : nat => 16) l)).
    rewrite IH. lia. }
  rewrite Hmid, length_seq.
  destruct store_val; cbn [sumZ fold_right map desc_size app]; lia.
Qed.

Lemma map_const_repeat {A B : Type} (c : B) (l : list A) :
  map (fun _ => c) l = repeat c (List.length l).
Proof. induction l as [| x l IH]; [reflexivity | cbn; now rewrite IH]. Qed.

(** X13.  A block returned by [add_data_packet] for [fragments >= 0] holds,
    in this order, the STORE_VALUE descriptor when a value was given, one
    OUTPUT_MORE-Immediate, [fragments - 1] OUTPUT_MORE descriptors and one
    OUTPUT_LAST; its Z is [fragments + 2], plus one with a STORE_VALUE. *)
Theorem data_block_shape self samples channels fragments store_val irq self' block
        (Hf : 0 <= fragments)
        (Hret : add_data_packet self samples channels fragments store_val irq =
                (self', Ok block)) :
  let stored := match store_val with Some _ => 1 | None => 0 end in
  map class_name (descriptors block) =
    (match store_val with Some _ => ["STORE_VALUE"%string] | None => [] end ++
     ["OUTPUT_MORE-Immediate"%string]) ++
    repeat "OUTPUT_MORE"%string (Z.to_nat (fragments - 1)) ++ ["OUTPUT_LAST"%string] /\
  Z.of_nat (List.length (descriptors block)) = fragments + 1 + stored /\
  z_value block = fragments + 2 + stored /\
  (forall v, store_val = Some v ->
     exists sa, nth_error (descriptors block) 0 = Some (StoreValue 16 v sa 0 0 false)).
Proof.
  cbv zeta.
  destruct (add_data_packet_descriptors _ _ _ _ _ _ _ _ Hret) as (Hnz & Hal & Hd & _).
  assert (H1 : 1 <= fragments) by lia.
  split; [| split; [| split]].
  - rewrite Hd. unfold data_descriptors. rewrite !map_app, map_map. cbn [class_name].
    f_equal; [destruct store_val; reflexivity |]. f_equal.
    now rewrite map_const_repeat, length_seq.
  - rewrite Hd. unfold data_descriptors. rewrite !length_app, length_map, length_seq.
    destruct store_val; cbn [List.length]; lia.
  - unfold z_value. rewrite Hd, sumZ_sizes_data_descriptors by assumption.
    replace (16 * (fragments + 2 + match store_val with Some _ => 1 | None => 0 end) + 15)
      with (15 + (fragments + 2 + match store_val with Some _ => 1 | None => 0 end) * 16)
      by lia.
    rewrite Z.div_add by lia. reflexivity.
  - intros v ->. rewrite Hd. eexists. reflexivity.
Qed.

(** One fragment, with a stored value. *)
Lemma data_block_shape_witness :
  exists self' block,
    add_data_packet builder_48000 8 2 2 (Some 7) true = (self', Ok block) /\
    map class_name (descriptors block) =
      ["STORE_VALUE"; "OUTPUT_MORE-Immediate"; "OUTPUT_MORE"; "OUTPUT_LAST"]%string /\
    z_value block = 5.
Proof.
  destruct (add_data_packet builder_48000 8 2 2 (Some 7) true)
    as [self' [e | block]] eqn:Hret; [vm_compute in Hret; discriminate Hret |].
  exists self', block. split; [reflexivity |].
  destruct (data_block_shape builder_48000 8 2 2 (Some 7) true self' block
              ltac:(lia) Hret) as (Hn & _ & Hz & _).
  split; [exact Hn | exact Hz].
Defined.

Lemma tiles_fragments (n : nat) (a fs e : Z) (rest : list (Z * Z)) :
  tiles (a + Z.of_nat n * fs) rest e ->
  tiles a (map (fun k => (a + Z.of_nat k * fs, fs)) (seq 0 n) ++ rest) e.
Proof.
  revert a. induction n as [| n IH]; intros a Hrest.
  - cbn in *. now rewrite Z.add_0_r in Hrest.
  - cbn [seq map app tiles]. split; [lia |].
    rewrite <- seq_shift, map_map.
    rewrite (map_ext _ (fun k => (a + fs + Z.of_nat k * fs, fs)))
      by (intros k; f_equal; lia).
    apply IH. replace (a + fs + Z.of_nat n * fs) with (a + Z.of_nat (S n) * fs) by lia.
    exact Hrest.
Qed.

Lemma data_extents_data_descriptors store_val sa q0 q1 fragments fs rs pa irq b :
  descriptors b = data_descriptors store_val sa q0 q1 fragments fs rs pa irq ->
  data_extents b =
    map (fun k => (pa + Z.of_nat k * fs, fs)) (seq 0 (Z.to_nat (fragments - 1))) ++
    [(pa + Z.of_nat (Z.to_nat (fragments - 1)) * fs, fs + rs)].
Proof.
  intros Hd. unfold data_extents. rewrite Hd. unfold data_descriptors.
  rewrite !flat_map_app. cbn [flat_map app].
  replace (flat_map _ (match store_val with
                       | Some v => [StoreValue 16 v sa 0 0 false]
                       | None => []
                       end)) with (@nil (Z * Z)) by (destruct store_val; reflexivity).
  cbn [app]. f_equal.
  generalize (seq 0 (Z.to_nat (fragments - 1))) as l.
  induction l as [| k l IH]; [reflexivity |].
  cbn [map flat_map app]. now rewrite IH.
Qed.

Lemma add_data_packet_payload_base self samples channels fragments store_val irq :
  payload_base (fst (add_data_packet self samples channels fragments store_val irq)) =
  payload_base self.
Proof.
  unfold add_data_packet.
  destruct (fdf_for_rate _); [reflexivity |]. cbn [_alloc_payload].
  destruct (fragments =? 0); [reflexivity |].
  destruct (negb _); [reflexivity |].
  destruct (fragment_loop _ _ _ _). reflexivity.
Qed.

(** X14.  For [fragments >= 0], the fragments of a returned data block
    tile the payload: the first starts at the allocation address (payload base plus the cursor
    before the call), each next one starts where the previous ends, and the
    last ends exactly [8 + samples*channels*4] bytes after the start.  The
    cursor moves by the payload length rounded up to a multiple of 16, so
    the allocation covers the payload. *)
Theorem data_fragments_tile self samples channels fragments store_val irq self' block
        (Hf : 0 <= fragments)
        (Hret : add_data_packet self samples channels fragments store_val irq =
                (self', Ok block)) :
  let payload_len := 8 + samples * channels * 4 in
  let payload_addr := payload_base self + payload_offset self in
  tiles payload_addr (data_extents block) (payload_addr + payload_len) /\
  payload_base self' = payload_base self /\
  payload_offset self' = payload_offset self + 16 * ((payload_len + 15) / 16) /\
  payload_len <= payload_offset self' - payload_offset self < payload_len + 16.
Proof.
  cbv zeta.
  destruct (add_data_packet_descriptors _ _ _ _ _ _ _ _ Hret) as (Hnz & Hal & Hd & Hp).
  assert (H1 : 1 <= fragments) by lia.
  split; [| split; [| split]].
  - rewrite (data_extents_data_descriptors _ _ _ _ _ _ _ _ _ _ Hd).
    apply tiles_fragments. cbn [tiles]. split; [reflexivity |].
    pose proof (Z.div_mod (8 + samples * channels * 4) fragments Hnz).
    rewrite Z2Nat.id by lia. nia.
  - pose proof (add_data_packet_payload_base self samples channels fragments store_val irq)
      as Hb. now rewrite Hret in Hb.
  - rewrite Hp. f_equal. apply alloc_round_up.
  - rewrite Hp, alloc_round_up.
    pose proof (Z.div_mod (8 + samples * channels * 4 + 15) 16 ltac:(lia)).
    pose proof (Z.mod_pos_bound (8 + samples * channels * 4 + 15) 16 ltac:(lia)).
    lia.
Qed.

(** Three fragments of 24 bytes from the start of the payload area. *)
Lemma data_fragments_tile_witness :
  exists self' block,
    add_data_packet builder_48000 8 2 3 None false = (self', Ok block) /\
    data_extents block = [(0x80010000, 24); (0x80010018, 24); (0x80010030, 24)] /\
    tiles 0x80010000 (data_extents block) 0x80010048 /\
    payload_offset self' = 80.
Proof.
  destruct (add_data_packet builder_48000 8 2 3 None false)
    as [self' [e | block]] eqn:Hret; [vm_compute in Hret; discriminate Hret |].
  exists self', block. split; [reflexivity |].
  destruct (data_fragments_tile builder_48000 8 2 3 None false self' block
              ltac:(lia) Hret) as (Ht & _ & Hp & _).
  split; [| split; [exact Ht | exact Hp]].
  vm_compute in Hret. injection Hret as _ <-. reflexivity.
Defined.

Lemma header_quadlets_data_descriptors store_val sa q0 q1 fragments fs rs pa irq :
  header_quadlets (data_descriptors store_val sa q0 q1 fragments fs rs pa irq) =
  Some (q0, q1).
Proof. unfold data_descriptors. destruct store_val; reflexivity. Qed.

(** X15.  The IT header of a returned data block: tag 1, tcode 0xA, sy 0,
    the builder's speed modulo 8 and channel modulo 64 in the first
    quadlet, and the payload length modulo 2^16 in the upper half of the
    second quadlet, whose lower half is zero. *)
Theorem data_block_header self samples channels fragments store_val irq self' block
        (Hret : add_data_packet self samples channels fragments store_val irq =
                (self', Ok block)) :
  exists q0 q1,
    header_quadlets (descriptors block) = Some (q0, q1) /\
    Z.land (Z.shiftr q0 16) 0x7 = speed self mod 8 /\
    Z.land (Z.shiftr q0 14) 0x3 = 1 /\
    Z.land (Z.shiftr q0 8) 0x3F = channel self mod 64 /\
    Z.land (Z.shiftr q0 4) 0xF = 0xA /\
    Z.land q0 0xF = 0 /\
    Z.land (Z.shiftr q1 16) 0xFFFF = (8 + samples * channels * 4) mod 65536 /\
    Z.land q1 0xFFFF = 0.
Proof.
  destruct (add_data_packet_descriptors _ _ _ _ _ _ _ _ Hret) as (_ & _ & Hd & _).
  do 2 eexists. split; [rewrite Hd; apply header_quadlets_data_descriptors |].
  destruct (build_it_header_fields (speed self) 1 (channel self) 0 0xA
              (8 + samples * channels * 4))
    as (Hs & Ht & Hc & Htc & Hsy & Hl & Hz & _).
  cbv zeta in *.
  assert (H8 : forall x, Z.land x 0x7 = x mod 8)
    by (intros x; change 0x7 with (Z.ones 3); now rewrite Z.land_ones by lia).
  assert (H64 : forall x, Z.land x 0x3F = x mod 64)
    by (intros x; change 0x3F with (Z.ones 6); now rewrite Z.land_ones by lia).
  rewrite <- H8, <- H64.
  repeat split; assumption.
Qed.

(** The header of an 8-sample stereo packet: 72 bytes of data. *)
Lemma data_block_header_witness :
  exists self' block q0 q1,
    add_data_packet builder_48000 8 2 1 None false = (self', Ok block) /\
    header_quadlets (descriptors block) = Some (q0, q1) /\
    Z.land (Z.shiftr q1 16) 0xFFFF = 72.
Proof.
  destruct (add_data_packet builder_48000 8 2 1 None false)
    as [self' [e | block]] eqn:Hret; [vm_compute in Hret; discriminate Hret |].
  destruct (data_block_header builder_48000 8 2 1 None false self' block Hret)
    as (q0 & q1 & Hh & _ & _ & _ & _ & _ & Hl & _).
  exists self', block, q0, q1. split; [reflexivity |]. split; [exact Hh | exact Hl].
Defined.

(** X16.  [add_nodata_packet]: on a supported rate it appends one block of
    an OUTPUT_MORE-Immediate and an OUTPUT_LAST of 8 bytes (Z = 3) at the
    next block address; on an unsupported rate it raises and appends
    nothing.  Either way the payload cursor has moved by 16 and the
    data-block counter is unchanged. *)
Theorem add_nodata_packet_behaviour (self : ITProgramBuilder) (channels : Z) (irq : bool) :
  let self' := fst (add_nodata_packet self channels irq) in
  payload_offset self' = payload_offset self + 16 /\
  dbc self' = dbc self /\
  match fdf_for_rate (sample_rate self) with
  | inr _ =>
      exists block,
        snd (add_nodata_packet self channels irq) = Ok block /\
        blocks self' = blocks self ++ [block] /\
        address block = _next_block_address self /\
        z_value block = 3 /\
        map class_name (descriptors block) =
          ["OUTPUT_MORE-Immediate"; "OUTPUT_LAST"]%string /\
        data_extents block = [(payload_base self + payload_offset self, 8)]
  | inl e =>
      snd (add_nodata_packet self channels irq) = Raise e /\
      blocks self' = blocks self
  end.
Proof.
  cbv zeta. unfold add_nodata_packet.
  cbn [_alloc_payload set_payload_offset sample_rate].
  destruct (fdf_for_rate (sample_rate self)) as [e | fdf]; cbn [fst snd].
  - split; [reflexivity |]. split; [reflexivity |]. split; reflexivity.
  - split; [reflexivity |]. split; [reflexivity |].
    eexists. split; [reflexivity |]. repeat (split; [reflexivity |]). reflexivity.
Qed.

Lemma add_data_packet_offset_step self samples channels fragments store_val irq :
  exists k,
    payload_offset (fst (add_data_packet self samples channels fragments store_val irq)) =
    payload_offset self + 16 * k.
Proof.
  pose proof (add_data_packet_outcome self samples channels fragments store_val irq) as H.
  destruct (add_data_packet self samples channels fragments store_val irq) as [s' r].
  cbn [fst].
  inversion H as [Hr | ? ? ? ? ? ? Hp | ? ? ? ? ? ? ? Hp | ? ? ? ? ? ? ? ? ? Hp]; subst.
  - exists 0. lia.
  - eexists. rewrite Hp, alloc_round_up. reflexivity.
  - eexists. rewrite Hp, alloc_round_up. reflexivity.
  - eexists. rewrite Hp, alloc_round_up. reflexivity.
Qed.

Lemma add_packet_offset_aligned (self : ITProgramBuilder) (p : packet) :
  payload_offset self mod 16 = 0 -> payload_offset (add_packet self p) mod 16 = 0.
Proof.
  intros H. destruct p as [samples channels fragments store_val irq | channels irq];
    cbn [add_packet].
  - destruct (add_data_packet_offset_step self samples channels fragments store_val irq)
      as [k ->].
    rewrite Z.mul_comm, Z.mod_add by lia. exact H.
  - unfold add_nodata_packet. cbn [_alloc_payload].
    assert (Hs : (payload_offset self + Z.land (8 + 15) (Z.lnot 15)) mod 16 = 0).
    { change (Z.land (8 + 15) (Z.lnot 15)) with (1 * 16).
      rewrite Z.mod_add by lia. exact H. }
    destruct (fdf_for_rate _); cbn [fst set_payload_offset set_blocks payload_offset];
      exact Hs.
Qed.

Lemma add_packet_payload_base (self : ITProgramBuilder) (p : packet) :
  payload_base (add_packet self p) = payload_base self.
Proof.
  destruct p as [samples channels fragments store_val irq | channels irq];
    cbn [add_packet].
  - apply add_data_packet_payload_base.
  - unfold add_nodata_packet. cbn [_alloc_payload].
    destruct (fdf_for_rate _); reflexivity.
Qed.

(** X17.  Whatever packets are added to a fresh builder, failed calls
    included, the payload cursor stays a multiple of 16 and the payload
    area stays at base + 0x10000: every payload buffer starts on a 16-byte
    boundary relative to the payload base. *)
Theorem payload_cursor_aligned (base channel speed rate : Z) (strategy : SkipStrategy)
        (ps : list packet) :
  let built := build (new_builder base channel speed rate strategy) ps in
  payload_offset built mod 16 = 0 /\ payload_base built = base + 0x10000.
Proof.
  cbv zeta.
  assert (Hgen : forall self,
             payload_offset self mod 16 = 0 ->
             payload_offset (build self ps) mod 16 = 0 /\
             payload_base (build self ps) = payload_base self).
  { induction ps as [| p ps IH]; intros self H; [split; [exact H | reflexivity] |].
    cbn [build fold_left]. fold (build (add_packet self p) ps).
    destruct (IH _ (add_packet_offset_aligned self p H)) as [Ho Hb].
    split; [exact Ho |]. rewrite Hb. apply add_packet_payload_base. }
  apply (Hgen (new_builder base channel speed rate strategy)). reflexivity.
Qed.

Lemma chained_nth (a : Z) (bs : list DescriptorBlock) (i : nat) (b : DescriptorBlock) :
  chained a bs -> nth_error bs i = Some b ->
  address b = a + 16 * sumZ (map z_value (firstn i bs)).
Proof.
  revert a i. induction bs as [| b0 bs IH]; intros a i Hc Hn;
    [destruct i; discriminate Hn |].
  destruct Hc as [Ha Hc]. destruct i as [| i].
  - injection Hn as <-. cbn. lia.
  - cbn [nth_error] in Hn. rewrite (IH _ i Hc Hn).
    cbn [firstn map sumZ fold_right]. fold (sumZ (map z_value (firstn i bs))).
    unfold BLOCK_SIZE. lia.
Qed.

Lemma build_base_address (ps : list packet) (self : ITProgramBuilder) :
  ring_ready (base_address self) (blocks self) ->
  base_address (build self ps) = base_address self.
Proof.
  revert self. induction ps as [| p ps IH]; intros self Hr; [reflexivity |].
  cbn [build fold_left]. fold (build (add_packet self p) ps).
  destruct (add_packet_ring_ready self p Hr) as (Hb & _ & _ & Hr').
  rewrite IH by assumption. exact Hb.
Qed.

(** X18.  In a program built on a fresh builder, block [i] lies at the base
    address plus 16 times the sum of the Z values of the blocks before it;
    a base that is a multiple of 16 makes every block address one. *)
Theorem block_addresses (base channel speed rate : Z) (strategy : SkipStrategy)
        (ps : list packet) (i : nat) (b : DescriptorBlock)
        (Hb : nth_error (blocks (build (new_builder base channel speed rate strategy) ps)) i
              = Some b) :
  let built := build (new_builder base channel speed rate strategy) ps in
  address b = base + 16 * sumZ (map z_value (firstn i (blocks built))) /\
  (base mod 16 = 0 -> address b mod 16 = 0).
Proof.
  cbv zeta.
  assert (Hnew : ring_ready (base_address (new_builder base channel speed rate strategy))
                            (blocks (new_builder base channel speed rate strategy)))
    by (cbn; repeat split; constructor).
  destruct (build_ring_ready ps _ Hnew) as [_ (_ & _ & Hc)].
  rewrite (build_base_address ps _ Hnew) in Hc. cbn [new_builder base_address] in Hc.
  pose proof (chained_nth _ _ _ _ Hc Hb) as Ha.
  split; [exact Ha |].
  intros Hal. rewrite Ha, Z.mul_comm, Z.mod_add by lia. exact Hal.
Qed.

(** The second of two blocks built at 0x80000000. *)
Lemma block_addresses_witness :
  exists b,
    nth_error (blocks (build (new_builder 0x80000000 0 2 48000 NEXT)
                             [DataPacket 8 2 1 None false; NoDataPacket 8 false])) 1
      = Some b /\
    address b = 0x80000030.
Proof.
  destruct (nth_error (blocks (build (new_builder 0x80000000 0 2 48000 NEXT)
                                     [DataPacket 8 2 1 None false; NoDataPacket 8 false])) 1)
    as [b |] eqn:Hb; [| vm_compute in Hb; discriminate Hb].
  exists b. split; [reflexivity |].
  destruct (block_addresses 0x80000000 0 2 48000 NEXT
              [DataPacket 8 2 1 None false; NoDataPacket 8 false] 1 b Hb)
    as [Ha _].
  rewrite Ha. vm_compute. reflexivity.
Defined.

(* ================================================================== *)
(** * Further properties of the ring linker *)

Lemma erase_links_link_desc sa sz nb d :
  erase_links (link_desc sa sz nb d) = erase_links d.
Proof. destruct d; reflexivity. Qed.

Lemma unlinked_view_link_block s sent b nb :
  unlinked_view (link_block s sent b nb) = unlinked_view b.
Proof.
  unfold unlinked_view. rewrite link_block_address. f_equal.
  unfold link_block. destruct s; cbn [descriptors]; rewrite map_map;
    apply map_ext; intros d; apply erase_links_link_desc.
Qed.

(** One iteration of the linking loop changes no block under a view that
    [link_block] preserves. *)
Lemma finalize_step_preserves {A : Type} (F : DescriptorBlock -> A) s sent
      (HF : forall b nb, F (link_block s sent b nb) = F b)
      (cur : list DescriptorBlock) (k : nat) :
  map F (finalize_step s sent cur k) = map F cur.
Proof.
  unfold finalize_step.
  destruct (nth_error cur k) as [b |] eqn:Hb; [| reflexivity].
  destruct (nth_error cur (Nat.modulo (k + 1) (List.length cur))) as [nb |];
    [| reflexivity].
  rewrite map_list_set, HF. apply list_set_same. now apply map_nth_error.
Qed.

Lemma link_blocks_preserves {A : Type} (F : DescriptorBlock -> A) s sent
      (HF : forall b nb, F (link_block s sent b nb) = F b)
      (bs : list DescriptorBlock) :
  map F (link_blocks s sent bs) = map F bs.
Proof.
  unfold link_blocks. generalize (seq 0 (List.length bs)) as l.
  intros l. revert bs. induction l as [| k l IH]; intros bs; [reflexivity |].
  cbn [fold_left]. rewrite IH. now apply finalize_step_preserves.
Qed.

Lemma finalize_ring_blocks (self : ITProgramBuilder) :
  blocks (fst (finalize_ring self)) =
  link_blocks (skip_strategy self) (sentinel_addr self) (blocks self).
Proof.
  unfold finalize_ring. destruct (blocks self) as [| b bs] eqn:Hb.
  - cbn [fst]. now rewrite Hb.
  - reflexivity.
Qed.

(** X19.  [finalize_ring] assigns link fields and nothing else: the number
    of blocks, every block address and every descriptor up to its skip or
    branch address and Z are as before, for any block list.  OUTPUT_MORE
    and OUTPUT_LAST-Immediate descriptors are not touched at all. *)
Theorem finalize_ring_only_links (self : ITProgramBuilder) :
  let final := fst (finalize_ring self) in
  map unlinked_view (blocks final) = map unlinked_view (blocks self) /\
  List.length (blocks final) = List.length (blocks self) /\
  (forall i b' d', nth_error (blocks final) i = Some b' -> In d' (descriptors b') ->
     match d' with
     | OutputMore _ _ _ | OutputLastImmediate _ _ _ _ _ _ _ =>
         exists b, nth_error (blocks self) i = Some b /\ In d' (descriptors b)
     | _ => True
     end).
Proof.
  cbv zeta. rewrite finalize_ring_blocks.
  pose proof (link_blocks_preserves unlinked_view (skip_strategy self) (sentinel_addr self)
                (unlinked_view_link_block _ _) (blocks self)) as Hv.
  split; [exact Hv |]. split.
  - rewrite <- (length_map unlinked_view), Hv. apply length_map.
  - intros i b' d' Hb' Hd'.
    assert (Hi : nth_error (map unlinked_view (blocks self)) i = Some (unlinked_view b'))
      by (rewrite <- Hv; now apply map_nth_error).
    rewrite nth_error_map in Hi.
    destruct (nth_error (blocks self) i) as [b |] eqn:Hb; [| discriminate Hi].
    cbn [option_map] in Hi. unfold unlinked_view in Hi. injection Hi as Ha Hds.
    assert (Hin : In (erase_links d') (map erase_links (descriptors b)))
      by (rewrite Hds; now apply in_map).
    apply in_map_iff in Hin. destruct Hin as (d & He & Hd).
    destruct d'; try exact I; exists b; (split; [reflexivity |]);
      destruct d; try discriminate He; cbn [erase_links] in He; now rewrite <- He.
Qed.

Lemma link_block_descriptors s sent b nb :
  descriptors (link_block s sent b nb) =
  map (link_desc (fst (skip_target s sent b nb)) (snd (skip_target s sent b nb)) nb)
      (descriptors b).
Proof. unfold link_block, skip_target. destruct s; reflexivity. Qed.

Lemma link_blocks_nth s sent (bs : list DescriptorBlock) (i : nat) (b nb : DescriptorBlock) :
  nth_error bs i = Some b ->
  nth_error bs (Nat.modulo (i + 1) (List.length bs)) = Some nb ->
  nth_error (link_blocks s sent bs) i = Some (link_block s sent b nb).
Proof.
  intros Hb Hnb.
  destruct (link_blocks_linked s sent bs) as (_ & _ & _ & Hdone).
  assert (Hi : (i < List.length bs)%nat) by (apply nth_error_Some; congruence).
  destruct (Hdone i b Hi Hb) as (nb' & Hnb' & Hfi).
  rewrite Hnb in Hnb'. injection Hnb' as <-. exact Hfi.
Qed.

(** The link fields of block [i] after [finalize_ring], on block values. *)
Lemma link_targets (self : ITProgramBuilder) (i : nat) (b nb : DescriptorBlock)
      (Hb : nth_error (blocks self) i = Some b)
      (Hnb : nth_error (blocks self) (Nat.modulo (i + 1) (List.length (blocks self)))
             = Some nb) :
  exists b',
    nth_error (blocks (fst (finalize_ring self))) i = Some b' /\
    forall d, In d (descriptors b') ->
      (forall p, skip_fields d = Some p ->
         p = skip_target (skip_strategy self) (sentinel_addr self) b nb) /\
      (is_last d = true -> branch_fields d = Some (address nb, z_value nb)).
Proof.
  rewrite finalize_ring_blocks.
  exists (link_block (skip_strategy self) (sentinel_addr self) b nb).
  split; [now apply link_blocks_nth |].
  intros d Hd. rewrite link_block_descriptors in Hd.
  apply in_map_iff in Hd. destruct Hd as (d0 & <- & _).
  destruct (skip_target _ _ _ _) as [sa sz]. cbn [fst snd].
  split.
  - intros p Hp. destruct d0; cbn [link_desc skip_fields] in Hp;
      try discriminate Hp; now injection Hp as <-.
  - intros Hl. destruct d0; cbn [link_desc is_last] in Hl; try discriminate Hl;
      reflexivity.
Qed.

Lemma build_sentinel_addr (ps : list packet) (self : ITProgramBuilder) :
  ring_ready (base_address self) (blocks self) ->
  sentinel_addr (build self ps) = sentinel_addr self.
Proof.
  revert self. induction ps as [| p ps IH]; intros self Hr; [reflexivity |].
  cbn [build fold_left]. fold (build (add_packet self p) ps).
  destruct (add_packet_ring_ready self p Hr) as (_ & _ & Hn & Hr').
  rewrite IH by assumption. exact Hn.
Qed.

(** X20.  In a program built by the packet methods on a fresh builder
    (every block and descriptor of which is an object of its own), after
    [finalize_ring] in block [i]: every STORE_VALUE and
    OUTPUT_MORE-Immediate descriptor skips to the target of the builder's
    strategy (the next block for NEXT, the block itself for SELF, the
    sentinel address base + 0xFF00 with Z = 1 for SENTINEL), and every
    OUTPUT_LAST branches to the next block in ring order whatever the
    strategy. *)
Theorem finalize_ring_targets (base channel speed rate : Z) (strategy : SkipStrategy)
        (ps : list packet) (i : nat) (b nb : DescriptorBlock)
        (Hb : nth_error (blocks (build (new_builder base channel speed rate strategy) ps)) i
              = Some b)
        (Hnb : nth_error
                 (blocks (build (new_builder base channel speed rate strategy) ps))
                 (Nat.modulo (i + 1)
                    (List.length
                       (blocks (build (new_builder base channel speed rate strategy) ps))))
               = Some nb) :
  let built := build (new_builder base channel speed rate strategy) ps in
  exists b',
    nth_error (blocks (fst (finalize_ring built))) i = Some b' /\
    forall d, In d (descriptors b') ->
      (forall p, skip_fields d = Some p ->
         p = skip_target strategy (base + 0xFF00) b nb) /\
      (is_last d = true -> branch_fields d = Some (address nb, z_value nb)).
Proof.
  cbv zeta. set (self := new_builder base channel speed rate strategy) in *.
  assert (H0 : ring_ready (base_address self) (blocks self))
    by (repeat split; constructor).
  destruct (link_targets (build self ps) i b nb Hb Hnb) as (b' & Hb' & Ht).
  rewrite (proj1 (build_ring_ready ps self H0)), (build_sentinel_addr ps self H0) in Ht.
  exists b'. split; [exact Hb' | exact Ht].
Qed.

(** The first block of a SENTINEL ring skips to base + 0xFF00. *)
Lemma finalize_ring_targets_witness :
  exists b',
    nth_error (blocks (fst (finalize_ring
      (build (new_builder 0x80000000 0 2 48000 SENTINEL)
             [DataPacket 8 2 1 None false; NoDataPacket 8 false])))) 0 = Some b' /\
    map skip_fields (descriptors b') = [Some (0x8000FF00, 1); None] /\
    map branch_fields (descriptors b') = [None; Some (0x80000030, 3)].
Proof.
  destruct (finalize_ring_targets 0x80000000 0 2 48000 SENTINEL
              [DataPacket 8 2 1 None false; NoDataPacket 8 false]
              0 _ _ eq_refl eq_refl) as (b' & Hb' & _).
  exists b'. split; [exact Hb' |].
  vm_compute in Hb'. injection Hb' as <-. split; reflexivity.
Defined.

Lemma link_desc_idem sa sz nb d :
  link_desc sa sz nb (link_desc sa sz nb d) = link_desc sa sz nb d.
Proof. destruct d; reflexivity. Qed.

Lemma link_block_idem s sent b nb nb' :
  address nb' = address nb -> z_value nb' = z_value nb ->
  link_block s sent (link_block s sent b nb) nb' = link_block s sent b nb.
Proof.
  intros Ha Hz. rewrite (link_block_shape s sent _ nb' nb Ha Hz).
  unfold link_block at 1.
  rewrite link_block_address, link_block_z_value.
  unfold link_block.
  destruct s; cbn [descriptors address]; f_equal; rewrite map_map;
    apply map_ext; intros d; apply link_desc_idem.
Qed.

Lemma link_blocks_length s sent (bs : list DescriptorBlock) :
  List.length (link_blocks s sent bs) = List.length bs.
Proof.
  rewrite <- (length_map address), (link_blocks_preserves address s sent), length_map;
    [reflexivity | intros; apply link_block_address].
Qed.

Lemma link_blocks_idem s sent (bs : list DescriptorBlock) :
  link_blocks s sent (link_blocks s sent bs) = link_blocks s sent bs.
Proof.
  apply nth_error_ext. intros j.
  pose proof (link_blocks_length s sent bs) as Hlen.
  destruct (Nat.lt_ge_cases j (List.length bs)) as [Hj | Hj].
  - destruct (nth_error bs j) as [b |] eqn:Hb; [| apply nth_error_None in Hb; lia].
    assert (Hn : (Nat.modulo (j + 1) (List.length bs) < List.length bs)%nat)
      by (apply Nat.mod_upper_bound; lia).
    destruct (nth_error bs (Nat.modulo (j + 1) (List.length bs))) as [nb |] eqn:Hnb;
      [| apply nth_error_None in Hnb; lia].
    pose proof (link_blocks_nth s sent bs j b nb Hb Hnb) as Hj1.
    destruct (nth_error (link_blocks s sent bs) (Nat.modulo (j + 1) (List.length bs)))
      as [nb' |] eqn:Hnb'; [| apply nth_error_None in Hnb'; lia].
    rewrite Hj1.
    rewrite (link_blocks_nth s sent (link_blocks s sent bs) j _ nb' Hj1)
      by (now rewrite Hlen).
    f_equal. apply link_block_idem.
    + apply (nth_error_same_map bs address (link_blocks s sent bs)
                                (Nat.modulo (j + 1) (List.length bs)) nb' nb);
        [apply link_blocks_preserves; intros; apply link_block_address | | ]; assumption.
    + apply (nth_error_same_map bs z_value (link_blocks s sent bs)
                                (Nat.modulo (j + 1) (List.length bs)) nb' nb);
        [apply link_blocks_preserves; intros; apply link_block_z_value | | ]; assumption.
  - assert (H1 : nth_error (link_blocks s sent bs) j = None)
      by (apply nth_error_None; lia).
    assert (H2 : nth_error (link_blocks s sent (link_blocks s sent bs)) j = None)
      by (apply nth_error_None; rewrite link_blocks_length; lia).
    now rewrite H1, H2.
Qed.

(** X21.  [finalize_ring] is idempotent: run on its own result it returns
    the same bytes and leaves the builder as it is, for any block list. *)
Theorem finalize_ring_idempotent (self : ITProgramBuilder) :
  finalize_ring (fst (finalize_ring self)) = finalize_ring self.
Proof.
  unfold finalize_ring at 2 3.
  destruct (blocks self) as [| b0 bs] eqn:Hb.
  - cbn [fst]. unfold finalize_ring. now rewrite Hb.
  - cbn [fst]. rewrite <- Hb.
    set (L := link_blocks (skip_strategy self) (sentinel_addr self) (blocks self)).
    unfold finalize_ring. cbn [set_blocks blocks skip_strategy sentinel_addr].
    fold L.
    assert (HL : link_blocks (skip_strategy self) (sentinel_addr self) L = L)
      by apply link_blocks_idem.
    destruct L as [| l0 L'] eqn:HeqL.
    + exfalso. pose proof (link_blocks_length (skip_strategy self) (sentinel_addr self)
                                              (blocks self)) as Hlen.
      fold L in Hlen. rewrite HeqL, Hb in Hlen. discriminate Hlen.
    + rewrite HL. reflexivity.
Qed.

(* ================================================================== *)
(** * Size of the serialised program *)

Lemma to_bytes_length (d : ITDescriptor) :
  exists bs, to_bytes d = Ok bs /\ List.length bs = encoded_length d.
Proof.
  destruct d; cbn [to_bytes encoded_length is_immediate];
    rewrite ?pack_desc16_ok;
    rewrite ?pack_IIII_ok by
      first [apply pack_le_first_word | apply pack_le_pointer | apply pack_le_mask32];
    eexists; split; reflexivity.
Qed.

Lemma block_to_bytes_length (ds : list ITDescriptor) :
  exists bs, join_bytes (map to_bytes ds) = Ok bs /\
             List.length bs = list_sum (map encoded_length ds).
Proof.
  induction ds as [| d ds (rest & Hr & Hl)]; [exists []; split; reflexivity |].
  destruct (to_bytes_length d) as (bs & Hb & Hlb).
  exists (bs ++ rest). cbn [map join_bytes]. rewrite Hb, Hr. cbn [bind Ok].
  split; [reflexivity |]. rewrite length_app, Hlb, Hl. reflexivity.
Qed.

Lemma program_bytes_length (bs : list DescriptorBlock) :
  exists out, program_bytes bs = Ok out /\ List.length out = encoded_bytes bs.
Proof.
  unfold program_bytes, encoded_bytes.
  induction bs as [| b bs (rest & Hr & Hl)]; [exists []; split; reflexivity |].
  destruct (block_to_bytes_length (descriptors b)) as (bb & Hb & Hlb).
  exists (bb ++ rest). cbn [map join_bytes]. unfold block_to_bytes at 1.
  rewrite Hb, Hr. cbn [bind Ok].
  split; [reflexivity |]. rewrite length_app, Hlb, Hl. reflexivity.
Qed.

Lemma honest_block_z (ds : list ITDescriptor) (a : Z) :
  Forall honest_size ds ->
  16 * z_value (mkBlock ds a) = Z.of_nat (list_sum (map encoded_length ds)).
Proof.
  intros H. unfold z_value. cbn [descriptors].
  assert (Hs : exists m, sumZ (map desc_size ds) = 16 * m /\
                         Z.of_nat (list_sum (map encoded_length ds)) = 16 * m).
  { induction H as [| d ds Hd _ (m & Hm & Hn)]; [exists 0; split; reflexivity |].
    cbn [map].
    change (sumZ (desc_size d :: map desc_size ds))
      with (desc_size d + sumZ (map desc_size ds)).
    change (list_sum (encoded_length d :: map encoded_length ds))
      with (encoded_length d + list_sum (map encoded_length ds))%nat.
    rewrite Nat2Z.inj_add, Hm, Hn, Hd.
    unfold encoded_length. destruct (is_immediate d).
    - exists (2 + m). split; lia.
    - exists (1 + m). split; lia. }
  destruct Hs as (m & Hm & Hn). rewrite Hm, Hn.
  replace (16 * m + 15) with (15 + m * 16) by lia.
  rewrite Z.div_add by lia. reflexivity.
Qed.

Lemma honest_data_descriptors store_val sa q0 q1 fragments fs rs pa irq :
  Forall honest_size (data_descriptors store_val sa q0 q1 fragments fs rs pa irq).
Proof.
  unfold data_descriptors.
  apply Forall_app; split; [apply Forall_app; split | apply Forall_app; split].
  - destruct store_val; [constructor; [reflexivity | constructor] | constructor].
  - constructor; [reflexivity | constructor].
  - apply Forall_forall. intros d Hd. apply in_map_iff in Hd.
    destruct Hd as (k & <- & _). reflexivity.
  - constructor; [reflexivity | constructor].
Qed.

Lemma add_packet_honest (self : ITProgramBuilder) (p : packet) :
  Forall (fun b => Forall honest_size (descriptors b)) (blocks self) ->
  Forall (fun b => Forall honest_size (descriptors b)) (blocks (add_packet self p)).
Proof.
  intros H. destruct p as [samples channels fragments store_val irq | channels irq];
    cbn [add_packet].
  - destruct (add_data_packet self samples channels fragments store_val irq)
      as [self' [e | block]] eqn:Hcall; cbn [fst].
    + destruct (add_data_packet_error _ _ _ _ _ _ _ _ Hcall) as (_ & _ & _ & ->).
      exact H.
    + destruct (add_data_packet_block _ _ _ _ _ _ _ _ Hcall) as (_ & _ & _ & -> & _).
      destruct (add_data_packet_descriptors _ _ _ _ _ _ _ _ Hcall) as (_ & _ & Hd & _).
      apply Forall_app. split; [exact H |]. constructor; [| constructor].
      rewrite Hd. apply honest_data_descriptors.
  - unfold add_nodata_packet. cbn [_alloc_payload].
    destruct (fdf_for_rate _); cbn [fst set_blocks set_payload_offset blocks];
      [exact H |].
    apply Forall_app. split; [exact H |]. repeat constructor.
Qed.

Lemma build_honest (ps : list packet) (self : ITProgramBuilder) :
  Forall (fun b => Forall honest_size (descriptors b)) (blocks self) ->
  Forall (fun b => Forall honest_size (descriptors b)) (blocks (build self ps)).
Proof.
  revert self. induction ps as [| p ps IH]; intros self H; [exact H |].
  cbn [build fold_left]. fold (build (add_packet self p) ps).
  apply IH. now apply add_packet_honest.
Qed.

Lemma honest_blocks_bytes (bs : list DescriptorBlock) :
  Forall (fun b => Forall honest_size (descriptors b)) bs ->
  Z.of_nat (encoded_bytes bs) = 16 * sumZ (map z_value bs).
Proof.
  unfold encoded_bytes. induction 1 as [| b bs Hb _ IH]; [reflexivity |].
  cbn [map].
  change (sumZ (z_value b :: map z_value bs)) with (z_value b + sumZ (map z_value bs)).
  match goal with
  | |- context [list_sum (?x :: ?l)] =>
      change (list_sum (x :: l)) with (x + list_sum l)%nat
  end.
  rewrite Nat2Z.inj_add, IH.
  pose proof (honest_block_z (descriptors b) (address b) Hb) as Hz.
  unfold z_value in *. cbn [descriptors] in Hz. lia.
Qed.

Lemma encoded_length_link_desc sa sz nb d :
  encoded_length (link_desc sa sz nb d) = encoded_length d.
Proof. destruct d; reflexivity. Qed.

Lemma encoded_bytes_link_blocks s sent (bs : list DescriptorBlock) :
  encoded_bytes (link_blocks s sent bs) = encoded_bytes bs.
Proof.
  unfold encoded_bytes. f_equal.
  apply (link_blocks_preserves
           (fun b => list_sum (map encoded_length (descriptors b)))).
  intros b nb. rewrite link_block_descriptors, map_map. f_equal.
  apply map_ext. intros d. apply encoded_length_link_desc.
Qed.

Lemma link_blocks_honest s sent (bs : list DescriptorBlock) :
  Forall (fun b => Forall honest_size (descriptors b)) bs ->
  Forall (fun b => Forall honest_size (descriptors b)) (link_blocks s sent bs).
Proof.
  intros Hh.
  assert (Hm : map (fun b => map desc_size (descriptors b)) (link_blocks s sent bs)
               = map (fun b => map desc_size (descriptors b)) bs).
  { apply (link_blocks_preserves (fun b => map desc_size (descriptors b))).
    intros b nb. rewrite link_block_descriptors, map_map. apply map_ext.
    intros d. apply desc_size_link_desc. }
  assert (Hi : map (fun b => map encoded_length (descriptors b)) (link_blocks s sent bs)
               = map (fun b => map encoded_length (descriptors b)) bs).
  { apply (link_blocks_preserves (fun b => map encoded_length (descriptors b))).
    intros b nb. rewrite link_block_descriptors, map_map. apply map_ext.
    intros d. apply encoded_length_link_desc. }
  revert Hh Hm Hi. generalize (link_blocks s sent bs). revert bs.
  induction bs as [| b bs IH]; intros [| b' bs'] Hh Hm Hi; try discriminate;
    constructor.
  - cbn [map] in Hm, Hi. injection Hm as Hm _. injection Hi as Hi _.
    apply Forall_inv in Hh. revert Hh Hm Hi.
    generalize (descriptors b'). generalize (descriptors b). clear.
    induction l as [| d ds IH]; intros [| d' ds'] Hh Hm Hi; try discriminate;
      constructor.
    + cbn [map] in Hm, Hi. injection Hm as Hm _. injection Hi as Hi _.
      apply Forall_inv in Hh. unfold honest_size in *. now rewrite Hm, Hi.
    + cbn [map] in Hm, Hi. injection Hm as _ Hm. injection Hi as _ Hi.
      apply Forall_inv_tail in Hh. now apply (IH ds').
  - cbn [map] in Hm, Hi. injection Hm as _ Hm. injection Hi as _ Hi.
    apply Forall_inv_tail in Hh. now apply (IH bs').
Qed.

(** X22.  Size conservation: for a program built on a fresh builder by any
    sequence of packet calls, [finalize_ring] returns a byte string whose
    length is 16 times the sum of the Z values of the blocks (none for an
    empty program), the Z values are those before the call, and every
    descriptor of the program, before and after the call, encodes to as
    many bytes as its [size] field says. *)
Theorem finalize_ring_size (base channel speed rate : Z) (strategy : SkipStrategy)
        (ps : list packet) :
  let built := build (new_builder base channel speed rate strategy) ps in
  (exists out,
     snd (finalize_ring built) = Ok out /\
     Z.of_nat (List.length out) = 16 * sumZ (map z_value (blocks built)) /\
     map z_value (blocks (fst (finalize_ring built))) = map z_value (blocks built)) /\
  (forall b d,
     In b (blocks built) \/ In b (blocks (fst (finalize_ring built))) ->
     In d (descriptors b) ->
     exists bs, to_bytes d = Ok bs /\ Z.of_nat (List.length bs) = desc_size d).
Proof.
  cbv zeta. set (built := build _ ps).
  assert (Hh : Forall (fun b => Forall honest_size (descriptors b)) (blocks built))
    by (apply build_honest; constructor).
  split.
  2:{ assert (Hhf : Forall (fun b => Forall honest_size (descriptors b))
                           (blocks (fst (finalize_ring built))))
        by (rewrite finalize_ring_blocks; now apply link_blocks_honest).
      intros b d Hb Hd.
      assert (Hd' : honest_size d).
      { rewrite Forall_forall in Hh, Hhf.
        destruct Hb as [Hb | Hb];
          [specialize (Hh _ Hb) | specialize (Hhf _ Hb)];
          rewrite Forall_forall in *; auto. }
      destruct (to_bytes_length d) as (bs & Hbs & Hl).
      exists bs. split; [exact Hbs |]. rewrite Hl. symmetry. exact Hd'. }
  assert (Hz : map z_value (blocks (fst (finalize_ring built))) = map z_value (blocks built)).
  { rewrite finalize_ring_blocks. apply link_blocks_preserves.
    intros. apply link_block_z_value. }
  unfold finalize_ring in *. destruct (blocks built) as [| b0 bs] eqn:Hb.
  - exists []. repeat split. cbn [fst]. now rewrite Hb.
  - rewrite <- Hb in *. cbn [fst snd set_blocks blocks] in *.
    destruct (program_bytes_length
                (link_blocks (skip_strategy built) (sentinel_addr built) (blocks built)))
      as (out & Ho & Hl).
    exists out. split; [exact Ho |]. split; [| exact Hz].
    rewrite Hl, encoded_bytes_link_blocks. now apply honest_blocks_bytes.
Qed.

(* ================================================================== *)
(** * Further properties of the validator *)

Lemma existsb_map_inv {A} (f : A -> bool) (g : A -> A)
      (H : forall x, f (g x) = f x) (l : list A) :
  existsb f (map g l) = existsb f l.
Proof. induction l as [| x l IH]; [reflexivity |]. cbn. now rewrite H, IH. Qed.

Lemma filter_length_map_inv {A} (f : A -> bool) (g : A -> A)
      (H : forall x, f (g x) = f x) (l : list A) :
  List.length (filter f (map g l)) = List.length (filter f l).
Proof.
  induction l as [| x l IH]; [reflexivity |]. cbn. rewrite H.
  destruct (f x); cbn; now rewrite IH.
Qed.

Lemma is_StoreValue_link_desc sa sz nb d :
  is_StoreValue (link_desc sa sz nb d) = is_StoreValue d.
Proof. destruct d; reflexivity. Qed.

Lemma is_more_link_desc sa sz nb d : is_more (link_desc sa sz nb d) = is_more d.
Proof. destruct d; reflexivity. Qed.

Lemma is_last_link_desc sa sz nb d : is_last (link_desc sa sz nb d) = is_last d.
Proof. destruct d; reflexivity. Qed.

Lemma check_inputs_link_block s sent b nb :
  check_inputs (link_block s sent b nb) = check_inputs b.
Proof.
  unfold check_inputs. rewrite link_block_address, link_block_descriptors.
  set (g := link_desc _ _ nb).
  rewrite (existsb_map_inv is_StoreValue g) by (intros; apply is_StoreValue_link_desc).
  rewrite (existsb_map_inv is_last g) by (intros; apply is_last_link_desc).
  rewrite (filter_length_map_inv is_more g) by (intros; apply is_more_link_desc).
  destruct (descriptors b) as [| d ds]; [reflexivity |].
  cbn [map]. unfold g at 1. rewrite is_StoreValue_link_desc. reflexivity.
Qed.

Lemma validate_checks_inputs i b b' :
  check_inputs b = check_inputs b' -> validate_checks i b = validate_checks i b'.
Proof.
  unfold check_inputs, validate_checks. intros H.
  injection H as H1 H2 H3 H4. cbv zeta. now rewrite H1, H2, H3, H4.
Qed.

Lemma validate_from_inputs (bs bs' : list DescriptorBlock) (k : nat) :
  map check_inputs bs = map check_inputs bs' ->
  validate_from validate_checks k bs = validate_from validate_checks k bs'.
Proof.
  revert bs' k. induction bs as [| b bs IH]; intros [| b' bs'] k H;
    try discriminate; [reflexivity |].
  cbn [map] in H.
  remember (check_inputs b) as x eqn:Hx. remember (check_inputs b') as y eqn:Hy.
  injection H as Hb Hbs. subst x y. cbn [validate_from].
  rewrite (validate_checks_inputs k b b' Hb). f_equal. now apply IH.
Qed.

Lemma validate_from_nil check (bs : list DescriptorBlock) (k : nat) :
  Forall (fun b => forall i, check i b = []) bs -> validate_from check k bs = [].
Proof.
  intros H. revert k. induction H as [| b bs Hb _ IH]; intros k; [reflexivity |].
  cbn [validate_from]. now rewrite Hb, IH.
Qed.

Lemma validate_from_immediate_ok (bs : list DescriptorBlock) (k : nat) :
  Forall (fun b => Forall honest_size (descriptors b)) bs ->
  validate_from (fun i block => validate_checks i block ++ validate_immediate i block) k bs
  = validate_from validate_checks k bs.
Proof.
  intros H. revert k. induction H as [| b bs Hb _ IH]; intros k; [reflexivity |].
  cbn [validate_from]. rewrite IH. f_equal.
  assert (Hi : validate_immediate k b = []).
  { unfold validate_immediate. induction Hb as [| d ds Hd _ IHd]; [reflexivity |].
    cbn [flat_map]. rewrite IHd. unfold honest_size, encoded_length in Hd.
    destruct (is_immediate d); [| reflexivity].
    rewrite Hd. reflexivity. }
  rewrite Hi. apply app_nil_r.
Qed.

Lemma existsb_more_false (f : ITDescriptor -> bool) (g : nat -> ITDescriptor)
      (H : forall k, f (g k) = false) (l : list nat) :
  existsb f (map g l) = false.
Proof. induction l as [| x l IH]; [reflexivity |]. cbn. now rewrite H, IH. Qed.

Lemma filter_all (f : ITDescriptor -> bool) (g : nat -> ITDescriptor)
      (H : forall k, f (g k) = true) (l : list nat) :
  filter f (map g l) = map g l.
Proof. induction l as [| x l IH]; [reflexivity |]. cbn. now rewrite H, IH. Qed.

Lemma check_inputs_data store_val sa q0 q1 fragments fs rs pa irq a :
  check_inputs (mkBlock (data_descriptors store_val sa q0 q1 fragments fs rs pa irq) a)
  = (false, S (Z.to_nat (fragments - 1)), true, a).
Proof.
  unfold check_inputs, data_descriptors. cbn [descriptors address].
  rewrite !existsb_app, !filter_app, !length_app.
  rewrite (existsb_more_false is_StoreValue) by reflexivity.
  rewrite (existsb_more_false is_last) by reflexivity.
  rewrite (filter_all is_more) by reflexivity.
  rewrite length_map, length_seq.
  destruct store_val; cbn; rewrite ?orb_true_r; repeat f_equal; lia.
Qed.

Lemma validate_checks_shape i b m :
  check_inputs b = (false, m, true, address b) ->
  validate_checks i b =
    (if Nat.ltb 8 m then [TooManyOutputMore i m] else []) ++
    (if negb (address b mod 16 =? 0) then [AddressNotAligned i (address b)] else []).
Proof.
  intros H. unfold check_inputs in H. unfold validate_checks. cbv zeta.
  injection H as H1 H2 H3. rewrite H1, H2, H3. reflexivity.
Qed.

Lemma validate_from_in_inv check (bs : list DescriptorBlock) (k : nat) f :
  In f (validate_from check k bs) ->
  exists i block, nth_error bs i = Some block /\ In f (check (k + i)%nat block).
Proof.
  revert k. induction bs as [| b bs IH]; intros k H; [destruct H |].
  cbn [validate_from] in H. apply in_app_or in H. destruct H as [H | H].
  - exists O, b. split; [reflexivity |]. now rewrite Nat.add_0_r.
  - destruct (IH _ H) as (i & block & Hi & Hin).
    exists (S i), block. split; [exact Hi |].
    now replace (k + S i)%nat with (S k + i)%nat by lia.
Qed.

(** The block list of a builder whose every block has the inputs of the
    checks that the two packet methods produce, with the OUTPUT_MORE count
    in [P]. *)
Lemma add_packet_check_inputs (P : nat -> Prop) (Q : packet -> Prop)
      (HQ : forall s c f sv irq, Q (DataPacket s c f sv irq) -> P (S (Z.to_nat (f - 1))))
      (HP : P 1%nat) (self : ITProgramBuilder) (p : packet) :
  Q p ->
  Forall (fun b => exists m, check_inputs b = (false, m, true, address b) /\ P m)
         (blocks self) ->
  Forall (fun b => exists m, check_inputs b = (false, m, true, address b) /\ P m)
         (blocks (add_packet self p)).
Proof.
  intros Hq H. destruct p as [samples channels fragments store_val irq | channels irq];
    cbn [add_packet].
  - destruct (add_data_packet self samples channels fragments store_val irq)
      as [self' [e | block]] eqn:Hcall; cbn [fst].
    + destruct (add_data_packet_error _ _ _ _ _ _ _ _ Hcall) as (_ & _ & _ & ->).
      exact H.
    + destruct (add_data_packet_block _ _ _ _ _ _ _ _ Hcall) as (_ & _ & _ & -> & _).
      destruct (add_data_packet_descriptors _ _ _ _ _ _ _ _ Hcall) as (_ & _ & Hd & _).
      apply Forall_app. split; [exact H |]. constructor; [| constructor].
      exists (S (Z.to_nat (fragments - 1))). split; [| now apply (HQ _ _ _ _ _ Hq)].
      destruct block as [ds a]. cbn [descriptors address] in *. rewrite Hd.
      apply check_inputs_data.
  - unfold add_nodata_packet. cbn [_alloc_payload].
    destruct (fdf_for_rate _); cbn [fst set_blocks set_payload_offset blocks];
      [exact H |].
    apply Forall_app. split; [exact H |]. constructor; [| constructor].
    exists 1%nat. split; [reflexivity | exact HP].
Qed.

Lemma build_check_inputs (P : nat -> Prop) (Q : packet -> Prop)
      (HQ : forall s c f sv irq, Q (DataPacket s c f sv irq) -> P (S (Z.to_nat (f - 1))))
      (HP : P 1%nat) (ps : list packet) (self : ITProgramBuilder) :
  Forall Q ps ->
  Forall (fun b => exists m, check_inputs b = (false, m, true, address b) /\ P m)
         (blocks self) ->
  Forall (fun b => exists m, check_inputs b = (false, m, true, address b) /\ P m)
         (blocks (build self ps)).
Proof.
  intros Hq. revert self. induction Hq as [| p ps Hp _ IH]; intros self H; [exact H |].
  cbn [build fold_left]. fold (build (add_packet self p) ps).
  apply IH. now apply (add_packet_check_inputs P Q).
Qed.

Lemma chained_mod16 (a : Z) (bs : list DescriptorBlock) :
  chained a bs -> Forall (fun b => address b mod 16 = a mod 16) bs.
Proof.
  revert a. induction bs as [| b bs IH]; intros a H; [constructor |].
  destruct H as [Ha Hc]. constructor; [now rewrite Ha |].
  specialize (IH _ Hc). unfold BLOCK_SIZE in IH.
  rewrite Z.mod_add in IH by lia. exact IH.
Qed.

Lemma built_addresses_mod16 base channel speed rate strategy ps :
  Forall (fun b => address b mod 16 = base mod 16)
         (blocks (build (new_builder base channel speed rate strategy) ps)).
Proof.
  set (self := new_builder base channel speed rate strategy).
  assert (H0 : ring_ready (base_address self) (blocks self))
    by (repeat split; constructor).
  destruct (build_ring_ready ps self H0) as (_ & _ & _ & Hc).
  rewrite (build_base_address ps self H0) in Hc.
  exact (chained_mod16 _ _ Hc).
Qed.

(** X23.  On the blocks of a program built by the two packet methods,
    [validate] never reports a misplaced STORE_VALUE or a missing
    OUTPUT_LAST: any finding is either an OUTPUT_MORE count above 8 or a
    misaligned block address, the latter only when the base address is
    not a multiple of 16. *)
Theorem validate_built_findings (base channel speed rate : Z) (strategy : SkipStrategy)
        (ps : list packet) (f : Finding) :
  In f (validate (build (new_builder base channel speed rate strategy) ps)) ->
  (exists i n, f = TooManyOutputMore i n /\ (8 < n)%nat) \/
  (exists i a, f = AddressNotAligned i a /\ a mod 16 = base mod 16 /\ base mod 16 <> 0).
Proof.
  set (built := build _ ps). intros Hin.
  apply validate_from_in_inv in Hin. destruct Hin as (i & b & Hi & Hin). cbn in Hin.
  assert (Hs : Forall (fun b => exists m, check_inputs b = (false, m, true, address b) /\ True)
                      (blocks built)).
  { apply (build_check_inputs (fun _ => True) (fun _ => True));
      [auto | auto | apply Forall_forall; auto | constructor]. }
  pose proof (built_addresses_mod16 base channel speed rate strategy ps) as Ha.
  fold built in Ha. rewrite Forall_forall in Hs, Ha.
  apply nth_error_In in Hi.
  destruct (Hs _ Hi) as (m & Hm & _). specialize (Ha _ Hi).
  rewrite (validate_checks_shape i b m Hm) in Hin.
  apply in_app_or in Hin. destruct Hin as [Hin | Hin].
  - destruct (Nat.ltb 8 m) eqn:Hlt; [| destruct Hin].
    destruct Hin as [<- | []]. left. exists i, m. split; [reflexivity |].
    now apply Nat.ltb_lt.
  - destruct (address b mod 16 =? 0) eqn:Hz; [destruct Hin |].
    destruct Hin as [<- | []]. right. exists i, (address b).
    split; [reflexivity |]. split; [exact Ha |].
    apply Z.eqb_neq in Hz. now rewrite <- Ha.
Qed.

Lemma validate_built_findings_witness :
  In (AddressNotAligned 0 0x80000008)
     (validate (build (new_builder 0x80000008 0 2 48000 NEXT) [NoDataPacket 2 false])) /\
  ((exists i n, AddressNotAligned 0 0x80000008 = TooManyOutputMore i n /\ (8 < n)%nat) \/
   (exists i a, AddressNotAligned 0 0x80000008 = AddressNotAligned i a /\
                a mod 16 = 0x80000008 mod 16 /\ 0x80000008 mod 16 <> 0)).
Proof.
  assert (H : In (AddressNotAligned 0 0x80000008)
                 (validate (build (new_builder 0x80000008 0 2 48000 NEXT)
                                  [NoDataPacket 2 false])))
    by (vm_compute; left; reflexivity).
  split; [exact H |].
  exact (validate_built_findings 0x80000008 0 2 48000 NEXT [NoDataPacket 2 false]
           (AddressNotAligned 0 0x80000008) H).
Defined.

(** X24.  A program whose data packets use at most 8 fragments each passes
    [validate] exactly when it has no block or the base address is a
    multiple of 16. *)
Theorem validate_accepts_built (base channel speed rate : Z) (strategy : SkipStrategy)
        (ps : list packet) (Hf : Forall (fragments_within 8) ps) :
  let built := build (new_builder base channel speed rate strategy) ps in
  validate built = [] <-> blocks built = [] \/ base mod 16 = 0.
Proof.
  cbv zeta. set (built := build _ ps).
  assert (Hs : Forall (fun b => exists m, check_inputs b = (false, m, true, address b) /\
                                          (m <= 8)%nat)
                      (blocks built)).
  { apply (build_check_inputs (fun m => (m <= 8)%nat) (fragments_within 8)).
    - intros s c f sv irq Hq. cbn in Hq. lia.
    - lia.
    - exact Hf.
    - constructor. }
  pose proof (built_addresses_mod16 base channel speed rate strategy ps) as Ha.
  fold built in Ha. unfold validate. split.
  - intros Hv. destruct (blocks built) as [| b bs]; [now left | right].
    apply Forall_inv in Hs, Ha. destruct Hs as (m & Hm & Hle).
    cbn [validate_from] in Hv. apply app_eq_nil in Hv. destruct Hv as [Hv _].
    rewrite (validate_checks_shape 0 b m Hm) in Hv.
    apply app_eq_nil in Hv. destruct Hv as [_ Hv].
    rewrite <- Ha. destruct (address b mod 16 =? 0) eqn:Hz; [| discriminate Hv].
    now apply Z.eqb_eq.
  - intros [Hnil | Hb]; [now rewrite Hnil |].
    apply validate_from_nil. rewrite Forall_forall in *.
    intros b Hin i. destruct (Hs _ Hin) as (m & Hm & Hle).
    rewrite (validate_checks_shape i b m Hm), (Ha _ Hin), Hb.
    replace (Nat.ltb 8 m) with false by (symmetry; apply Nat.ltb_ge; lia).
    reflexivity.
Qed.

(** A data block of 8 fragments (36 bytes in pieces of 4, the last of 8)
    and a no-data block. *)
Lemma validate_accepts_built_witness :
  validate (build (new_builder 0x80000000 0 2 48000 NEXT)
                  [DataPacket 7 1 8 (Some 1) true; NoDataPacket 2 false]) = [] /\
  map (fun b => List.length (descriptors b))
      (blocks (build (new_builder 0x80000000 0 2 48000 NEXT)
                     [DataPacket 7 1 8 (Some 1) true; NoDataPacket 2 false]))
  = [10%nat; 2%nat].
Proof.
  split; [| vm_compute; reflexivity].
  apply (validate_accepts_built 0x80000000 0 2 48000 NEXT
           [DataPacket 7 1 8 (Some 1) true; NoDataPacket 2 false]).
  - repeat constructor. cbn. lia.
  - right. reflexivity.
Defined.

(** X25.  On a built program the verdict does not depend on which of the
    two [validate] definitions runs nor on whether the ring has been
    linked: check 5 of the first definition never fires, and
    [finalize_ring] changes nothing the checks read. *)
Theorem validate_verdict_stable (base channel speed rate : Z) (strategy : SkipStrategy)
        (ps : list packet) :
  let built := build (new_builder base channel speed rate strategy) ps in
  validate_shadowed built = validate built /\
  validate (fst (finalize_ring built)) = validate built /\
  validate_shadowed (fst (finalize_ring built)) = validate built.
Proof.
  cbv zeta. set (built := build _ ps).
  assert (Hh : Forall (fun b => Forall honest_size (descriptors b)) (blocks built))
    by (apply build_honest; constructor).
  assert (Hl : validate (fst (finalize_ring built)) = validate built).
  { unfold validate. rewrite finalize_ring_blocks. apply validate_from_inputs.
    apply link_blocks_preserves. intros. apply check_inputs_link_block. }
  split; [now apply validate_from_immediate_ok |]. split; [exact Hl |].
  rewrite <- Hl. apply validate_from_immediate_ok.
  rewrite finalize_ring_blocks. now apply link_blocks_honest.
Qed.

(** X26.  A block returned by [add_data_packet] draws the finding
    [Too many OUTPUT_MORE descriptors (n)] from [validate] exactly when the
    call asked for more than 8 fragments, and [n] is then the number of
    fragments. *)
Theorem too_many_fragments_flagged self samples channels fragments store_val irq
        self' block (i j n : nat)
        (Hret : add_data_packet self samples channels fragments store_val irq =
                (self', Ok block)) :
  In (TooManyOutputMore j n) (validate_checks i block) <->
  j = i /\ n = Z.to_nat fragments /\ 8 < fragments.
Proof.
  destruct (add_data_packet_descriptors _ _ _ _ _ _ _ _ Hret) as (_ & _ & Hd & _).
  assert (Hm : check_inputs block = (false, S (Z.to_nat (fragments - 1)), true, address block)).
  { destruct block as [ds a]. cbn [descriptors address] in *. rewrite Hd.
    apply check_inputs_data. }
  rewrite (validate_checks_shape i block _ Hm). split.
  - intros Hin. apply in_app_or in Hin. destruct Hin as [Hin | Hin].
    + destruct (Nat.ltb 8 (S (Z.to_nat (fragments - 1)))) eqn:Hlt; [| destruct Hin].
      destruct Hin as [Heq | []]. injection Heq as -> <-.
      apply Nat.ltb_lt in Hlt. repeat split; lia.
    + destruct (negb _); [| destruct Hin]. destruct Hin as [Heq | []]. discriminate Heq.
  - intros (-> & -> & Hlt). apply in_or_app. left.
    replace (S (Z.to_nat (fragments - 1))) with (Z.to_nat fragments) by lia.
    replace (Nat.ltb 8 (Z.to_nat fragments)) with true
      by (symmetry; apply Nat.ltb_lt; lia).
    now left.
Qed.

Lemma too_many_fragments_flagged_witness :
  exists self' block,
    add_data_packet builder_48000 7 1 9 None false = (self', Ok block) /\
    In (TooManyOutputMore 0 9) (validate_checks 0 block).
Proof.
  destruct (add_data_packet builder_48000 7 1 9 None false)
    as [self' [e | block]] eqn:Hret; [vm_compute in Hret; discriminate Hret |].
  exists self', block. split; [reflexivity |].
  apply (too_many_fragments_flagged builder_48000 7 1 9 None false self' block
           0 0 9 Hret).
  repeat split; lia.
Defined.

(* ================================================================== *)
(** * Memory layout of the serialised program *)

Lemma program_bytes_cons (b : DescriptorBlock) (bs : list DescriptorBlock) :
  exists bb rest,
    block_to_bytes b = Ok bb /\ program_bytes bs = Ok rest /\
    program_bytes (b :: bs) = Ok (bb ++ rest) /\
    List.length bb = list_sum (map encoded_length (descriptors b)).
Proof.
  destruct (block_to_bytes_length (descriptors b)) as (bb & Hb & Hlb).
  destruct (program_bytes_length bs) as (rest & Hr & _).
  exists bb, rest. repeat split; try assumption.
  unfold program_bytes in *. cbn [map join_bytes]. unfold block_to_bytes at 1.
  rewrite Hb, Hr. reflexivity.
Qed.

Lemma encoded_bytes_cons (b : DescriptorBlock) (bs : list DescriptorBlock) :
  encoded_bytes (b :: bs) =
  (list_sum (map encoded_length (descriptors b)) + encoded_bytes bs)%nat.
Proof. reflexivity. Qed.

Lemma program_bytes_slice (bs : list DescriptorBlock) (i : nat) (b : DescriptorBlock)
      (out : bytes) :
  program_bytes bs = Ok out -> nth_error bs i = Some b ->
  exists bb, block_to_bytes b = Ok bb /\
             List.length bb = list_sum (map encoded_length (descriptors b)) /\
             slice out (encoded_bytes (firstn i bs)) (List.length bb) = bb.
Proof.
  revert i out. induction bs as [| b0 bs IH]; intros i out Ho Hi;
    [destruct i; discriminate Hi |].
  destruct (program_bytes_cons b0 bs) as (bb0 & rest & Hb0 & Hr & Hc & Hl0).
  rewrite Hc in Ho. injection Ho as <-. destruct i as [| i].
  - injection Hi as <-. exists bb0. split; [exact Hb0 |]. split; [exact Hl0 |].
    unfold slice. cbn [firstn skipn].
    change (encoded_bytes []) with O. cbn [skipn].
    rewrite firstn_app, Nat.sub_diag, firstn_all. cbn [firstn]. apply app_nil_r.
  - cbn [nth_error] in Hi. destruct (IH i rest Hr Hi) as (bb & Hb & Hl & Hs).
    exists bb. split; [exact Hb |]. split; [exact Hl |].
    cbn [firstn]. rewrite encoded_bytes_cons, <- Hl0. unfold slice in *.
    rewrite skipn_app, skipn_all2 by lia. cbn [app].
    replace (List.length bb0 + encoded_bytes (firstn i bs) - List.length bb0)%nat
      with (encoded_bytes (firstn i bs)) by lia.
    exact Hs.
Qed.

Lemma Forall_firstn_keep {A} (P : A -> Prop) (l : list A) (n : nat) :
  Forall P l -> Forall P (firstn n l).
Proof.
  intros H. revert n. induction H as [| x l Hx _ IH]; intros [| n]; cbn [firstn];
    constructor; auto.
Qed.

(** X27.  Memory layout: in the byte string [finalize_ring] returns for a
    built program, the encoding of a block starts at the byte offset equal
    to the block's address minus the base address and is 16 * Z bytes
    long. *)
Theorem program_layout (base channel speed rate : Z) (strategy : SkipStrategy)
        (ps : list packet) (i : nat) (b : DescriptorBlock)
        (Hb : nth_error
                (blocks (fst (finalize_ring
                                (build (new_builder base channel speed rate strategy) ps)))) i
              = Some b) :
  let built := build (new_builder base channel speed rate strategy) ps in
  exists out bb,
    snd (finalize_ring built) = Ok out /\
    block_to_bytes b = Ok bb /\
    Z.of_nat (List.length bb) = 16 * z_value b /\
    0 <= address b - base /\
    slice out (Z.to_nat (address b - base)) (Z.to_nat (16 * z_value b)) = bb.
Proof.
  cbv zeta. set (built := build _ ps) in *.
  set (self := new_builder base channel speed rate strategy).
  assert (H0 : ring_ready (base_address self) (blocks self))
    by (repeat split; constructor).
  destruct (build_ring_ready ps self H0) as (_ & _ & _ & Hc).
  rewrite (build_base_address ps self H0) in Hc. fold built in Hc.
  change (base_address self) with base in Hc.
  assert (Hh : Forall (fun b => Forall honest_size (descriptors b)) (blocks built))
    by (apply build_honest; constructor).
  rewrite finalize_ring_blocks in Hb.
  assert (Hout : snd (finalize_ring built) =
                 program_bytes (link_blocks (skip_strategy built) (sentinel_addr built)
                                            (blocks built))).
  { unfold finalize_ring. destruct (blocks built) as [| b0 bs] eqn:Hbs.
    - destruct i; discriminate Hb.
    - reflexivity. }
  set (final := link_blocks (skip_strategy built) (sentinel_addr built) (blocks built)) in *.
  assert (Hhf : Forall (fun b => Forall honest_size (descriptors b)) final)
    by (now apply link_blocks_honest).
  assert (Hza : map z_value final = map z_value (blocks built))
    by (apply link_blocks_preserves; intros; apply link_block_z_value).
  assert (Haa : map address final = map address (blocks built))
    by (apply link_blocks_preserves; intros; apply link_block_address).
  destruct (program_bytes_length final) as (out & Ho & _).
  destruct (program_bytes_slice final i b out Ho Hb) as (bb & Hbb & Hl & Hs).
  assert (Hlen : Z.of_nat (List.length bb) = 16 * z_value b).
  { rewrite Hl. rewrite Forall_forall in Hhf.
    pose proof (honest_block_z (descriptors b) (address b)
                  (Hhf b (nth_error_In _ _ Hb))) as Hz.
    unfold z_value in *. cbn [descriptors] in Hz. lia. }
  assert (Hoff : address b - base = Z.of_nat (encoded_bytes (firstn i final))).
  { rewrite honest_blocks_bytes by (now apply Forall_firstn_keep).
    rewrite <- firstn_map, Hza, firstn_map.
    assert (Hb0 : exists b0, nth_error (blocks built) i = Some b0 /\ address b0 = address b).
    { pose proof (f_equal (fun l => nth_error l i) Haa) as Hn. cbn in Hn.
      rewrite !nth_error_map, Hb in Hn.
      destruct (nth_error (blocks built) i) as [b0 |]; [| discriminate Hn].
      exists b0. split; [reflexivity |]. cbn in Hn. now injection Hn. }
    destruct Hb0 as (b0 & Hb0 & <-).
    rewrite (chained_nth base (blocks built) i b0 Hc Hb0). lia. }
  exists out, bb. split; [now rewrite Hout |]. split; [exact Hbb |].
  split; [exact Hlen |]. split; [lia |].
  rewrite Hoff, <- Hlen, !Nat2Z.id. exact Hs.
Qed.

Lemma program_layout_witness :
  exists b out bb,
    nth_error (blocks (fst (finalize_ring
                 (build (new_builder 0x80000000 0 2 48000 NEXT)
                        [DataPacket 8 2 1 None false; NoDataPacket 8 false])))) 1
      = Some b /\
    snd (finalize_ring (build (new_builder 0x80000000 0 2 48000 NEXT)
                              [DataPacket 8 2 1 None false; NoDataPacket 8 false]))
      = Ok out /\
    block_to_bytes b = Ok bb /\
    slice out (Z.to_nat (address b - 0x80000000)) (Z.to_nat (16 * z_value b)) = bb.
Proof.
  destruct (nth_error (blocks (fst (finalize_ring
                 (build (new_builder 0x80000000 0 2 48000 NEXT)
                        [DataPacket 8 2 1 None false; NoDataPacket 8 false])))) 1)
    as [b |] eqn:Hb; [| vm_compute in Hb; discriminate Hb].
  destruct (program_layout 0x80000000 0 2 48000 NEXT
              [DataPacket 8 2 1 None false; NoDataPacket 8 false] 1 b Hb)
    as (out & bb & Ho & Hbb & _ & _ & Hs).
  exists b, out, bb. repeat split; assumption.
Defined.

(* ================================================================== *)
(** * The analyser on the encoder's OUTPUT_LAST descriptors *)

Lemma pack_ptr_with_z_fields (addr z : Z) :
  Z.land (pack_ptr_with_z addr z) 0xF = z mod 16 /\
  Z.land (pack_ptr_with_z addr z) 0xFFFFFFF0 = Z.land addr 0xFFFFFFF0.
Proof.
  assert (Hz : Z.land z 0xF = z mod 16)
    by (change 0xF with (Z.ones 4); rewrite Z.land_ones by lia; reflexivity).
  unfold pack_ptr_with_z. split.
  - rewrite Z.land_lor_distr_l, <- !Z.land_assoc.
    change (Z.land 0xFFFFFFF0 0xF) with 0. change (Z.land 0xF 0xF) with 0xF.
    now rewrite Z.land_0_r, Z.lor_0_l.
  - rewrite Z.land_lor_distr_l, <- !Z.land_assoc.
    change (Z.land 0xFFFFFFF0 0xFFFFFFF0) with 0xFFFFFFF0.
    change (Z.land 0xF 0xFFFFFFF0) with 0.
    now rewrite Z.land_0_r, Z.lor_0_r.
Qed.

Lemma pack_desc16_words rc c da br rs ts :
  exists bs, pack_desc16 rc c da br rs ts = Ok bs /\
             first_word bs = control_word rc c /\
             from_le (slice bs 8 4) = br mod 2 ^ 32.
Proof.
  destruct (first_word_pack_desc16 rc c da br rs ts) as (bs & Hb & Hw).
  exists bs. split; [exact Hb |]. split; [exact Hw |].
  rewrite pack_desc16_ok in Hb. injection Hb as <-.
  unfold slice. cbn [le_bytes app skipn firstn].
  change (from_le (le_bytes 4 (Z.land br 0xFFFFFFFF)) = br mod 2 ^ 32).
  rewrite from_le_le_bytes, land_ffffffff_mod. apply Z.mod_mod. lia.
Qed.

Lemma describe_desc_output_last (rc d_dat ptr : Z) (ws irq : bool) :
  let c := make_control ITCmd.OUTPUT_LAST ws ITKey.STANDARD (irq_of irq)
                        ITBranch.ALWAYS ITWait.NEVER in
  describe_desc (control_word rc c) d_dat ptr =
    [ DescriptorContent (control_word rc c) d_dat ptr;
      TypeLine "OUTPUT_LAST" (rc mod 65536) ] ++
    (if Z.land ptr 0xF =? 0 then [BranchZ0Stopped]
     else if Z.land ptr 0xFFFFFFF0 =? 0 then [FaultNullBranch]
     else [BranchLooksValid]).
Proof.
  cbv zeta. set (c := make_control _ _ _ _ _ _).
  assert (Hc : 0 <= c < 65536) by apply make_control_range.
  assert (Hcmd : Z.land (Z.shiftr c 12) 0xF = 1) by (destruct ws, irq; reflexivity).
  assert (Hkey : Z.land (Z.shiftr c 8) 0x7 = 0) by (destruct ws, irq; reflexivity).
  assert (Hne : c <> 0xDEDE) by (destruct ws, irq; discriminate).
  destruct (control_word_decode rc c) as [Hlo Hhi].
  rewrite (Z.mod_small c) in Hhi by assumption.
  unfold describe_desc. cbv zeta. rewrite Hlo, Hhi, Hcmd, Hkey.
  replace (control_word rc c =? 0xDEDEDEDE) with false.
  2:{ symmetry. apply Z.eqb_neq. intros He. apply Hne. rewrite <- Hhi, He. reflexivity. }
  change (desc_name 1 0) with "OUTPUT_LAST"%string.
  change (1 =? 1) with true. change ((1 =? 0) && (0 =? 0)) with false.
  change ((1 =? 0) && (0 =? 2)) with false.
  destruct (Z.land ptr 0xF =? 0); [reflexivity |].
  destruct (Z.land ptr 0xFFFFFFF0 =? 0); reflexivity.
Qed.

(** X28.  What the analyser says of an OUTPUT_LAST descriptor as the
    encoder writes it (control word at offset 0, branch word at offset 8):
    type OUTPUT_LAST with the 16-bit request count, then [Branch Z=0] when
    the Z given is a multiple of 16 (in particular before [finalize_ring]
    has linked it, and for a successor block whose Z is 16), a null
    branch fault when the address has no bit in 31:4, and a valid branch
    otherwise; never the uninitialised-memory fault. *)
Theorem analyser_verdict_on_output_last (d : ITDescriptor) (ba bz d_dat : Z)
        (Hl : is_last d = true) (Hb : branch_fields d = Some (ba, bz)) :
  exists bs,
    to_bytes d = Ok bs /\
    describe_desc (first_word bs) d_dat (from_le (slice bs 8 4)) =
      [ DescriptorContent (first_word bs) d_dat (from_le (slice bs 8 4));
        TypeLine "OUTPUT_LAST" (encoded_req_count d) ] ++
      (if bz mod 16 =? 0 then [BranchZ0Stopped]
       else if Z.land ba 0xFFFFFFF0 =? 0 then [FaultNullBranch]
       else [BranchLooksValid]).
Proof.
  assert (Hp : forall a z, pack_ptr_with_z a z mod 2 ^ 32 = pack_ptr_with_z a z)
    by (intros; apply Z.mod_small, pack_ptr_with_z_range).
  destruct d as [sz v sa ka kz irq | sz q0 q1 sa sz' irq | sz q0 q1 ba' bz' ws irq
                | sz rc da | sz rc da ba' bz' ws irq | sz ba' bz' irq];
    try discriminate Hl; cbn [branch_fields] in Hb; injection Hb as -> ->;
    cbn [to_bytes encoded_req_count].
  - destruct (pack_desc16_words rc
                (make_control ITCmd.OUTPUT_LAST ws ITKey.STANDARD (irq_of irq)
                              ITBranch.ALWAYS ITWait.NEVER)
                da (pack_ptr_with_z ba bz) 0 0) as (bs & Hbs & Hw & Hbr).
    exists bs. split; [exact Hbs |]. rewrite Hw, Hbr, Hp.
    rewrite (describe_desc_output_last rc d_dat (pack_ptr_with_z ba bz) ws irq).
    destruct (pack_ptr_with_z_fields ba bz) as [-> ->]. reflexivity.
  - destruct (pack_desc16_words 0
                (make_control ITCmd.OUTPUT_LAST true ITKey.STANDARD (irq_of irq)
                              ITBranch.ALWAYS ITWait.NEVER)
                0 (pack_ptr_with_z ba bz) 0 0) as (bs & Hbs & Hw & Hbr).
    exists bs. split; [exact Hbs |]. rewrite Hw, Hbr, Hp.
    rewrite (describe_desc_output_last 0 d_dat (pack_ptr_with_z ba bz) true irq).
    destruct (pack_ptr_with_z_fields ba bz) as [-> ->]. reflexivity.
Qed.

Lemma analyser_verdict_on_output_last_witness :
  exists bs,
    to_bytes (OutputLast 16 24 0x80010000 0x80000040 16 true false) = Ok bs /\
    In BranchZ0Stopped (describe_desc (first_word bs) 0x80010000 (from_le (slice bs 8 4))).
Proof.
  destruct (analyser_verdict_on_output_last
              (OutputLast 16 24 0x80010000 0x80000040 16 true false)
              0x80000040 16 0x80010000 eq_refl eq_refl) as (bs & Hbs & Hd).
  exists bs. split; [exact Hbs |]. rewrite Hd. right. right. left. reflexivity.
Defined.

(* ================================================================== *)
(** * Ring closure over the serialised branch words *)

(** The word at offset 4 of an Immediate descriptor is its packed pointer. *)
Lemma immediate_pointer_word (c ptr q0 q1 : Z) :
  from_le (slice ((le_bytes 4 c ++ le_bytes 4 ptr ++ le_bytes 4 q0 ++ le_bytes 4 q1)
                  ++ zeros 16) 4 4) = ptr mod 2 ^ 32.
Proof.
  unfold slice. rewrite <- app_assoc.
  rewrite (proj2 (le_bytes_4_slices _ _)), <- app_assoc.
  rewrite (proj1 (le_bytes_4_slices _ _)). apply from_le_le_bytes.
Qed.

(** What [to_bytes] serialises as the branch word is [pack_ptr_with_z] of
    the descriptor's branch fields. *)
Lemma emitted_branch_packs (d : ITDescriptor) (a z : Z) :
  branch_fields d = Some (a, z) -> emitted_branch d = Some (pack_ptr_with_z a z).
Proof.
  assert (Hp : forall a z, pack_ptr_with_z a z mod 2 ^ 32 = pack_ptr_with_z a z)
    by (intros; apply Z.mod_small, pack_ptr_with_z_range).
  destruct d as [sz v sa ka kz irq | sz q0 q1 sa sz' irq | sz q0 q1 ba bz ws irq
                | sz rc da | sz rc da ba bz ws irq | sz ba bz irq];
    cbn [branch_fields]; intros H; try discriminate H; injection H as -> ->;
    unfold emitted_branch; cbn [to_bytes].
  - rewrite pack_IIII_ok by
      first [apply pack_le_first_word | apply pack_le_pointer | apply pack_le_mask32].
    cbn [bind Ok]. rewrite immediate_pointer_word, Hp. reflexivity.
  - destruct (pack_desc16_words rc
                (make_control ITCmd.OUTPUT_LAST ws ITKey.STANDARD (irq_of irq)
                              ITBranch.ALWAYS ITWait.NEVER)
                da (pack_ptr_with_z a z) 0 0) as (bs & -> & _ & Hbr).
    unfold Ok. rewrite Hbr, Hp. reflexivity.
  - destruct (pack_desc16_words 0
                (make_control ITCmd.OUTPUT_LAST true ITKey.STANDARD (irq_of irq)
                              ITBranch.ALWAYS ITWait.NEVER)
                0 (pack_ptr_with_z a z) 0 0) as (bs & -> & _ & Hbr).
    unfold Ok. rewrite Hbr, Hp. reflexivity.
Qed.

(** A packed pointer gives back a 16-byte aligned 32-bit address and a Z
    of at most 15, and only those. *)
Lemma pack_ptr_with_z_exact (a z : Z) :
  a mod 16 = 0 -> 0 <= a < 2 ^ 32 -> 0 <= z <= 15 ->
  Z.land (pack_ptr_with_z a z) 0xFFFFFFF0 = a /\
  Z.land (pack_ptr_with_z a z) 0xF = z /\
  pack_ptr_with_z a z = a + z.
Proof.
  intros Ha Hr Hz. destruct (pack_ptr_with_z_fields a z) as [Hn Hh].
  assert (Hlow : forall x, Z.land x 0xF = x mod 16)
    by (intros; change 0xF with (Z.ones 4); rewrite Z.land_ones by lia; reflexivity).
  assert (Hd : Z.land a 0xFFFFFFF0 = a).
  { assert (Hs : Z.land a 0xFFFFFFFF = Z.lor (Z.land a 0xFFFFFFF0) (Z.land a 0xF)).
    { rewrite <- Z.land_lor_distr_r. reflexivity. }
    rewrite (Hlow a), Ha, Z.lor_0_r, land_ffffffff_mod, Z.mod_small in Hs by assumption.
    now symmetry. }
  rewrite Hn, Hh, Hd, (Z.mod_small z 16) by lia.
  split; [reflexivity |]. split; [reflexivity |].
  unfold pack_ptr_with_z. rewrite Hd, Hlow, (Z.mod_small z 16) by lia.
  assert (Hdisj : Z.land a z = 0).
  { rewrite <- Hd, <- (Z.mod_small z 16), <- Hlow by lia.
    rewrite (Z.land_comm z), Z.land_assoc, <- (Z.land_assoc a).
    change (Z.land 0xFFFFFFF0 0xF) with 0. now rewrite Z.land_0_r, Z.land_0_l. }
  now rewrite <- Z.lxor_lor, <- Z.add_nocarry_lxor by assumption.
Qed.

Lemma chained_upper (a : Z) (bs : list DescriptorBlock) :
  chained a bs -> Forall (fun b => 0 < z_value b) bs ->
  forall b, In b bs -> address b + 16 * z_value b <= a + 16 * sumZ (map z_value bs).
Proof.
  revert a. induction bs as [| b0 bs IH]; intros a Hc Hz b Hin; [destruct Hin |].
  destruct Hc as [Ha Hc]. inversion Hz as [| ? ? Hz0 Hz']; subst.
  cbn [map].
  change (sumZ (z_value b0 :: map z_value bs)) with (z_value b0 + sumZ (map z_value bs)).
  assert (Hs : 0 <= sumZ (map z_value bs)).
  { clear - Hz'. induction Hz' as [| x l Hx _ IH]; [cbn; lia |].
    cbn [map]. change (sumZ (z_value x :: map z_value l))
      with (z_value x + sumZ (map z_value l)). lia. }
  destruct Hin as [-> | Hin]; [lia |].
  specialize (IH _ Hc Hz' b Hin). unfold BLOCK_SIZE in IH. lia.
Qed.

(** C6.  Take any builder parameters, any skip strategy and any sequence
    of packet calls that leaves N >= 1 blocks.  After [finalize_ring] there
    are still N blocks, the terminal descriptor of block i has the address
    and Z of block (i+1) mod N as its branch fields, and the branch word it
    is serialised with is [pack_ptr_with_z] of those.  When the base
    address is a multiple of 16, the program lies within [0, 2^32) and no
    block has a Z above 15, that word names exactly block (i+1) mod N
    (address in bits 31:4, Z in bits 3:0), and N branches taken from
    block 0 over the serialised words visit blocks 0, 1, ..., N-1 in turn
    and arrive back at block 0, for each of the three skip strategies. *)
Theorem ring_closure (base channel speed rate : Z) (strategy : SkipStrategy)
        (ps : list packet) :
  let built := build (new_builder base channel speed rate strategy) ps in
  let final := blocks (fst (finalize_ring built)) in
  let N := List.length (blocks built) in
  (1 <= N)%nat ->
  List.length final = N /\
  (forall i, (i < N)%nat ->
     exists b nb d, nth_error final i = Some b /\
                    nth_error final (Nat.modulo (i + 1) N) = Some nb /\
                    terminal b = Some d /\
                    branch_fields d = Some (address nb, z_value nb) /\
                    emitted_branch d =
                      Some (pack_ptr_with_z (address nb) (z_value nb))) /\
  (base mod 16 = 0 -> 0 <= base ->
   base + 16 * sumZ (map z_value (blocks built)) <= 2 ^ 32 ->
   Forall (fun b => z_value b <= 15) (blocks built) ->
   (forall i, (i < N)%nat ->
      exists b nb d, nth_error final i = Some b /\
                     nth_error final (Nat.modulo (i + 1) N) = Some nb /\
                     terminal b = Some d /\
                     emitted_branch d = Some (address nb + z_value nb)) /\
   (forall i, (i < N)%nat -> follow final i = Some (Nat.modulo (i + 1) N)) /\
   walk final N 0 = Some (seq 0 N ++ [0%nat])).
Proof.
  intros built final N HN.
  set (self := new_builder base channel speed rate strategy).
  assert (H0 : ring_ready (base_address self) (blocks self))
    by (repeat split; constructor).
  destruct (build_ring_ready ps self H0) as (_ & Hready).
  rewrite (build_base_address ps self H0) in Hready.
  change (base_address self) with base in Hready.
  change (build self ps) with built in Hready.
  assert (Hfinal : final = link_blocks (skip_strategy built) (sentinel_addr built)
                                       (blocks built))
    by (subst final; apply finalize_ring_blocks).
  destruct (link_blocks_closes (skip_strategy built) (sentinel_addr built) base
              (blocks built) Hready HN) as (Hlen & Hlink).
  cbv zeta in Hlen, Hlink. rewrite <- Hfinal in Hlen, Hlink. fold N in Hlen, Hlink.
  assert (Hword : forall i, (i < N)%nat ->
     exists b nb d, nth_error final i = Some b /\
                    nth_error final (Nat.modulo (i + 1) N) = Some nb /\
                    terminal b = Some d /\
                    branch_fields d = Some (address nb, z_value nb) /\
                    emitted_branch d =
                      Some (pack_ptr_with_z (address nb) (z_value nb))).
  { intros i Hi. destruct (Hlink i Hi) as (b & nb & Hb & Hnb & Htb & _).
    unfold terminal_branch in Htb.
    destruct (terminal b) as [d |] eqn:Hd; [| discriminate Htb].
    exists b, nb, d. repeat split; try assumption.
    now apply emitted_branch_packs. }
  split; [exact Hlen |]. split; [exact Hword |].
  intros Hal Hb0 Hend Hz15.
  destruct Hready as (_ & Hzpos & Hc).
  assert (Haddr : map address final = map address (blocks built))
    by (rewrite Hfinal; apply link_blocks_preserves; intros; apply link_block_address).
  assert (Hzv : map z_value final = map z_value (blocks built))
    by (rewrite Hfinal; apply link_blocks_preserves; intros; apply link_block_z_value).
  (* every block of the final list has an address and a Z that a branch
     word can hold *)
  assert (Hfit : forall j nb, nth_error final j = Some nb ->
             address nb mod 16 = 0 /\ 0 <= address nb < 2 ^ 32 /\
             0 <= z_value nb <= 15 /\ find_block (address nb) final = Some j).
  { intros j nb Hnb.
    destruct (nth_error (blocks built) j) as [nb0 |] eqn:Hnb0.
    2:{ apply nth_error_None in Hnb0. fold N in Hnb0.
        assert (j < List.length final)%nat
          by (apply nth_error_Some; rewrite Hnb; discriminate).
        lia. }
    pose proof (nth_error_same_map (blocks built) address final j nb nb0 Haddr Hnb Hnb0)
      as Ha.
    pose proof (nth_error_same_map (blocks built) z_value final j nb nb0 Hzv Hnb Hnb0)
      as Hz.
    pose proof (nth_error_In _ _ Hnb0) as Hin.
    rewrite Forall_forall in Hzpos, Hz15.
    pose proof (Hzpos _ Hin) as Hp. pose proof (Hz15 _ Hin) as Hq.
    pose proof (chained_lower _ _ Hc (proj2 (Forall_forall _ _) Hzpos) _ Hin) as Hlo.
    pose proof (chained_upper _ _ Hc (proj2 (Forall_forall _ _) Hzpos) _ Hin) as Hup.
    pose proof (chained_mod16 _ _ Hc) as Hm. rewrite Forall_forall in Hm.
    rewrite Ha, Hz. split; [rewrite (Hm _ Hin); exact Hal |].
    split; [lia |]. split; [lia |].
    rewrite (find_block_same_addresses _ final (blocks built) Haddr).
    exact (find_block_chained base (blocks built) j nb0 Hc
             (proj2 (Forall_forall _ _) Hzpos) Hnb0). }
  assert (Hfollow : forall i, (i < N)%nat -> follow final i = Some (Nat.modulo (i + 1) N)).
  { intros i Hi. destruct (Hword i Hi) as (b & nb & d & Hb & Hnb & Hd & _ & He).
    destruct (Hfit _ _ Hnb) as (Ha & Hr & Hz & Hfind).
    destruct (pack_ptr_with_z_exact _ _ Ha Hr Hz) as (Hhi & Hlo & _).
    unfold follow. rewrite Hb, Hd, He, Hhi, Hlo, Hfind, Hnb, Z.eqb_refl. reflexivity. }
  split; [| split; [exact Hfollow |]].
  - intros i Hi. destruct (Hword i Hi) as (b & nb & d & Hb & Hnb & Hd & _ & He).
    destruct (Hfit _ _ Hnb) as (Ha & Hr & Hz & _).
    exists b, nb, d. repeat split; try assumption. rewrite He. f_equal.
    exact (proj2 (proj2 (pack_ptr_with_z_exact _ _ Ha Hr Hz))).
  - rewrite (walk_ring final N Hfollow N 0%nat) by lia. f_equal. apply map_mod_seq.
Qed.

(** The walk around the four-block ring. *)
Lemma ring_closure_witness :
  walk (blocks (fst (finalize_ring (four_data_blocks 0 2 false false false true)))) 4 0
  = Some [0; 1; 2; 3; 0]%nat.
Proof.
  refine (proj2 (proj2 (proj2 (proj2
           (ring_closure 0x80000000 0 2 48000 NEXT
              [ DataPacket 8 2 1 None false; DataPacket 8 2 1 None false;
                DataPacket 8 2 1 None false; DataPacket 8 2 1 None true ]
              (le_S _ _ (le_S _ _ (le_S _ _ (le_n 1)))))) _ _ _ _))).
  - reflexivity.
  - lia.
  - vm_compute. discriminate.
  - vm_compute. repeat constructor; discriminate.
Defined.

(** On a base address that is not a multiple of 16 the serialised branch
    word of block 0 (0x80000033) names the address 0x80000030, where no
    block lies (the blocks are at 0x80000008 and 0x80000038), although the
    branch fields hold the successor's address; with 18 fragments a block
    has Z = 20 and the word pointing at it carries Z = 4.  In both
    programs the walk from block 0 stops at the first branch. *)
Lemma ring_open_on_misaligned_base :
  map address misaligned_ring = [0x80000008; 0x80000038] /\
  map terminal_branch misaligned_ring =
    [Some (0x80000038, 3); Some (0x80000008, 3)] /\
  map terminal_word misaligned_ring = [Some 0x80000033; Some 0x80000003] /\
  follow misaligned_ring 0 = None /\
  walk misaligned_ring 2 0 = None /\
  map address wide_ring = [0x80000000; 0x80000140] /\
  map z_value wide_ring = [20; 20] /\
  map terminal_word wide_ring = [Some 0x80000144; Some 0x80000004] /\
  follow wide_ring 0 = None /\
  walk wide_ring 2 0 = None.
Proof. vm_compute. repeat split; reflexivity. Qed.
